(** * Measurement-conditioning pipeline of the reef-pi sensor drivers

    A shallow embedding of the calibration, decoding, caching, polling and
    temperature-compensation code of the drivers (Robo-Tank pH and
    conductivity, AliExpress pH and ORP, ADS1115 TDS), with the properties
    of the pipeline specification stated and proved over it.

    Numeric model.  A Go [float64] is modelled by an exact rational ([Q]):
    comparisons and the four operations are the exact ones, so rounding,
    NaN and the infinities are outside the model, and the configuration
    of a driver is taken to be numbers.  The divisions of the modelled
    code are by a non-zero constant or behind a guard of the code against
    a zero denominator, with the one exception of [tempNormalize], whose
    quotient by zero is 0 here and an infinity or NaN in Go.  Equality of
    results is stated with [==] (equality of rationals) where a
    computation is involved.  A bound that a rounding error of the code
    can cross is stated with room for it.

    The one reading that comes to a driver as text, the pH of the
    Robo-Tank board, can be an infinity or NaN.  The calibration of that
    driver is therefore embedded a second time, on rationals extended
    with the infinities and NaN ([IEEE], [RobotankPHIEEE]), and the two
    embeddings are proved to agree on numbers.

    Time.  [time.Time] is an optional number of nanoseconds ([None] is the
    zero [time.Time], for which [IsZero] holds); [time.Duration] is a
    number of nanoseconds.  The clock and the I2C bus live in an explicit
    world that is threaded through the operations. *)

From Stdlib Require Import ZArith QArith Qabs Qminmax Lqa Lia List Bool String Ascii.
From Stdlib.Strings Require Import Byte.
From Stdlib Require Import DecimalString.
From Equations Require Import Equations.
Import ListNotations.

Local Open Scope Q_scope.

(** ** float64 as exact rationals *)

Definition float64 : Type := Q.

Module F64.
(** [x < y] *)
Definition ltb (x y : float64) : bool := negb (Qle_bool y x).
(** [x <= y] *)
Definition leb (x y : float64) : bool := Qle_bool x y.
(** [x == y] *)
Definition eqb (x y : float64) : bool := Qeq_bool x y.
(** [x != y] *)
Definition neb (x y : float64) : bool := negb (Qeq_bool x y).
(** [math.Abs] *)
Definition abs (x : float64) : float64 := Qabs x.
(** [float64(n)] for an integer [n] *)
Definition ofZ (n : Z) : float64 := inject_Z n.
End F64.

(** ** Go values shared by the drivers *)

(** A Go [error] carries its message. *)
Inductive error : Type :=
| Err (msg : string).

(** The outcome of a call returning [(T, error)]. *)
Inductive result (A : Type) : Type :=
| Ok (a : A)
| Fail (e : error).
Arguments Ok {A} a.
Arguments Fail {A} e.

(** [time.Duration] constants, in nanoseconds. *)
Definition Microsecond : Z := 1000.
Definition Millisecond : Z := 1000000.
Definition Second : Z := 1000000000.
Definition Minute : Z := 60 * Second.

(** [hal.Signal]: an instantaneous value and its unit. *)
Record Signal : Type := { Now : float64; SigUnit : string }.

(** [hal.Snapshot], without the presentation-only [Meta] and [Notes]. *)
Record Snapshot : Type := {
  SnapValue : float64;
  SnapUnit : string;
  Signals : list (string * Signal)
}.

(** [hal.Measurement]: a calibration point. *)
Record Measurement : Type := { Expected : float64; Observed : float64 }.

(** * robotank_ph/driver.go *)

Module RobotankPH.

Definition truePH4 : float64 := 4.
Definition truePH7 : float64 := 7.
Definition truePH10 : float64 := 10.
Definition phSlopeMvPerPH : float64 := 59.16.

(** The fields of [Driver] the calibration reads.  [-1] disables an
    anchor.  [debug] only switches logging on. *)
Record Driver : Type := {
  addr : Z;
  debug : bool;
  obs4 : float64;
  obs7 : float64;
  obs10 : float64
}.

Record anchor : Type := { truePH : float64; obsPH : float64 }.

(** [sort.Slice(as, func(i, j) bool { return as[i].truePH < as[j].truePH })],
    as an insertion sort. *)
Fixpoint insertAnchor (a : anchor) (l : list anchor) : list anchor :=
  match l with
  | [] => [a]
  | b :: l' =>
      if F64.ltb (truePH b) (truePH a) then b :: insertAnchor a l'
      else a :: l
  end.

Definition sortByTruePH (l : list anchor) : list anchor :=
  fold_right insertAnchor [] l.

Definition enabledAnchors (d : Driver) : list anchor :=
  let as0 : list anchor := [] in
  let as1 := if F64.neb (obs4 d) (-1)
             then as0 ++ [{| truePH := truePH4; obsPH := obs4 d |}] else as0 in
  let as2 := if F64.neb (obs7 d) (-1)
             then as1 ++ [{| truePH := truePH7; obsPH := obs7 d |}] else as1 in
  let as3 := if F64.neb (obs10 d) (-1)
             then as2 ++ [{| truePH := truePH10; obsPH := obs10 d |}] else as2 in
  sortByTruePH as3.

Record mapDebug : Type := { den : float64; t : float64; y : float64 }.

Definition clampPH (v lo hi : float64) : float64 * bool :=
  if F64.ltb v lo then (lo, true)
  else if F64.ltb hi v then (hi, true)
  else (v, false).

Definition linearMapDbg (x x1 x2 y1 y2 : float64) : mapDebug :=
  let den := x2 - x1 in
  if F64.ltb (F64.abs den) 1e-9 then {| den := den; t := 0; y := y1 |}
  else
    let t := (x - x1) / den in
    let y := y1 + t * (y2 - y1) in
    {| den := den; t := t; y := y |}.

(** The safety clamp on the raw reading, before any calibration. *)
Definition clampRaw (raw : float64) : float64 :=
  let raw1 := if F64.ltb raw (-1) then -1 else raw in
  if F64.ltb 15 raw1 then 15 else raw1.

Definition applyCalibration (d : Driver) (raw : float64) : float64 :=
  let raw := clampRaw raw in
  match enabledAnchors d with
  | [] => raw
  | [a0] =>
      let off := truePH a0 - obsPH a0 in
      let outPre := raw + off in
      fst (clampPH outPre 0 14)
  | [a0; a1] =>
      let dbg := linearMapDbg raw (obsPH a0) (obsPH a1) (truePH a0) (truePH a1) in
      fst (clampPH (y dbg) 0 14)
  | a0 :: a1 :: a2 :: _ =>
      let left := F64.leb raw (obsPH a1) in
      let dbg :=
        if left
        then linearMapDbg raw (obsPH a0) (obsPH a1) (truePH a0) (truePH a1)
        else linearMapDbg raw (obsPH a1) (obsPH a2) (truePH a1) (truePH a2) in
      fst (clampPH (y dbg) 0 14)
  end.

Definition phToImpliedMv (ph : float64) : float64 :=
  (7 - ph) * phSlopeMvPerPH.

(** [phPin.Value], given what [readFloat("R")] returned: the board's
    reading, or the transport or parse error. *)
Definition Value (d : Driver) (rd : result float64) : result float64 :=
  match rd with
  | Fail e => Fail e
  | Ok raw => Ok (applyCalibration d raw)
  end.

Definition Measure (d : Driver) (rd : result float64) : result float64 :=
  Value d rd.

Definition Snapshot (d : Driver) (rd : result float64) : result Snapshot :=
  match rd with
  | Fail e => Fail e
  | Ok raw =>
      let cal := applyCalibration d raw in
      Ok {| SnapValue := cal;
            SnapUnit := "pH";
            Signals :=
              [ ("observed"%string, {| Now := raw; SigUnit := "pH" |});
                ("implied_mv"%string,
                 {| Now := phToImpliedMv raw; SigUnit := "mV" |}) ] |}
  end.

(** What [ValidateParameters] demands of the anchors: at least one is
    enabled and every enabled one lies in [0, 14]. *)
Definition anchorOk (v : float64) : bool :=
  negb (F64.neb v (-1)) || negb (F64.ltb v 0 || F64.ltb 14 v).

Definition validAnchors (d : Driver) : bool :=
  anchorOk (obs4 d) && anchorOk (obs7 d) && anchorOk (obs10 d)
  && (F64.neb (obs4 d) (-1) || F64.neb (obs7 d) (-1) || F64.neb (obs10 d) (-1)).

End RobotankPH.


(** * robotank_conductivity/driver.go *)

Module Conductivity.

Definition driverName : string := "Robo-Tank Conductivity Circuit".
Definition fixedRefUS : float64 := 53000.
Definition fixedRefTempC : float64 := 25.
Definition fixedAlphaPerC : float64 := 0.0015.
Definition tempStaleAfter : Z := 2 * Minute.

Record RoboTankConductivity : Type := {
  addr : Z;
  absDFresh : float64;
  absDStd : float64;
  refUS : float64;
  alphaPerC : float64;
  refTempC : float64;
  tempC : float64;
  tempUpdatedAt : option Z;
  tempValid : bool;
  debug : bool
}.

(** The struct literal of the factory's [NewDriver]; the parameter map has
    already been parsed into its arguments. *)
Definition NewDriver (addrInt : Z) (absRODI absSTD alpha : float64) (dbg : bool)
  : RoboTankConductivity :=
  {| addr := addrInt;
     absDFresh := absRODI;
     absDStd := absSTD;
     refUS := fixedRefUS;
     alphaPerC := alpha;
     refTempC := fixedRefTempC;
     tempC := fixedRefTempC;
     tempUpdatedAt := None;
     tempValid := false;
     debug := dbg |}.

Definition setTemp (d : RoboTankConductivity) (at_ : option Z) (valid : bool)
  (c : float64) : RoboTankConductivity :=
  {| addr := addr d; absDFresh := absDFresh d; absDStd := absDStd d;
     refUS := refUS d; alphaPerC := alphaPerC d; refTempC := refTempC d;
     tempC := c; tempUpdatedAt := at_; tempValid := valid; debug := debug d |}.

(** [SetTemperatureC], called when the clock reads [now]. *)
Definition SetTemperatureC (d : RoboTankConductivity) (now : Z) (c : float64)
  : RoboTankConductivity :=
  if F64.ltb c 0
  then setTemp d (Some now) false (refTempC d)
  else setTemp d (Some now) true c.

Definition usFromAbsD (d : RoboTankConductivity) (ad : float64) : result float64 :=
  if F64.leb (absDFresh d) 0 || F64.leb (absDStd d) 0 then
    Fail (Err (driverName ++ ": missing calibration (AbsD_RODI and AbsD_Std must be set)")%string)
  else if F64.eqb (absDFresh d) (absDStd d) then
    Fail (Err (driverName ++ ": invalid calibration (AbsD_RODI == AbsD_Std)")%string)
  else
    let x := (absDFresh d - ad) / (absDFresh d - absDStd d) in
    let x := if F64.ltb x 0 then 0 else x in
    let x := if F64.ltb 1.2 x then 1.2 else x in
    Ok (x * refUS d).

(** [tempCompToRef], called when the clock reads [now]: the converted value
    and the driver with its temperature state possibly downgraded. *)
Definition tempCompToRef (d : RoboTankConductivity) (now : Z) (us : float64)
  : float64 * RoboTankConductivity :=
  if negb (tempValid d) then (us, d)
  else
    match tempUpdatedAt d with
    | None => (us, setTemp d (tempUpdatedAt d) false (refTempC d))
    | Some updatedAt =>
        let age := (now - updatedAt)%Z in
        if (tempStaleAfter <? age)%Z
        then (us, setTemp d (tempUpdatedAt d) false (refTempC d))
        else
          let den := 1 + alphaPerC d * (tempC d - refTempC d) in
          let den := if F64.leb den 0.1 then 0.1 else den in
          (us / den, d)
    end.

Definition pptFromUS (d : RoboTankConductivity) (usRef : float64) : float64 :=
  usRef * (35 / refUS d).

(** The five results of [compute]. *)
Record computed : Type := {
  usRef : float64; u : float64; v : float64; ad : float64; err : option error
}.

(** [absDiff], given what [TestHigh] and [TestLow] returned. *)
Definition absDiff (rdU rdV : result float64)
  : float64 * float64 * float64 * option error :=
  match rdU with
  | Fail e => (0, 0, 0, Some e)
  | Ok u =>
      match rdV with
      | Fail e => (0, 0, 0, Some e)
      | Ok v => (F64.abs (u - v), u, v, None)
      end
  end.

Definition compute (d : RoboTankConductivity) (now : Z) (rdU rdV : result float64)
  : computed * RoboTankConductivity :=
  match absDiff rdU rdV with
  | (_, _, _, Some e) =>
      ({| usRef := 0; u := 0; v := 0; ad := 0; err := Some e |}, d)
  | (ad, u, v, None) =>
      match usFromAbsD d ad with
      | Fail e => ({| usRef := 0; u := u; v := v; ad := ad; err := Some e |}, d)
      | Ok us =>
          let (usRef, d') := tempCompToRef d now us in
          ({| usRef := usRef; u := u; v := v; ad := ad; err := None |}, d')
      end
  end.

(** [rtPin.Value] on channel [ch]. *)
Definition Value (d : RoboTankConductivity) (ch : Z) (now : Z)
  (rdU rdV : result float64) : result float64 * RoboTankConductivity :=
  let (c, d') := compute d now rdU rdV in
  match err c with
  | Some e => (Fail e, d')
  | None =>
      let ppt := pptFromUS d' (usRef c) in
      if (ch =? 0)%Z then (Ok (usRef c), d') else (Ok ppt, d')
  end.

End Conductivity.

(** * The world: clock and I2C bus

    The drivers reach the hardware through [i2c.Bus] and the clock through
    [time.Now] and [time.Sleep].  The world records the current time, every
    bus operation issued so far (oldest first) and the device behind the
    bus: what it answers to the [n]-th operation, and how long the
    transfer takes. *)

Inductive BusOp : Type :=
| OpReadBytes (addr : Z) (n : Z)
| OpWriteBytes (addr : Z) (data : list Byte.byte)
| OpWriteToReg (addr : Z) (reg : Z) (data : list Byte.byte)
| OpReadFromReg (addr : Z) (reg : Z) (n : Z).

Record BusResp : Type := {
  outcome : result (list Byte.byte);
  took : N
}.

Record World : Type := {
  now : Z;
  issued : list BusOp;
  device : nat -> BusOp -> BusResp
}.

Definition Sleep (d : Z) (w : World) : World :=
  {| now := now w + Z.max 0 d; issued := issued w; device := device w |}.

(** One bus operation: it is appended to the log, the device answers, and
    the clock advances by the duration of the transfer. *)
Definition busCall (op : BusOp) (w : World) : result (list Byte.byte) * World :=
  let r := device w (List.length (issued w)) op in
  (outcome r,
   {| now := now w + Z.of_N (took r);
      issued := issued w ++ [op];
      device := device w |}).

Definition ReadBytes (addr n : Z) (w : World) : result (list Byte.byte) * World :=
  busCall (OpReadBytes addr n) w.

(** [WriteToReg]: only the error matters. *)
Definition WriteToReg (addr reg : Z) (data : list Byte.byte) (w : World)
  : option error * World :=
  match busCall (OpWriteToReg addr reg data) w with
  | (Ok _, w') => (None, w')
  | (Fail e, w') => (Some e, w')
  end.

(** [ReadFromReg] into a two-byte buffer; a successful transfer fills the
    whole buffer. *)
Definition ReadFromReg2 (addr reg : Z) (w : World)
  : result (Byte.byte * Byte.byte) * World :=
  match busCall (OpReadFromReg addr reg 2) w with
  | (Ok data, w') => (Ok (nth 0 data Byte.x00, nth 1 data Byte.x00), w')
  | (Fail e, w') => (Fail e, w')
  end.

(** ** Fixed-width integers *)

Definition byteZ (b : Byte.byte) : Z := Z.of_N (Byte.to_N b).
Definition uint16 (z : Z) : Z := z mod 2 ^ 16.
Definition uint32 (z : Z) : Z := z mod 2 ^ 32.
Definition int16 (z : Z) : Z := (z + 2 ^ 15) mod 2 ^ 16 - 2 ^ 15.
Definition int32 (z : Z) : Z := (z + 2 ^ 31) mod 2 ^ 32 - 2 ^ 31.
Definition byteOfZ (z : Z) : Byte.byte :=
  match Byte.of_N (Z.to_N (z mod 256)) with
  | Some b => b
  | None => Byte.x00
  end.

(** ** Strings *)

Definition lowerAscii (c : ascii) : ascii :=
  let n := nat_of_ascii c in
  if (65 <=? n)%nat && (n <=? 90)%nat then ascii_of_nat (n + 32) else c.

(** [strings.ToLower] on text that is ASCII all through, where Go
    lower-cases the letters A to Z and leaves every other byte as it is.
    On other text Go maps every rune by the Unicode tables (U+0130, for
    one, becomes [i] followed by a combining dot), which this function
    does not do: there it still touches the letters A to Z only. *)
Fixpoint ToLower (s : string) : string :=
  match s with
  | EmptyString => EmptyString
  | String c s' => String (lowerAscii c) (ToLower s')
  end.

(** [strings.Contains]. *)
Fixpoint Contains (s sub : string) : bool :=
  String.prefix sub s ||
  match s with
  | EmptyString => false
  | String _ s' => Contains s' sub
  end.

(** Every byte of the text is below 0x80. *)
Fixpoint isASCII (s : string) : bool :=
  match s with
  | EmptyString => true
  | String c s' => (nat_of_ascii c <? 128)%nat && isASCII s'
  end.

(** [% X] of a byte slice: two upper-case hexadecimal digits for each
    byte and a space between bytes. *)
Definition hexNibble (n : N) : ascii :=
  if (n <? 10)%N then ascii_of_N (48 + n) else ascii_of_N (55 + n).

Definition hexByte (b : Byte.byte) : string :=
  let n := Byte.to_N b in
  String (hexNibble (n / 16)) (String (hexNibble (n mod 16)) EmptyString).

Definition hexSpaced (b : list Byte.byte) : string :=
  String.concat " " (map hexByte b).

(** [%d] of a length. *)
Definition showNat (n : nat) : string :=
  NilEmpty.string_of_uint (Nat.to_uint n).

(** * The AliExpress I2C ADC module (aliexpress_ph, aliexpress_orp)

    Both drivers carry the same acquisition code ([isTransientI2C],
    [enforceMinGap], [readObservedMV], [adcI2C24ToCode],
    [adcCodeToVolts]) over the same fields, which differ in the prefix of
    their log lines only.  It is embedded once, over the fields both
    structs share. *)

Module Adc.

Definition adcOffsetBinaryMid : Z := 0x20000000.
Definition adcScale : float64 := 536870912.
Definition minI2CGap : Z := 35 * Millisecond.
Definition settleAfterRead : Z := 2 * Millisecond.
Definition cacheMaxAge : Z := 250 * Millisecond.
Definition retryDelay : Z := 20 * Millisecond.

(** The fields of [AliExpressPH] and [AliExpressORP] used for acquisition. *)
Record Core : Type := {
  addr : Z;
  vrefV : float64;
  debug : bool;
  lastXferAt : option Z;
  lastSampleAt : option Z;
  lastMV : float64;
  lastRaw : list Byte.byte;
  lastCode : Z
}.

Definition isTransientI2C (e : error) : bool :=
  let 'Err msg := e in
  let s := ToLower msg in
  Contains s "remote i/o error" ||
  Contains s "input/output error" ||
  Contains s "eremoteio" ||
  Contains s "eio".

Definition enforceMinGap (d : Core) (minGap : Z) (w : World) : World :=
  match lastXferAt d with
  | None => w
  | Some at_ =>
      let elapsed := (now w - at_)%Z in
      if (elapsed <? minGap)%Z then Sleep (minGap - elapsed) w else w
  end.

(** [adcI2C24ToCode]; [None] where Go panics on a slice shorter than three
    bytes. *)
Definition adcI2C24ToCode (b : list Byte.byte) : option Z :=
  match b with
  | b0 :: b1 :: b2 :: _ =>
      let u32 :=
        Z.lor (Z.lor (uint32 (Z.shiftl (uint32 (byteZ b0)) 24))
                     (uint32 (Z.shiftl (uint32 (byteZ b1)) 16)))
              (uint32 (Z.shiftl (uint32 (byteZ b2)) 8)) in
      let u32 := Z.shiftr u32 2 in
      let u32 := Z.land u32 0x3FFFFFFF in
      Some (int32 u32)
  | _ => None
  end.

Definition adcCodeToVolts (code : Z) (vref : float64) : float64 :=
  let signed := F64.ofZ (code - adcOffsetBinaryMid) in
  (signed / adcScale) * vref.

Definition touch (d : Core) (at_ : Z) : Core :=
  {| addr := addr d; vrefV := vrefV d; debug := debug d;
     lastXferAt := Some at_; lastSampleAt := lastSampleAt d;
     lastMV := lastMV d; lastRaw := lastRaw d; lastCode := lastCode d |}.

Definition store (d : Core) (at_ : Z) (mv : float64) (raw : list Byte.byte)
  (code : Z) : Core :=
  {| addr := addr d; vrefV := vrefV d; debug := debug d;
     lastXferAt := lastXferAt d; lastSampleAt := Some at_;
     lastMV := mv; lastRaw := raw; lastCode := code |}.

(** The four results of [readObservedMV]. *)
Record observed : Type := {
  mv : float64; raw : list Byte.byte; adcCode : Z; err : option error
}.

Definition failed (raw : list Byte.byte) (e : error) : observed :=
  {| mv := 0; raw := raw; adcCode := 0; err := Some e |}.

Definition allFF3 (p : list Byte.byte) : bool :=
  Byte.eqb (nth 0 p Byte.x00) Byte.xff &&
  Byte.eqb (nth 1 p Byte.x00) Byte.xff &&
  Byte.eqb (nth 2 p Byte.x00) Byte.xff.

(** The loop [for attempt := 1; attempt <= 2; attempt++] of
    [readObservedMV], with [left] iterations to go.  The decoder is only
    reached with a payload of three bytes, so its panic on a shorter one
    (the [None] branch) cannot happen. *)
Fixpoint readAttempts (left : nat) (attempt : Z) (lastErr : option error)
  (d : Core) (w : World) : observed * Core * World :=
  match left with
  | O => ({| mv := 0; raw := []; adcCode := 0; err := lastErr |}, d, w)
  | S left' =>
      let d := touch d (now w) in
      let (resp, w) := ReadBytes (addr d) 3 w in
      match resp with
      | Fail e =>
          if (attempt =? 1)%Z && isTransientI2C e
          then readAttempts left' (attempt + 1)%Z (Some e) d (Sleep retryDelay w)
          else (failed [] e, d, w)
      | Ok payload =>
          if negb (List.length payload =? 3)%nat then
            let e := Err ("short i2c read: got " ++ showNat (List.length payload)
                          ++ " bytes, want 3")%string in
            if (attempt =? 1)%Z
            then readAttempts left' (attempt + 1)%Z (Some e) d
                              (Sleep (10 * Millisecond) w)
            else (failed payload e, d, w)
          else if allFF3 payload then
            let e := Err "invalid payload: all 0xFF" in
            if (attempt =? 1)%Z
            then readAttempts left' (attempt + 1)%Z (Some e) d
                              (Sleep (10 * Millisecond) w)
            else (failed payload e, d, w)
          else
            match adcI2C24ToCode payload with
            | None => (failed payload (Err "index out of range"), d, w)
            | Some code =>
                let v := adcCodeToVolts code (vrefV d) in
                let mv := v * 1000 in
                let d := store d (now w) mv payload code in
                ({| mv := mv; raw := payload; adcCode := code; err := None |},
                 d, Sleep settleAfterRead w)
            end
      end
  end.

Definition readObservedMV (d : Core) (w : World) : observed * Core * World :=
  let fresh :=
    match lastSampleAt d with
    | None => false
    | Some at_ => (now w - at_ <? cacheMaxAge)%Z
    end in
  if fresh
  then ({| mv := lastMV d; raw := lastRaw d; adcCode := lastCode d; err := None |},
        d, w)
  else
    let w := enforceMinGap d minI2CGap w in
    readAttempts 2 1 None d w.

End Adc.

(** * aliexpress_orp/driver.go *)

Module AliExpressORP.

Record AliExpressORP : Type := {
  core : Adc.Core;
  offset : float64
}.

Definition withCore (d : AliExpressORP) (c : Adc.Core) : AliExpressORP :=
  {| core := c; offset := offset d |}.

(** [func (p *orpPin) SetTemperatureC(tempC float64) {}] *)
Definition SetTemperatureC (d : AliExpressORP) (tempC : float64) : AliExpressORP :=
  d.

Definition readObservedMV (d : AliExpressORP) (w : World)
  : Adc.observed * AliExpressORP * World :=
  let '(o, c, w') := Adc.readObservedMV (core d) w in (o, withCore d c, w').

Definition Value (d : AliExpressORP) (w : World)
  : result float64 * AliExpressORP * World :=
  let '(o, d', w') := readObservedMV d w in
  match Adc.err o with
  | Some e => (Fail e, d', w')
  | None => (Ok (Adc.mv o + offset d'), d', w')
  end.

Definition Measure (d : AliExpressORP) (w : World)
  : result float64 * AliExpressORP * World :=
  Value d w.

Definition Snapshot (d : AliExpressORP) (w : World)
  : result Snapshot * AliExpressORP * World :=
  let '(o, d', w') := readObservedMV d w in
  match Adc.err o with
  | Some e => (Fail e, d', w')
  | None =>
      let out := Adc.mv o + offset d' in
      (Ok {| SnapValue := out;
             SnapUnit := "mV";
             Signals :=
               [ ("observed_mv"%string, {| Now := Adc.mv o; SigUnit := "mV" |});
                 ("offset_mv"%string, {| Now := offset d'; SigUnit := "mV" |});
                 ("adc_code"%string,
                  {| Now := F64.ofZ (Adc.adcCode o); SigUnit := "" |});
                 ("raw_hex"%string,
                  {| Now := 0; SigUnit := hexSpaced (Adc.raw o) |}) ] |},
       d', w')
  end.

Definition withOffset (d : AliExpressORP) (off : float64) : AliExpressORP :=
  {| core := core d; offset := off |}.

(** [orpPin.Calibrate]: the offset model [offset = Expected - Observed],
    a zero [Observed] standing for "read live now". *)
Fixpoint Calibrate (d : AliExpressORP) (ms : list Measurement) (w : World)
  : option error * AliExpressORP * World :=
  match ms with
  | [] => (None, d, w)
  | m :: ms' =>
      if F64.eqb (Observed m) 0 then
        let '(o, d1, w1) := readObservedMV d w in
        match Adc.err o with
        | Some e => (Some e, d1, w1)
        | None => Calibrate (withOffset d1 (Expected m - Adc.mv o)) ms' w1
        end
      else Calibrate (withOffset d (Expected m - Observed m)) ms' w
  end.

End AliExpressORP.

(** * aliexpress_ph: driver *)

Module AliExpressPH.

Definition idealSlope25C : float64 := 59.16.
Definition refTempK25C : float64 := 298.15.

Record AliExpressPH : Type := {
  core : Adc.Core;
  ph7mV : float64;
  ph4mV : float64;
  ph10mV : float64;
  slopeOverride : float64;
  doTempComp : bool;
  refTempC : float64;
  tempC : float64;
  tempUpdatedAt : option Z
}.

Definition withCore (d : AliExpressPH) (c : Adc.Core) : AliExpressPH :=
  {| core := c; ph7mV := ph7mV d; ph4mV := ph4mV d; ph10mV := ph10mV d;
     slopeOverride := slopeOverride d; doTempComp := doTempComp d;
     refTempC := refTempC d; tempC := tempC d;
     tempUpdatedAt := tempUpdatedAt d |}.

(** [SetTemperatureC], called when the clock reads [now]. *)
Definition SetTemperatureC (d : AliExpressPH) (now : Z) (c : float64)
  : AliExpressPH :=
  {| core := core d; ph7mV := ph7mV d; ph4mV := ph4mV d; ph10mV := ph10mV d;
     slopeOverride := slopeOverride d; doTempComp := doTempComp d;
     refTempC := refTempC d; tempC := c; tempUpdatedAt := Some now |}.

Definition slope25C (d : AliExpressPH) : float64 :=
  if F64.neb (slopeOverride d) 0 then slopeOverride d
  else if F64.neb (ph4mV d) 0 then (ph4mV d - ph7mV d) / (4 - 7)
  else if F64.neb (ph10mV d) 0 then (ph10mV d - ph7mV d) / (10 - 7)
  else - idealSlope25C.

Definition slopeAtTemp (d : AliExpressPH) (slope25 : float64)
  : float64 * bool * string :=
  if negb (doTempComp d) then (slope25, false, "disabled by configuration"%string)
  else
    let tk := tempC d + 273.15 in
    if F64.leb tk 0
    then (slope25, false, "invalid temperature; using 25C slope"%string)
    else (slope25 * (tk / refTempK25C), true, ""%string).

(** [mvToPH]; of the guard [slope == 0 || IsNaN(slope) || IsInf(slope, 0)]
    only the first disjunct can hold of a rational. *)
Definition mvToPH (d : AliExpressPH) (mv : float64) : float64 * float64 :=
  let s25 := slope25C d in
  let '(slope, _, _) := slopeAtTemp d s25 in
  let slope := if F64.eqb slope 0 then - idealSlope25C else slope in
  (7 + ((mv - ph7mV d) / slope), slope).

Definition readObservedMV (d : AliExpressPH) (w : World)
  : Adc.observed * AliExpressPH * World :=
  let '(o, c, w') := Adc.readObservedMV (core d) w in (o, withCore d c, w').

Definition Value (d : AliExpressPH) (w : World)
  : result float64 * AliExpressPH * World :=
  let '(o, d', w') := readObservedMV d w in
  match Adc.err o with
  | Some e => (Fail e, d', w')
  | None =>
      let (ph, slope) := mvToPH d' (Adc.mv o) in
      let ph := if F64.ltb ph 0 then 0 else ph in
      let ph := if F64.ltb 14 ph then 14 else ph in
      (Ok ph, d', w')
  end.

Definition Measure (d : AliExpressPH) (w : World)
  : result float64 * AliExpressPH * World :=
  Value d w.

(** The temperature notes of [Snapshot]. *)
Inductive note : Type :=
| NeverInjected
| Stale (age : Z)
| CompDisabled.

Definition tempNotes (d : AliExpressPH) (now : Z) : list note :=
  if doTempComp d then
    match tempUpdatedAt d with
    | None => [NeverInjected]
    | Some at_ =>
        let age := (now - at_)%Z in
        if (2 * Minute <? age)%Z then [Stale age] else []
    end
  else [CompDisabled].

Definition Snapshot (d : AliExpressPH) (w : World)
  : result (Snapshot * list note) * AliExpressPH * World :=
  let '(o, d', w') := readObservedMV d w in
  match Adc.err o with
  | Some e => (Fail e, d', w')
  | None =>
      let (ph, slope) := mvToPH d' (Adc.mv o) in
      (Ok ({| SnapValue := ph;
              SnapUnit := "pH";
              Signals :=
                [ ("observed_mv"%string, {| Now := Adc.mv o; SigUnit := "mV" |});
                  ("slope_used"%string, {| Now := slope; SigUnit := "mV/pH" |});
                  ("tempC"%string, {| Now := tempC d'; SigUnit := "C" |});
                  ("ph7_mV"%string, {| Now := ph7mV d'; SigUnit := "mV" |});
                  ("ph4_mV"%string, {| Now := ph4mV d'; SigUnit := "mV" |});
                  ("ph10_mV"%string, {| Now := ph10mV d'; SigUnit := "mV" |});
                  ("adc_code"%string,
                   {| Now := F64.ofZ (Adc.adcCode o); SigUnit := "" |});
                  ("raw_hex"%string,
                   {| Now := 0; SigUnit := hexSpaced (Adc.raw o) |}) ] |},
           tempNotes d' (now w')),
       d', w')
  end.

Definition driverName : string := "AliExpress I2C pH (ADC→mV→pH)".

Definition withAnchors (d : AliExpressPH) (a7 a4 a10 : float64) : AliExpressPH :=
  {| core := core d; ph7mV := a7; ph4mV := a4; ph10mV := a10;
     slopeOverride := slopeOverride d; doTempComp := doTempComp d;
     refTempC := refTempC d; tempC := tempC d;
     tempUpdatedAt := tempUpdatedAt d |}.

(** The [switch] of [Calibrate]: which anchor a point with this expected
    pH sets, or the error.  [fmt3] is [%.3f] of [fmt.Errorf]. *)
Definition setAnchor (fmt3 : float64 -> string) (d : AliExpressPH)
  (exp obs : float64) : result AliExpressPH :=
  if F64.eqb exp 7 then Ok (withAnchors d obs (ph4mV d) (ph10mV d))
  else if F64.eqb exp 4 then Ok (withAnchors d (ph7mV d) obs (ph10mV d))
  else if F64.eqb exp 10 then Ok (withAnchors d (ph7mV d) (ph4mV d) obs)
  else Fail (Err (driverName ++ ": unsupported calibration Expected="
                  ++ fmt3 exp ++ " (use 4,7,10 for pH buffers)")%string).

(** [phPin.Calibrate]; a zero [Observed] stands for "read live now". *)
Fixpoint Calibrate (fmt3 : float64 -> string) (d : AliExpressPH)
  (ms : list Measurement) (w : World) : option error * AliExpressPH * World :=
  match ms with
  | [] => (None, d, w)
  | m :: ms' =>
      if F64.eqb (Observed m) 0 then
        let '(o, d1, w1) := readObservedMV d w in
        match Adc.err o with
        | Some e => (Some e, d1, w1)
        | None =>
            match setAnchor fmt3 d1 (Expected m) (Adc.mv o) with
            | Fail e => (Some e, d1, w1)
            | Ok d2 => Calibrate fmt3 d2 ms' w1
            end
        end
      else
        match setAnchor fmt3 d (Expected m) (Observed m) with
        | Fail e => (Some e, d, w)
        | Ok d2 => Calibrate fmt3 d2 ms' w
        end
  end.

End AliExpressPH.

(** * ads1115tds: driver *)

Module Ads1115.

Definition regConversion : Z := 0x00.
Definition regConfig : Z := 0x01.
Definition configOsSingle : Z := 0x8000.
Definition configModeSingle : Z := 0x0100.
Definition configDataRate860 : Z := 0x00E0.
Definition configComparatorModeTraditional : Z := 0x0000.
Definition configComparitorNonLatching : Z := 0x0000.
Definition configComparitorPolarityActiveLow : Z := 0x0000.
Definition configComparitorQueueNone : Z := 0x0003.
Definition convTimeout : Z := 50 * Millisecond.
Definition convPollWait : Z := 200 * Microsecond.
Definition tempStaleWarn : Z := 2 * Minute.

Definition configGainTwoThirds : Z := 0x0000.
Definition configGainOne : Z := 0x0200.
Definition configGainTwo : Z := 0x0400.
Definition configGainFour : Z := 0x0600.
Definition configGainEight : Z := 0x0800.
Definition configGainSixteen : Z := 0x0A00.

Definition configMuxSingle0 : Z := 0x4000.
Definition configMuxSingle1 : Z := 0x5000.
Definition configMuxSingle2 : Z := 0x6000.
Definition configMuxSingle3 : Z := 0x7000.

Definition muxForChannel (ch : Z) : Z * bool :=
  if (ch =? 0)%Z then (configMuxSingle0, true)
  else if (ch =? 1)%Z then (configMuxSingle1, true)
  else if (ch =? 2)%Z then (configMuxSingle2, true)
  else if (ch =? 3)%Z then (configMuxSingle3, true)
  else (0%Z, false).

Definition fsVoltsForGain (gain : Z) : float64 * bool :=
  if (gain =? configGainTwoThirds)%Z then (6.144, true)
  else if (gain =? configGainOne)%Z then (4.096, true)
  else if (gain =? configGainTwo)%Z then (2.048, true)
  else if (gain =? configGainFour)%Z then (1.024, true)
  else if (gain =? configGainEight)%Z then (0.512, true)
  else if (gain =? configGainSixteen)%Z then (0.256, true)
  else (0, false).

(** [tdsChannel].  [delay] is the settle delay of the variant of the
    driver without temperature compensation; the variant with it has no
    such field, which is [delay = 0] here. *)
Record tdsChannel : Type := {
  address : Z;
  channel : Z;
  mux : Z;
  gainConfig : Z;
  tdsK : float64;
  tdsOffset : float64;
  clampV : float64;
  alphaPerC : float64;
  doTempComp : bool;
  refTempC : float64;
  tempC : float64;
  tempUpdatedAt : option Z;
  delay : Z;
  debug : bool
}.

(** [SetTemperatureC], called when the clock reads [now]. *)
Definition SetTemperatureC (c : tdsChannel) (now : Z) (t : float64) : tdsChannel :=
  {| address := address c; channel := channel c; mux := mux c;
     gainConfig := gainConfig c; tdsK := tdsK c; tdsOffset := tdsOffset c;
     clampV := clampV c; alphaPerC := alphaPerC c; doTempComp := doTempComp c;
     refTempC := refTempC c; tempC := t; tempUpdatedAt := Some now;
     delay := delay c; debug := debug c |}.

Definition getTemperatureC (c : tdsChannel) : float64 * bool * option Z :=
  match tempUpdatedAt c with
  | Some at_ => (tempC c, true, Some at_)
  | None => (refTempC c, false, None)
  end.

(** [tempNormalize].  The denominator is not guarded by the code. *)
Definition tempNormalize (volts tempC alpha refTempC : float64) : float64 :=
  volts / (1 + alpha * (tempC - refTempC)).

Definition hexDigit (n : Z) : ascii :=
  if (n <? 10)%Z then ascii_of_nat (48 + Z.to_nat n)
  else ascii_of_nat (55 + Z.to_nat n).

(** [%04X] of a 16-bit value. *)
Definition hex4 (z : Z) : string :=
  String (hexDigit (Z.shiftr z 12 mod 16))
    (String (hexDigit (Z.shiftr z 8 mod 16))
       (String (hexDigit (Z.shiftr z 4 mod 16))
          (String (hexDigit (z mod 16)) EmptyString))).

Definition wrapErr (prefix : string) (e : error) : error :=
  let 'Err msg := e in Err (prefix ++ msg)%string.

Definition timeoutErr (lastCfg : Z) : error :=
  Err ("ads1115: conversion timeout (last cfg=0x" ++ hex4 lastCfg ++ ")")%string.

(** The configuration word that starts a single-shot conversion. *)
Definition configWord (c : tdsChannel) : Z :=
  uint16
    (Z.lor configOsSingle
      (Z.lor configModeSingle
        (Z.lor configComparatorModeTraditional
          (Z.lor configComparitorNonLatching
            (Z.lor configComparitorPolarityActiveLow
              (Z.lor configComparitorQueueNone
                (Z.lor (mux c) (Z.lor (gainConfig c) configDataRate860)))))))).

(** [binary.BigEndian.Uint16]. *)
Definition be16 (b0 b1 : Byte.byte) : Z :=
  Z.lor (uint16 (Z.shiftl (byteZ b0) 8)) (byteZ b1).

(** How the polling of the OS bit ended: the bit was seen set, the
    deadline passed, or the bus failed; with the last configuration value
    read and the number of polls. *)
Inductive polled : Type :=
| Ready (lastCfg : Z) (polls : Z)
| TimedOut (lastCfg : Z) (polls : Z)
| BusFailed (e : error).

Definition inspect {A : Type} (a : A) : {b : A | a = b} := exist _ a eq_refl.

(** The loop [for { ReadFromReg(regConfig); if OS set break;
    if time.Now().After(deadline) return timeout; time.Sleep(convPollWait) }].
    Every turn that goes on sleeps, so the distance to the deadline
    shrinks. *)
Equations? pollOS (addr : Z) (deadline : Z) (polls : Z) (w : World)
  : polled * World
  by wf (Z.to_nat ((deadline - now w) / convPollWait + 1)) lt :=
pollOS addr deadline polls w with inspect (ReadFromReg2 addr regConfig w) := {
  | exist _ (Fail e, w1) _ => (BusFailed e, w1)
  | exist _ (Ok (c0, c1), w1) Hrd
      with inspect (negb (Z.land (be16 c0 c1) configOsSingle =? 0)%Z) := {
      | exist _ true _ => (Ready (be16 c0 c1) (polls + 1), w1)
      | exist _ false _ with inspect (deadline <? now w1)%Z := {
          | exist _ true _ => (TimedOut (be16 c0 c1) (polls + 1), w1)
          | exist _ false Hd =>
              pollOS addr deadline (polls + 1) (Sleep convPollWait w1) } } }.
Proof.
  unfold ReadFromReg2, busCall in Hrd.
  destruct (outcome _); inversion Hrd; subst; clear Hrd.
  apply Z.ltb_ge in Hd. simpl in *.
  change (Z.max 0 convPollWait) with convPollWait.
  set (lat := Z.of_N _) in *.
  assert (Hlat : (0 <= lat)%Z) by apply N2Z.is_nonneg.
  assert (Hpos : (0 < convPollWait)%Z) by reflexivity.
  assert (Hstep : ((deadline - (now w + lat + convPollWait)) / convPollWait
                   <= (deadline - now w) / convPollWait - 1)%Z).
  { replace (deadline - now w)%Z
      with ((deadline - now w - convPollWait) + 1 * convPollWait)%Z by ring.
    rewrite Z.div_add by lia.
    replace ((deadline - now w - convPollWait) / convPollWait + 1 - 1)%Z
      with ((deadline - now w - convPollWait) / convPollWait)%Z by ring.
    apply Z.div_le_mono; lia. }
  assert (Hnn : (0 <= (deadline - now w) / convPollWait)%Z)
    by (apply Z.div_pos; lia).
  lia.
Qed.

(** The part of a conversion after the configuration write: poll, then
    read the conversion register. *)
Definition awaitAndRead (c : tdsChannel) (w : World) : Z * option error * World :=
  let deadline := (now w + convTimeout)%Z in
  match pollOS (address c) deadline 0 w with
  | (BusFailed e, w) => (0%Z, Some (wrapErr "ads1115: read config: " e), w)
  | (TimedOut lastCfg _, w) => (0%Z, Some (timeoutErr lastCfg), w)
  | (Ready _ _, w) =>
      match ReadFromReg2 (address c) regConversion w with
      | (Fail e, w) => (0%Z, Some (wrapErr "ads1115: read conversion: " e), w)
      | (Ok (b0, b1), w) => (int16 (be16 b0 b1), None, w)
      end
  end.

Definition writeConfig (c : tdsChannel) (w : World) : option error * World :=
  let config := configWord c in
  let buf := [byteOfZ (Z.shiftr config 8); byteOfZ config] in
  WriteToReg (address c) regConfig buf w.

(** [performConversionDebug] (the driver with temperature compensation),
    without its diagnostic lines. *)
Definition performConversionDebug (c : tdsChannel) (w : World)
  : Z * option error * World :=
  match writeConfig c w with
  | (Some e, w) => (0%Z, Some (wrapErr "ads1115: write config: " e), w)
  | (None, w) => awaitAndRead c w
  end.

(** [performConversion] (the driver with the settle delay). *)
Definition performConversion (c : tdsChannel) (w : World)
  : Z * option error * World :=
  match writeConfig c w with
  | (Some e, w) => (0%Z, Some (wrapErr "ads1115: write config: " e), w)
  | (None, w) =>
      let w := if (0 <? delay c)%Z then Sleep (delay c) w else w in
      awaitAndRead c w
  end.

(** [rawToVoltsDebug], without its diagnostic lines; its final guard
    against NaN and the infinities cannot fire on a rational. *)
Definition rawToVoltsDebug (c : tdsChannel) (raw : Z) : result float64 :=
  let (fs, ok) := fsVoltsForGain (gainConfig c) in
  if negb ok then
    Fail (Err ("ads1115: unknown gain config: 0x" ++ hex4 (gainConfig c))%string)
  else
    let volts := (F64.ofZ raw / 32768) * fs in
    let volts := if F64.ltb (clampV c) volts then clampV c else volts in
    let volts := if F64.ltb volts 0 then 0 else volts in
    Ok volts.

(** Step 3 of [measureAllDebug]: the optional normalisation of the
    clamped voltage to the reference temperature. *)
Definition voltsAtRef (c : tdsChannel) (voltsRaw : float64) : float64 :=
  let '(temp, injected, updatedAt) := getTemperatureC c in
  if doTempComp c
  then tempNormalize voltsRaw temp (alphaPerC c) (refTempC c)
  else voltsRaw.

(** The results of [measureAllDebug], without the diagnostic lines. *)
Record measured : Type := {
  raw : Z; voltsRaw : float64; voltsRef : float64; out : float64;
  err : option error
}.

Definition measureAllDebug (c : tdsChannel) (w : World) : measured * World :=
  let '(raw, e, w) := performConversionDebug c w in
  match e with
  | Some e =>
      ({| raw := 0; voltsRaw := 0; voltsRef := 0; out := 0; err := Some e |}, w)
  | None =>
      match rawToVoltsDebug c raw with
      | Fail e =>
          ({| raw := 0; voltsRaw := 0; voltsRef := 0; out := 0; err := Some e |}, w)
      | Ok voltsRaw =>
          let voltsRef := voltsAtRef c voltsRaw in
          let out := (tdsK c * voltsRef) + tdsOffset c in
          ({| raw := raw; voltsRaw := voltsRaw; voltsRef := voltsRef;
              out := out; err := None |}, w)
      end
  end.

Definition Measure (c : tdsChannel) (w : World) : result float64 * World :=
  let (m, w) := measureAllDebug c w in
  match err m with
  | Some e => (Fail e, w)
  | None => (Ok (out m), w)
  end.

End Ads1115.

(** * The statements of the specification, in its own words *)

(** The line through [(x1, y1)] and [(x2, y2)], evaluated at [x]: the
    2-point linear map of the specification. *)
Definition lineThrough (x1 y1 x2 y2 x : float64) : float64 :=
  y1 + (x - x1) / (x2 - x1) * (y2 - y1).

(** The 3-point pH calibration as the specification words it: the segment
    is chosen by comparing the input with the observed value of the middle
    anchor, and the output is the line through the two anchors of the
    segment. *)
Definition piecewiseSpec (d : RobotankPH.Driver) (x : float64) : float64 :=
  if F64.leb x (RobotankPH.obs7 d)
  then lineThrough (RobotankPH.obs4 d) 4 (RobotankPH.obs7 d) 7 x
  else lineThrough (RobotankPH.obs7 d) 7 (RobotankPH.obs10 d) 10 x.




(** The device never shows the OS (conversion ready) bit when the
    configuration register of the chip at [addr] is read. *)
Definition neverReady (addr : Z) (w : World) : Prop :=
  forall k data,
    outcome (device w k (OpReadFromReg addr Ads1115.regConfig 2)) = Ok data ->
    Z.land (Ads1115.be16 (nth 0 data x00) (nth 1 data x00))
           Ads1115.configOsSingle = 0%Z.

(** No bus operation fails. *)
Definition busNeverFails (w : World) : Prop :=
  forall k op, exists data, outcome (device w k op) = Ok data.

(** The bus traffic of a conversion that is started and then polled
    [polls] times without a read of the conversion register. *)
Definition startThenPoll (c : Ads1115.tdsChannel) (polls : nat) : list BusOp :=
  OpWriteToReg (Ads1115.address c) Ads1115.regConfig
    [byteOfZ (Z.shiftr (Ads1115.configWord c) 8);
     byteOfZ (Ads1115.configWord c)]
  :: repeat (OpReadFromReg (Ads1115.address c) Ads1115.regConfig 2) polls.

(** * Sample configurations *)

(** A Robo-Tank pH board with a compressed alkaline side: it reads 4, 7
    and 9 in the pH 4, 7 and 10 buffers. *)
Definition phCompressed : RobotankPH.Driver :=
  {| RobotankPH.addr := 0x62; RobotankPH.debug := false;
     RobotankPH.obs4 := 4; RobotankPH.obs7 := 7; RobotankPH.obs10 := 9 |}.


(** A Robo-Tank pH driver whose pH 4 and pH 7 anchors were both observed
    at 6.5. *)
Definition phEqualAnchors : RobotankPH.Driver :=
  {| RobotankPH.addr := 0x62; RobotankPH.debug := false;
     RobotankPH.obs4 := 6.5; RobotankPH.obs7 := 6.5; RobotankPH.obs10 := -1 |}.

(** The conductivity driver of the end-to-end scenario: fresh anchor
    1000 mV, standard anchor 20 mV. *)
Definition condScenario : Conductivity.RoboTankConductivity :=
  Conductivity.NewDriver 106 1000 20 Conductivity.fixedAlphaPerC false.


(** An ADC module at address 0x24 with the 2.5 V reference and nothing
    cached. *)
Definition adcIdle : Adc.Core :=
  {| Adc.addr := 0x24; Adc.vrefV := 2.5; Adc.debug := false;
     Adc.lastXferAt := None; Adc.lastSampleAt := None;
     Adc.lastMV := 0; Adc.lastRaw := []; Adc.lastCode := 0 |}.

(** The AliExpress pH driver as the factory builds it from an empty
    configuration, with compensation switched off or on. *)
Definition phFactory (comp : bool) : AliExpressPH.AliExpressPH :=
  {| AliExpressPH.core := adcIdle;
     AliExpressPH.ph7mV := 0; AliExpressPH.ph4mV := 0; AliExpressPH.ph10mV := 0;
     AliExpressPH.slopeOverride := 0; AliExpressPH.doTempComp := comp;
     AliExpressPH.refTempC := 25; AliExpressPH.tempC := 25;
     AliExpressPH.tempUpdatedAt := None |}.

(** An AliExpress ORP driver with a 12.5 mV offset. *)
Definition orpSample : AliExpressORP.AliExpressORP :=
  {| AliExpressORP.core := adcIdle; AliExpressORP.offset := 12.5 |}.

(** A device that answers every bus operation with the same bytes after
    300 microseconds. *)
Definition answering (data : list Byte.byte) : nat -> BusOp -> BusResp :=
  fun _ _ => {| outcome := Ok data; took := 300000 |}.

(** A slow ADS1115: every transfer takes 30 ms, and the OS bit shows from
    the third bus operation on, which is the second poll. *)
Definition readyLate : nat -> BusOp -> BusResp :=
  fun k _ =>
    {| outcome := Ok (if (k <? 2)%nat then [x03; xe3] else [x83; xe3]);
       took := 30000000 |}.

(** A world whose clock shows [t], with no bus traffic yet. *)
Definition worldAt (t : Z) (dev : nat -> BusOp -> BusResp) : World :=
  {| now := t; issued := []; device := dev |}.

(** An ADS1115 channel on AIN0 with gain 1. *)
Definition tdsSample : Ads1115.tdsChannel :=
  {| Ads1115.address := 0x48; Ads1115.channel := 0;
     Ads1115.mux := Ads1115.configMuxSingle0;
     Ads1115.gainConfig := Ads1115.configGainOne;
     Ads1115.tdsK := 500; Ads1115.tdsOffset := 0; Ads1115.clampV := 3.3;
     Ads1115.alphaPerC := 0.02; Ads1115.doTempComp := false;
     Ads1115.refTempC := 25; Ads1115.tempC := 25;
     Ads1115.tempUpdatedAt := None; Ads1115.delay := 0;
     Ads1115.debug := false |}.

(** * Histories of the conductivity driver's temperature state

    The operations that touch the temperature state are the injection
    [SetTemperatureC] and the normalisation request [tempCompToRef], each
    at the time the clock shows.  A history lists them newest first. *)

Inductive tempOp : Type :=
| Inject (now : Z) (c : float64)
| Normalise (now : Z) (us : float64).

Definition tempStep (d : Conductivity.RoboTankConductivity) (o : tempOp)
  : Conductivity.RoboTankConductivity :=
  match o with
  | Inject now c => Conductivity.SetTemperatureC d now c
  | Normalise now us => snd (Conductivity.tempCompToRef d now us)
  end.

Fixpoint after (d0 : Conductivity.RoboTankConductivity) (h : list tempOp)
  : Conductivity.RoboTankConductivity :=
  match h with
  | [] => d0
  | o :: h' => tempStep (after d0 h') o
  end.

(** The time at which an operation happens. *)
Definition opTime (o : tempOp) : Z :=
  match o with
  | Inject now _ => now
  | Normalise now _ => now
  end.

(** The most recent injection of a history: its time and its value. *)
Fixpoint lastInjection (h : list tempOp) : option (Z * float64) :=
  match h with
  | [] => None
  | Inject now c :: _ => Some (now, c)
  | Normalise _ _ :: h' => lastInjection h'
  end.

(** The invariant of the conductivity driver's temperature state, against
    the history that produced it. *)
Definition tempInv (d0 d : Conductivity.RoboTankConductivity) (h : list tempOp)
  : Prop :=
  Conductivity.refTempC d = Conductivity.refTempC d0
  /\ match lastInjection h with
     | None =>
         Conductivity.tempValid d = false
         /\ Conductivity.tempUpdatedAt d = None
     | Some (n, c) =>
         Conductivity.tempUpdatedAt d = Some n
         /\ (c < 0 ->
             Conductivity.tempValid d = false
             /\ Conductivity.tempC d = Conductivity.refTempC d)
         /\ (Conductivity.tempValid d = true ->
             Conductivity.tempC d = c /\ 0 <= c)
     end.

(** Robo-Tank pH drivers with one, two and three anchors. *)
Definition phOnePoint : RobotankPH.Driver :=
  {| RobotankPH.addr := 0x62; RobotankPH.debug := false;
     RobotankPH.obs4 := -1; RobotankPH.obs7 := 6.8; RobotankPH.obs10 := -1 |}.

Definition phTwoPoint : RobotankPH.Driver :=
  {| RobotankPH.addr := 0x62; RobotankPH.debug := false;
     RobotankPH.obs4 := 4.2; RobotankPH.obs7 := 7.1; RobotankPH.obs10 := -1 |}.

Definition phThreePoint : RobotankPH.Driver :=
  {| RobotankPH.addr := 0x62; RobotankPH.debug := false;
     RobotankPH.obs4 := 4.2; RobotankPH.obs7 := 7.1; RobotankPH.obs10 := 9.8 |}.

(** A sample as [readObservedMV] decodes it with reference [vref]: three
    bytes that are not all 0xFF, their code, and the millivolts of the
    code. *)
Definition sampleOk (vref mv : float64) (raw : list Byte.byte) (code : Z) : Prop :=
  List.length raw = 3%nat
  /\ Adc.allFF3 raw = false
  /\ Adc.adcI2C24ToCode raw = Some code
  /\ mv = Adc.adcCodeToVolts code vref * 1000.

(** The cache of an ADC driver holds nothing or a decoded sample. *)
Definition cacheOk (d : Adc.Core) : Prop :=
  Adc.lastSampleAt d = None
  \/ sampleOk (Adc.vrefV d) (Adc.lastMV d) (Adc.lastRaw d) (Adc.lastCode d).

(** The request finds no sample younger than the cache window. *)
Definition cacheMiss (d : Adc.Core) (w : World) : Prop :=
  match Adc.lastSampleAt d with
  | None => True
  | Some ts => (Adc.cacheMaxAge <= now w - ts)%Z
  end.

(** A device whose first answer is the given bus error and which answers
    with the given bytes from then on. *)
Definition failingOnce (msg : string) (data : list Byte.byte)
  : nat -> BusOp -> BusResp :=
  fun k _ =>
    {| outcome := if (k =? 0)%nat then Fail (Err msg) else Ok data;
       took := 300000 |}.

(** The buffers [phPin.Calibrate] accepts. *)
Definition supported (m : Measurement) : bool :=
  F64.eqb (Expected m) 7 || F64.eqb (Expected m) 4 || F64.eqb (Expected m) 10.

(** The point carries its observation; no live read is made for it. *)
Definition given (m : Measurement) : Prop := ~ Observed m == 0.

(** The AliExpress pH driver with a fixed slope, an override or
    temperature compensation set aside. *)
Definition plainSlope (d : AliExpressPH.AliExpressPH) : Prop :=
  AliExpressPH.slopeOverride d == 0 /\ AliExpressPH.doTempComp d = false.

(** [%.3f] is not modelled; the message of the calibration error takes
    it as it comes. *)
Definition fmt3Sample (x : float64) : string := "5.000".

(** * float64 values that are not numbers

    The reading of the Robo-Tank pH driver is whatever
    [strconv.ParseFloat] makes of the text the board sends, and that can
    be an infinity or NaN.  For this driver a [float64] is a number (held
    exactly, as everywhere in this file), an infinity or NaN, with the
    comparisons and operations of IEEE 754 on the values that are not
    numbers: every comparison with NaN is false and every operation on
    NaN gives NaN.  Signed zeros are not told apart. *)

Module IEEE.

Inductive t : Type :=
| Fin (q : float64)
| PInf
| NInf
| NaN.

(** [a < b] *)
Definition ltb (a b : t) : bool :=
  match a, b with
  | Fin x, Fin y => F64.ltb x y
  | Fin _, PInf => true
  | NInf, Fin _ => true
  | NInf, PInf => true
  | _, _ => false
  end.

(** [a <= b] *)
Definition leb (a b : t) : bool :=
  match a, b with
  | Fin x, Fin y => F64.leb x y
  | Fin _, PInf => true
  | NInf, Fin _ => true
  | NInf, PInf => true
  | NInf, NInf => true
  | PInf, PInf => true
  | _, _ => false
  end.

Definition opp (a : t) : t :=
  match a with
  | Fin x => Fin (- x)
  | PInf => NInf
  | NInf => PInf
  | NaN => NaN
  end.

Definition add (a b : t) : t :=
  match a, b with
  | Fin x, Fin y => Fin (x + y)
  | NaN, _ => NaN
  | _, NaN => NaN
  | PInf, NInf => NaN
  | NInf, PInf => NaN
  | PInf, _ => PInf
  | NInf, _ => NInf
  | Fin _, PInf => PInf
  | Fin _, NInf => NInf
  end.

Definition sub (a b : t) : t := add a (opp b).

(** The infinity with the sign of [x], or NaN for zero. *)
Definition infBySign (x : float64) (pos : t) : t :=
  if F64.eqb x 0 then NaN
  else if F64.ltb 0 x then pos else opp pos.

Definition mul (a b : t) : t :=
  match a, b with
  | Fin x, Fin y => Fin (x * y)
  | NaN, _ => NaN
  | _, NaN => NaN
  | PInf, PInf => PInf
  | NInf, NInf => PInf
  | PInf, NInf => NInf
  | NInf, PInf => NInf
  | Fin x, PInf => infBySign x PInf
  | Fin x, NInf => infBySign x NInf
  | PInf, Fin y => infBySign y PInf
  | NInf, Fin y => infBySign y NInf
  end.

Definition div (a b : t) : t :=
  match a, b with
  | Fin x, Fin y =>
      if F64.eqb y 0 then infBySign x PInf else Fin (x / y)
  | NaN, _ => NaN
  | _, NaN => NaN
  | Fin _, PInf => Fin 0
  | Fin _, NInf => Fin 0
  | PInf, Fin y => if F64.ltb y 0 then NInf else PInf
  | NInf, Fin y => if F64.ltb y 0 then PInf else NInf
  | _, _ => NaN
  end.

(** [a == b] *)
Definition eqb (a b : t) : bool :=
  match a, b with
  | Fin x, Fin y => F64.eqb x y
  | PInf, PInf => true
  | NInf, NInf => true
  | _, _ => false
  end.

(** [a != b] *)
Definition neb (a b : t) : bool := negb (eqb a b).

(** [math.Abs] *)
Definition abs (a : t) : t :=
  match a with
  | Fin x => Fin (F64.abs x)
  | PInf => PInf
  | NInf => PInf
  | NaN => NaN
  end.



End IEEE.

(** * robotank_ph/driver.go on every float64

    The calibration of [RobotankPH] above once more, this time on readings
    and anchors that may be an infinity or NaN: the reading comes from the
    text of the board and the anchors from the text of the configuration,
    both through [strconv.ParseFloat]. *)

Module HalIEEE.

(** [hal.Signal] and [hal.Snapshot] with values that may be NaN. *)
Record Signal : Type := { Now : IEEE.t; SigUnit : string }.

Record Snapshot : Type := {
  SnapValue : IEEE.t;
  SnapUnit : string;
  Signals : list (string * Signal)
}.

End HalIEEE.

Module RobotankPHIEEE.

Definition truePH4 : IEEE.t := IEEE.Fin 4.
Definition truePH7 : IEEE.t := IEEE.Fin 7.
Definition truePH10 : IEEE.t := IEEE.Fin 10.
Definition phSlopeMvPerPH : IEEE.t := IEEE.Fin 59.16.

Record Driver : Type := {
  addr : Z;
  debug : bool;
  obs4 : IEEE.t;
  obs7 : IEEE.t;
  obs10 : IEEE.t
}.

Record anchor : Type := { truePH : IEEE.t; obsPH : IEEE.t }.

Fixpoint insertAnchor (a : anchor) (l : list anchor) : list anchor :=
  match l with
  | [] => [a]
  | b :: l' =>
      if IEEE.ltb (truePH b) (truePH a) then b :: insertAnchor a l'
      else a :: l
  end.

Definition sortByTruePH (l : list anchor) : list anchor :=
  fold_right insertAnchor [] l.

Definition enabledAnchors (d : Driver) : list anchor :=
  let as0 : list anchor := [] in
  let as1 := if IEEE.neb (obs4 d) (IEEE.Fin (-1))
             then as0 ++ [{| truePH := truePH4; obsPH := obs4 d |}] else as0 in
  let as2 := if IEEE.neb (obs7 d) (IEEE.Fin (-1))
             then as1 ++ [{| truePH := truePH7; obsPH := obs7 d |}] else as1 in
  let as3 := if IEEE.neb (obs10 d) (IEEE.Fin (-1))
             then as2 ++ [{| truePH := truePH10; obsPH := obs10 d |}] else as2 in
  sortByTruePH as3.

Record mapDebug : Type := { den : IEEE.t; t : IEEE.t; y : IEEE.t }.

Definition clampPH (v lo hi : IEEE.t) : IEEE.t * bool :=
  if IEEE.ltb v lo then (lo, true)
  else if IEEE.ltb hi v then (hi, true)
  else (v, false).

Definition linearMapDbg (x x1 x2 y1 y2 : IEEE.t) : mapDebug :=
  let den := IEEE.sub x2 x1 in
  if IEEE.ltb (IEEE.abs den) (IEEE.Fin 1e-9)
  then {| den := den; t := IEEE.Fin 0; y := y1 |}
  else
    let t := IEEE.div (IEEE.sub x x1) den in
    let y := IEEE.add y1 (IEEE.mul t (IEEE.sub y2 y1)) in
    {| den := den; t := t; y := y |}.

(** The safety clamp on the raw reading, before any calibration. *)
Definition clampRaw (raw : IEEE.t) : IEEE.t :=
  let raw1 := if IEEE.ltb raw (IEEE.Fin (-1)) then IEEE.Fin (-1) else raw in
  if IEEE.ltb (IEEE.Fin 15) raw1 then IEEE.Fin 15 else raw1.

Definition applyCalibration (d : Driver) (raw : IEEE.t) : IEEE.t :=
  let raw := clampRaw raw in
  match enabledAnchors d with
  | [] => raw
  | [a0] =>
      let off := IEEE.sub (truePH a0) (obsPH a0) in
      let outPre := IEEE.add raw off in
      fst (clampPH outPre (IEEE.Fin 0) (IEEE.Fin 14))
  | [a0; a1] =>
      let dbg := linearMapDbg raw (obsPH a0) (obsPH a1) (truePH a0) (truePH a1) in
      fst (clampPH (y dbg) (IEEE.Fin 0) (IEEE.Fin 14))
  | a0 :: a1 :: a2 :: _ =>
      let left := IEEE.leb raw (obsPH a1) in
      let dbg :=
        if left
        then linearMapDbg raw (obsPH a0) (obsPH a1) (truePH a0) (truePH a1)
        else linearMapDbg raw (obsPH a1) (obsPH a2) (truePH a1) (truePH a2) in
      fst (clampPH (y dbg) (IEEE.Fin 0) (IEEE.Fin 14))
  end.

Definition phToImpliedMv (ph : IEEE.t) : IEEE.t :=
  IEEE.mul (IEEE.sub (IEEE.Fin 7) ph) phSlopeMvPerPH.

(** [phPin.Value], given what [readFloat("R")] returned. *)
Definition Value (d : Driver) (rd : result IEEE.t) : result IEEE.t :=
  match rd with
  | Fail e => Fail e
  | Ok raw => Ok (applyCalibration d raw)
  end.

Definition Measure (d : Driver) (rd : result IEEE.t) : result IEEE.t :=
  Value d rd.

Definition Snapshot (d : Driver) (rd : result IEEE.t) : result HalIEEE.Snapshot :=
  match rd with
  | Fail e => Fail e
  | Ok raw =>
      let cal := applyCalibration d raw in
      Ok {| HalIEEE.SnapValue := cal;
            HalIEEE.SnapUnit := "pH";
            HalIEEE.Signals :=
              [ ("observed"%string,
                 {| HalIEEE.Now := raw; HalIEEE.SigUnit := "pH" |});
                ("implied_mv"%string,
                 {| HalIEEE.Now := phToImpliedMv raw;
                    HalIEEE.SigUnit := "mV" |}) ] |}
  end.

(** What [ValidateParameters] demands of the anchors: at least one is
    enabled ([v != -1]) and no enabled one has [v < 0 || v > 14]. *)
Definition anchorOk (v : IEEE.t) : bool :=
  negb (IEEE.neb v (IEEE.Fin (-1)))
  || negb (IEEE.ltb v (IEEE.Fin 0) || IEEE.ltb (IEEE.Fin 14) v).

Definition validAnchors (d : Driver) : bool :=
  anchorOk (obs4 d) && anchorOk (obs7 d) && anchorOk (obs10 d)
  && (IEEE.neb (obs4 d) (IEEE.Fin (-1)) || IEEE.neb (obs7 d) (IEEE.Fin (-1))
      || IEEE.neb (obs10 d) (IEEE.Fin (-1))).





End RobotankPHIEEE.

(** * The serial protocol of the Robo-Tank boards

    Both Robo-Tank drivers send a NUL-terminated command with
    [WriteBytes] and read a 32-byte frame back: a status byte, the text,
    a NUL and padding.  The functions of the Go library the drivers call
    on the text ([strings.TrimSpace], [strconv.ParseFloat], the [%q] verb
    of [fmt]) are not part of the drivers; they are taken as given.

    [strconv.ParseFloat] comes in two parts.  [ParseSpecial] is its answer
    on the texts it reads as an infinity or as NaN (the words inf,
    infinity and nan); [ParseFloat] is its answer on every other text: a
    number, or an error.  A decimal literal is never read as an infinity
    or NaN without an error, so [parseFirstFloat] of the conductivity
    driver, which hands over decimal literals only, needs the second part
    alone; [readFloat] of the pH driver hands over the text of the board
    as it is and needs both. *)

Record GoLib : Type := {
  TrimSpace : string -> string;
  ParseFloat : string -> result float64;
  ParseSpecial : string -> option IEEE.t;
  Quote : string -> string
}.

(** [strconv.ParseFloat(s, 64)] on any text. *)
Definition ParseFloatAny (lib : GoLib) (s : string) : result IEEE.t :=
  match ParseSpecial lib s with
  | Some v => Ok v
  | None =>
      match ParseFloat lib s with
      | Ok v => Ok (IEEE.Fin v)
      | Fail e => Fail e
      end
  end.

(** [WriteBytes]: only the error matters. *)
Definition WriteBytes (addr : Z) (data : list Byte.byte) (w : World)
  : option error * World :=
  match busCall (OpWriteBytes addr data) w with
  | (Ok _, w') => (None, w')
  | (Fail e, w') => (Some e, w')
  end.

(** [[]byte(cmd + "\x00")]. *)
Definition commandBytes (cmd : string) : list Byte.byte :=
  list_byte_of_string cmd ++ [x00].

(** [for i, v := range b { if v == 0x00 { b = b[:i]; break } }]. *)
Fixpoint cutAtNUL (b : list Byte.byte) : list Byte.byte :=
  match b with
  | [] => []
  | v :: b' => if Byte.eqb v x00 then [] else v :: cutAtNUL b'
  end.

(** [for len(b) > 0 && b[len(b)-1] == 0xFF { b = b[:len(b)-1] }]. *)
Fixpoint trimFF (b : list Byte.byte) : list Byte.byte :=
  match b with
  | [] => []
  | v :: b' =>
      match trimFF b' with
      | [] => if Byte.eqb v xff then [] else [v]
      | t => v :: t
      end
  end.

(** [%d] of a byte and [%v] of a byte slice. *)
Definition showByte (b : Byte.byte) : string :=
  showNat (N.to_nat (Byte.to_N b)).

Definition showBytes (b : list Byte.byte) : string :=
  ("[" ++ String.concat " " (map showByte b) ++ "]")%string.

(** [%v] of an error that may be nil. *)
Definition showErr (e : option error) : string :=
  match e with
  | Some (Err msg) => msg
  | None => "<nil>"
  end.

(** The fields of a Robo-Tank driver its I2C helpers use. *)
Record Port : Type := { portAddr : Z; portDelay : Z }.

(** ** robotank_conductivity: I2C helpers *)

Module ConductivityIO.

(** [drain]: both results of the read are dropped. *)
Definition drain (p : Port) (w : World) : World :=
  snd (ReadBytes (portAddr p) 32 w).

Definition command (p : Port) (cmd : string) (w : World) : option error * World :=
  let w := drain p w in
  match WriteBytes (portAddr p) (commandBytes cmd) w with
  | (Some e, w) => (Some e, w)
  | (None, w) => (None, Sleep (portDelay p) w)
  end.

(** What [read] makes of a payload. *)
Definition decode (lib : GoLib) (payload : list Byte.byte) : result string :=
  match payload with
  | [] => Fail (Err "empty i2c payload")
  | st :: b =>
      if negb (Byte.eqb st x01) then
        Fail (Err ("device status=" ++ showByte st ++ " payload="
                   ++ showBytes payload)%string)
      else Ok (TrimSpace lib (string_of_list_byte (trimFF (cutAtNUL b))))
  end.

Definition read (lib : GoLib) (p : Port) (w : World) : result string * World :=
  match ReadBytes (portAddr p) 32 w with
  | (Fail e, w) => (Fail e, w)
  | (Ok payload, w) => (decode lib payload, w)
  end.

Definition isDigit (c : ascii) : bool :=
  let n := nat_of_ascii c in (48 <=? n)%nat && (n <=? 57)%nat.

Definition isSign (c : ascii) : bool :=
  Ascii.eqb c "-" || Ascii.eqb c "+".

Definition isSep (c : ascii) : bool :=
  Ascii.eqb c "." || Ascii.eqb c ",".

(** [\d+], greedy: the digits at the head of [s] and what follows them. *)
Fixpoint digits (s : string) : string * string :=
  match s with
  | String c s' =>
      if isDigit c then let (ds, r) := digits s' in (String c ds, r)
      else (EmptyString, s)
  | EmptyString => (EmptyString, EmptyString)
  end.

(** [(?:[.,]\d+)?], greedy, at the head of [s]: the separator is taken
    only together with at least one digit. *)
Definition fraction (s : string) : string :=
  match s with
  | String c s' =>
      if isSep c then
        match digits s' with
        | (EmptyString, _) => EmptyString
        | (ds, _) => String c ds
        end
      else EmptyString
  | EmptyString => EmptyString
  end.

(** A match of [[-+]?\d+(?:[.,]\d+)?] that starts at the head of [s].  A
    sign that no digit follows gives no match: without the sign the
    expression would have to start with a digit there. *)
Definition matchHere (s : string) : option string :=
  let (sgn, s1) :=
    match s with
    | String c s' => if isSign c then (String c EmptyString, s') else (EmptyString, s)
    | EmptyString => (EmptyString, s)
    end in
  match digits s1 with
  | (EmptyString, _) => None
  | (ds, r) => Some (sgn ++ ds ++ fraction r)%string
  end.

(** [firstNumRe.FindString]: the leftmost match, or the empty string. *)
Fixpoint FindString (s : string) : string :=
  match matchHere s with
  | Some m => m
  | None =>
      match s with
      | String _ s' => FindString s'
      | EmptyString => EmptyString
      end
  end.

(** [strings.ReplaceAll(m, ",", ".")]. *)
Fixpoint commasToDots (s : string) : string :=
  match s with
  | String c s' => String (if Ascii.eqb c "," then "."%char else c) (commasToDots s')
  | EmptyString => EmptyString
  end.

Definition parseFirstFloat (lib : GoLib) (resp : string) : result float64 :=
  match FindString resp with
  | EmptyString =>
      Fail (Err ("no float found in resp=" ++ Quote lib resp)%string)
  | m =>
      let m := commasToDots m in
      match ParseFloat lib m with
      | Fail e =>
          Fail (Err ("bad float " ++ Quote lib m ++ " in resp=" ++ Quote lib resp
                     ++ ": " ++ showErr (Some e))%string)
      | Ok v => Ok v
      end
  end.

(** The loop [for i := 0; i < 6; i++] of [readFloat], with [left]
    turns to go. *)
Fixpoint readLoop (lib : GoLib) (p : Port) (cmd : string) (left : nat)
  (lastErr : option error) (w : World) : result float64 * World :=
  match left with
  | O => (Fail (Err ("cmd=" ++ Quote lib cmd ++ ": " ++ showErr lastErr)%string), w)
  | S left' =>
      match read lib p w with
      | (Fail e, w) =>
          readLoop lib p cmd left' (Some e) (Sleep (50 * Millisecond) w)
      | (Ok resp, w) =>
          match parseFirstFloat lib resp with
          | Ok v => (Ok v, w)
          | Fail e =>
              readLoop lib p cmd left' (Some e) (Sleep (50 * Millisecond) w)
          end
      end
  end.

Definition readFloat (lib : GoLib) (p : Port) (cmd : string) (w : World)
  : result float64 * World :=
  match command p cmd w with
  | (Some e, w) => (Fail e, w)
  | (None, w) => readLoop lib p cmd 6 None w
  end.

Definition TestHigh (lib : GoLib) (p : Port) (w : World) : result float64 * World :=
  readFloat lib p "U" w.

Definition TestLow (lib : GoLib) (p : Port) (w : World) : result float64 * World :=
  readFloat lib p "V" w.

Definition Firmware (lib : GoLib) (p : Port) (w : World) : result string * World :=
  match command p "H" w with
  | (Some e, w) => (Fail e, w)
  | (None, w) => read lib p w
  end.

(** [absDiff] over the bus: [TestLow] is asked only after [TestHigh]
    answered. *)
Definition absDiff (lib : GoLib) (p : Port) (w : World)
  : float64 * float64 * float64 * option error * World :=
  match TestHigh lib p w with
  | (Fail e, w) => (0, 0, 0, Some e, w)
  | (Ok u, w) =>
      match TestLow lib p w with
      | (Fail e, w) => (0, 0, 0, Some e, w)
      | (Ok v, w) => (F64.abs (u - v), u, v, None, w)
      end
  end.

Definition withAnchors (d : Conductivity.RoboTankConductivity)
  (fresh std : float64) : Conductivity.RoboTankConductivity :=
  {| Conductivity.addr := Conductivity.addr d;
     Conductivity.absDFresh := fresh;
     Conductivity.absDStd := std;
     Conductivity.refUS := Conductivity.refUS d;
     Conductivity.alphaPerC := Conductivity.alphaPerC d;
     Conductivity.refTempC := Conductivity.refTempC d;
     Conductivity.tempC := Conductivity.tempC d;
     Conductivity.tempUpdatedAt := Conductivity.tempUpdatedAt d;
     Conductivity.tempValid := Conductivity.tempValid d;
     Conductivity.debug := Conductivity.debug d |}.

(** The loop of [rtPin.Calibrate]; [fmt3] is the [%.3f] verb. *)
Fixpoint calibrateLoop (lib : GoLib) (fmt3 : float64 -> string) (p : Port)
  (d : Conductivity.RoboTankConductivity) (ms : list Measurement) (w : World)
  : option error * Conductivity.RoboTankConductivity * World :=
  match ms with
  | [] => (None, d, w)
  | m :: ms' =>
      let step (obs : float64) (w : World) :=
        if F64.eqb (Expected m) 0
        then calibrateLoop lib fmt3 p
               (withAnchors d obs (Conductivity.absDStd d)) ms' w
        else if F64.ltb 0 (Expected m)
        then calibrateLoop lib fmt3 p
               (withAnchors d (Conductivity.absDFresh d) obs) ms' w
        else (Some (Err (Conductivity.driverName
                         ++ ": unsupported calibration Expected="
                         ++ fmt3 (Expected m)
                         ++ " (use 0 for RODI, >0 for standard)")%string), d, w) in
      if F64.eqb (Observed m) 0 then
        match absDiff lib p w with
        | (_, _, _, Some e, w) => (Some e, d, w)
        | (ad, _, _, None, w) => step ad w
        end
      else step (Observed m) w
  end.

(** [rtPin.Calibrate] on channel [ch]. *)
Definition Calibrate (lib : GoLib) (fmt3 : float64 -> string) (p : Port)
  (ch : Z) (d : Conductivity.RoboTankConductivity) (ms : list Measurement)
  (w : World) : option error * Conductivity.RoboTankConductivity * World :=
  if negb (ch =? 0)%Z then
    (Some (Err (Conductivity.driverName
                ++ ": calibrate using channel 0 (uS/cm)")%string), d, w)
  else calibrateLoop lib fmt3 p d ms w.

(** [rtPin.Value] over the bus: [compute] reads the two test voltages. *)
Definition Value (lib : GoLib) (p : Port) (d : Conductivity.RoboTankConductivity)
  (ch : Z) (w : World) : result float64 * Conductivity.RoboTankConductivity * World :=
  match absDiff lib p w with
  | (_, _, _, Some e, w) => (Fail e, d, w)
  | (_, u, v, None, w) =>
      let (r, d') := Conductivity.Value d ch (now w) (Ok u) (Ok v) in (r, d', w)
  end.

End ConductivityIO.

(** ** robotank_ph: I2C helpers *)

Module RobotankPHIO.

Fixpoint allFFLoop (b : list Byte.byte) : bool :=
  match b with
  | [] => true
  | v :: b' => if negb (Byte.eqb v xff) then false else allFFLoop b'
  end.

Definition allFF (b : list Byte.byte) : bool :=
  match b with
  | [] => false
  | _ => allFFLoop b
  end.

Definition command (p : Port) (cmd : string) (w : World) : option error * World :=
  match WriteBytes (portAddr p) (commandBytes cmd) w with
  | (Some e, w) => (Some e, w)
  | (None, w) => (None, Sleep (portDelay p) w)
  end.

(** The part of [readASCII] after the payload has been settled. *)
Definition decode (lib : GoLib) (payload : list Byte.byte) : result string :=
  match payload with
  | [] => Fail (Err "empty payload")
  | st :: b =>
      if negb (Byte.eqb st x01) then
        Fail (Err ("status=" ++ showByte st ++ " payload=" ++ showBytes payload)%string)
      else Ok (TrimSpace lib (string_of_list_byte (trimFF (cutAtNUL b))))
  end.

Definition readASCII (lib : GoLib) (p : Port) (w : World) : result string * World :=
  match ReadBytes (portAddr p) 32 w with
  | (Fail e, w) => (Fail e, w)
  | (Ok [], w) => (Fail (Err "empty payload"), w)
  | (Ok (st :: b), w) =>
      if Byte.eqb st xff && allFF (st :: b) then
        let w := Sleep (50 * Millisecond) w in
        match ReadBytes (portAddr p) 32 w with
        | (Fail e, w) => (Fail e, w)
        | (Ok [], w) => (Fail (Err "empty payload (after retry)"), w)
        | (Ok payload, w) => (decode lib payload, w)
        end
      else (decode lib (st :: b), w)
  end.

Definition readFloat (lib : GoLib) (p : Port) (cmd : string) (w : World)
  : result IEEE.t * World :=
  match command p cmd w with
  | (Some e, w) => (Fail e, w)
  | (None, w) =>
      match readASCII lib p w with
      | (Fail e, w) => (Fail e, w)
      | (Ok resp, w) =>
          match ParseFloatAny lib resp with
          | Fail e =>
              (Fail (Err ("parse float cmd=" ++ Quote lib cmd ++ " resp="
                          ++ Quote lib resp ++ ": " ++ showErr (Some e))%string), w)
          | Ok v => (Ok v, w)
          end
      end
  end.

Definition Firmware (lib : GoLib) (p : Port) (w : World) : result string * World :=
  match command p "H" w with
  | (Some e, w) => (Fail e, w)
  | (None, w) => readASCII lib p w
  end.

(** [phPin.Value] over the bus. *)
Definition Value (lib : GoLib) (p : Port) (d : RobotankPHIEEE.Driver) (w : World)
  : result IEEE.t * World :=
  let (rd, w) := readFloat lib p "R" w in (RobotankPHIEEE.Value d rd, w).

End RobotankPHIO.

(** ** Shapes of texts and frames, for the statements about the protocol *)

Fixpoint noDigit (s : string) : bool :=
  match s with
  | String c s' => negb (ConductivityIO.isDigit c) && noDigit s'
  | EmptyString => true
  end.

Fixpoint allDigits (s : string) : bool :=
  match s with
  | String c s' => ConductivityIO.isDigit c && allDigits s'
  | EmptyString => true
  end.

(** One or more digits. *)
Definition digitRun (s : string) : bool :=
  match s with
  | String _ _ => allDigits s
  | EmptyString => false
  end.

Definition startsWithDigit (s : string) : bool :=
  match s with
  | String c _ => ConductivityIO.isDigit c
  | EmptyString => false
  end.

Fixpoint endsWithSign (s : string) : bool :=
  match s with
  | String c EmptyString => ConductivityIO.isSign c
  | String _ s' => endsWithSign s'
  | EmptyString => false
  end.

(** A plain decimal literal: an optional sign, digits, and optionally a
    dot and more digits. *)
Definition unsignedLiteral (s : string) : bool :=
  match ConductivityIO.digits s with
  | (EmptyString, _) => false
  | (_, EmptyString) => true
  | (_, String c r) => Ascii.eqb c "." && digitRun r
  end.

Definition decimalLiteral (s : string) : bool :=
  match s with
  | String c s' =>
      if ConductivityIO.isSign c then unsignedLiteral s' else unsignedLiteral s
  | EmptyString => false
  end.

(** The padding a board puts after the text of a frame: a NUL and
    anything, or 0xFF bytes only. *)
Definition framePad (pad : list Byte.byte) : Prop :=
  (exists rest, pad = x00 :: rest) \/ (exists n, pad = repeat xff n).

(** A text that a frame can carry: no NUL inside, no 0xFF at its end. *)
Definition frameText (text : list Byte.byte) : Prop :=
  ~ In x00 text /\ last text x00 <> xff.

(** ** A library for the examples *)

Fixpoint digitsValue (s : string) (acc : Z) (scale : positive) : Z * positive :=
  match s with
  | String c s' =>
      if ConductivityIO.isDigit c
      then digitsValue s' (acc * 10 + (Z.of_nat (nat_of_ascii c) - 48)) (scale * 10)
      else (acc, scale)
  | EmptyString => (acc, scale)
  end.

(** The value of a plain decimal literal, as [strconv.ParseFloat] reads
    it before rounding; other texts are refused. *)
Definition plainDecimal (s : string) : result float64 :=
  if negb (decimalLiteral s) then Fail (Err "invalid syntax")
  else
    let (neg, body) :=
      match s with
      | String c s' =>
          if ConductivityIO.isSign c then (Ascii.eqb c "-", s') else (false, s)
      | EmptyString => (false, s)
      end in
    let (ip, rest) := ConductivityIO.digits body in
    let (i, _) := digitsValue ip 0 1 in
    let (f, scale) :=
      match rest with
      | String _ fr => digitsValue fr 0 1
      | EmptyString => (0%Z, 1%positive)
      end in
    let v := inject_Z i + (f # scale) in
    Ok (if neg then - v else v).

(** The words [strconv.ParseFloat] reads as NaN or as an infinity, in
    lower case. *)
Definition specialWord (s : string) : option IEEE.t :=
  let l := ToLower s in
  if String.eqb l "nan" then Some IEEE.NaN
  else if String.eqb l "inf" || String.eqb l "+inf"
          || String.eqb l "infinity" || String.eqb l "+infinity"
  then Some IEEE.PInf
  else if String.eqb l "-inf" || String.eqb l "-infinity" then Some IEEE.NInf
  else None.

Definition libSample : GoLib :=
  {| TrimSpace := fun s => s; ParseFloat := plainDecimal;
     ParseSpecial := specialWord; Quote := fun s => s |}.





Definition portSample : Port := {| portAddr := 0x62; portDelay := 10 * Millisecond |}.

(** The frame of the text ["U=14,322"] padded with 0xFF. *)
Definition frameSample : list Byte.byte :=
  x01 :: list_byte_of_string "U=14,322" ++ x00 :: repeat xff 22.

(** A board that first answers 0xFF bytes only and then the frame of
    ["7.25"]. *)
Definition floatingOnce : nat -> BusOp -> BusResp :=
  fun k op =>
    {| outcome :=
         match op with
         | OpReadBytes _ _ =>
             if (k <=? 1)%nat then Ok (repeat xff 32)
             else Ok (x01 :: list_byte_of_string "7.25" ++ [x00])
         | _ => Ok []
         end;
       took := 300000 |}.

(** The text goes on with a separator and a digit, which the expression
    would take into the match. *)
Definition startsWithFraction (s : string) : bool :=
  match s with
  | String c r => ConductivityIO.isSep c && startsWithDigit r
  | EmptyString => false
  end.

(** The four markers [isTransientI2C] looks for. *)
Definition transientMarkers : list string :=
  [ "remote i/o error"; "input/output error"; "eremoteio"; "eio" ]%string.


(** A poll of the conversion that ran from [w] to [w'] saw the OS bit:
    one of the reads of the configuration register in the log made since
    [w] was answered with the bit set. *)
Definition sawReady (c : Ads1115.tdsChannel) (w w' : World) : Prop :=
  exists k data,
    (List.length (issued w) <= k)%nat
    /\ nth_error (issued w') k
       = Some (OpReadFromReg (Ads1115.address c) Ads1115.regConfig 2)
    /\ outcome (device w k (OpReadFromReg (Ads1115.address c) Ads1115.regConfig 2))
       = Ok data
    /\ Z.land (Ads1115.be16 (nth 0 data x00) (nth 1 data x00))
              Ads1115.configOsSingle <> 0%Z.

(** * Comparisons of rationals *)

Lemma ltb_true (x y : float64) : F64.ltb x y = true <-> x < y.
Proof.
  unfold F64.ltb. rewrite negb_true_iff, <- not_true_iff_false, Qle_bool_iff.
  split; intro H; [apply Qnot_le_lt | apply Qlt_not_le]; exact H.
Qed.

Lemma ltb_false (x y : float64) : F64.ltb x y = false <-> y <= x.
Proof. unfold F64.ltb. rewrite negb_false_iff. apply Qle_bool_iff. Qed.

Lemma leb_true (x y : float64) : F64.leb x y = true <-> x <= y.
Proof. apply Qle_bool_iff. Qed.

Lemma leb_false (x y : float64) : F64.leb x y = false <-> y < x.
Proof.
  unfold F64.leb. rewrite <- not_true_iff_false, Qle_bool_iff.
  split; intro H; [apply Qnot_le_lt | apply Qlt_not_le]; exact H.
Qed.

Lemma eqb_true (x y : float64) : F64.eqb x y = true <-> x == y.
Proof. apply Qeq_bool_iff. Qed.

Lemma eqb_false (x y : float64) : F64.eqb x y = false <-> ~ x == y.
Proof. unfold F64.eqb. rewrite <- not_true_iff_false, Qeq_bool_iff. tauto. Qed.

Lemma neb_true (x y : float64) : F64.neb x y = true <-> ~ x == y.
Proof. unfold F64.neb. rewrite negb_true_iff. apply eqb_false. Qed.

Lemma neb_false (x y : float64) : F64.neb x y = false <-> x == y.
Proof. unfold F64.neb. rewrite negb_false_iff. apply eqb_true. Qed.

(** Splits on a comparison and turns the outcome into an (in)equality. *)
Ltac f64_case b :=
  let E := fresh "E" in
  destruct b eqn:E;
  [ first [ apply ltb_true in E | apply leb_true in E
          | apply eqb_true in E | apply neb_true in E ]
  | first [ apply ltb_false in E | apply leb_false in E
          | apply eqb_false in E | apply neb_false in E ] ].

Lemma abs_small_of_eq (x1 x2 : float64) :
  x1 == x2 -> F64.ltb (F64.abs (x2 - x1)) 1e-9 = true.
Proof.
  intro H. apply ltb_true. unfold F64.abs.
  assert (E : x2 - x1 == 0) by lra.
  rewrite E. reflexivity.
Qed.

Lemma abs_large_nonzero (x1 x2 : float64) :
  F64.ltb (F64.abs (x2 - x1)) 1e-9 = false -> ~ x2 - x1 == 0.
Proof.
  intros H E. apply ltb_false in H. unfold F64.abs in H.
  rewrite E in H. revert H. apply Qlt_not_le. reflexivity.
Qed.

(** * Robo-Tank pH: calibration *)

Section RobotankPHFacts.
Import RobotankPH.


Lemma clampPH_inside (v lo hi : float64) :
  lo <= v <= hi -> clampPH v lo hi = (v, false).
Proof.
  intro H. unfold clampPH.
  f64_case (F64.ltb v lo); [lra|].
  f64_case (F64.ltb hi v); [lra|]. reflexivity.
Qed.

(** The flag of [clampPH] is raised exactly when the value was moved. *)
Lemma clampPH_flag (v lo hi : float64) :
  snd (clampPH v lo hi) = true <-> (v < lo \/ hi < v).
Proof.
  unfold clampPH.
  f64_case (F64.ltb v lo); simpl; [tauto|].
  f64_case (F64.ltb hi v); simpl; [tauto|].
  split; [discriminate | intros [H | H]; lra].
Qed.


(** Against a threshold inside [-1, 15) the safety clamp on the raw
    reading does not change the outcome of the comparison. *)
Lemma leb_clampRaw (raw m : float64) :
  -1 <= m -> m < 15 -> F64.leb (clampRaw raw) m = F64.leb raw m.
Proof.
  intros Hlo Hhi. unfold clampRaw.
  f64_case (F64.ltb raw (-1)).
  - f64_case (F64.ltb 15 (-1)); [lra|].
    f64_case (F64.leb raw m); [apply leb_true; lra | lra].
  - f64_case (F64.ltb 15 raw); [|reflexivity].
    f64_case (F64.leb raw m); [lra | apply leb_false; lra].
Qed.

(** The anchors come out in the order 4, 7, 10: the list is built in that
    order and sorting leaves it alone. *)
Lemma enabledAnchors_cases (d : Driver) :
  enabledAnchors d =
    (if F64.neb (obs4 d) (-1)
     then [{| truePH := truePH4; obsPH := obs4 d |}] else [])
    ++ (if F64.neb (obs7 d) (-1)
        then [{| truePH := truePH7; obsPH := obs7 d |}] else [])
    ++ (if F64.neb (obs10 d) (-1)
        then [{| truePH := truePH10; obsPH := obs10 d |}] else []).
Proof.
  unfold enabledAnchors.
  destruct (F64.neb (obs4 d) (-1)), (F64.neb (obs7 d) (-1)),
    (F64.neb (obs10 d) (-1)); reflexivity.
Qed.

Lemma enabledAnchors_truePH (d : Driver) (a : anchor) :
  In a (enabledAnchors d) -> 4 <= truePH a <= 10.
Proof.
  rewrite enabledAnchors_cases.
  destruct (F64.neb (obs4 d) (-1)), (F64.neb (obs7 d) (-1)),
    (F64.neb (obs10 d) (-1)); simpl; intro H;
    repeat (destruct H as [H | H]; [subst a; simpl; split; discriminate|]);
    destruct H.
Qed.

(** Away from the degenerate case [linearMapDbg] is the line through the
    two anchors. *)
Lemma linearMapDbg_line (x x1 x2 y1 y2 : float64) :
  F64.ltb (F64.abs (x2 - x1)) 1e-9 = false ->
  y (linearMapDbg x x1 x2 y1 y2) = lineThrough x1 y1 x2 y2 x.
Proof. intro H. unfold linearMapDbg. rewrite H. reflexivity. Qed.


Lemma applyCalibration_no_anchors (d : Driver) (raw : float64) :
  enabledAnchors d = [] -> applyCalibration d raw = clampRaw raw.
Proof. intro H. unfold applyCalibration. rewrite H. reflexivity. Qed.


End RobotankPHFacts.

Section RobotankPHClaims.
Import RobotankPH.

(** C6.  Two-point calibration whose anchors have equal observed values
    ([x1 == x2]): the guard of [linearMapDbg] holds, so the function returns
    before its division; the result is the lower true value [y1], with the
    zero denominator and [t = 0] recorded in the debug record; and the
    2-point branch of [applyCalibration] returns [y1] for any input. *)
Theorem C6_equal_anchors_return_lower_true_value (x x1 x2 y1 y2 : float64) :
  x1 == x2 ->
  F64.ltb (F64.abs (x2 - x1)) 1e-9 = true
  /\ linearMapDbg x x1 x2 y1 y2 = {| den := x2 - x1; t := 0; y := y1 |}
  /\ den (linearMapDbg x x1 x2 y1 y2) == 0
  /\ (forall d : Driver,
        enabledAnchors d = [ {| truePH := y1; obsPH := x1 |};
                             {| truePH := y2; obsPH := x2 |} ] ->
        applyCalibration d x = y1).
Proof.
  intro Heq.
  pose proof (abs_small_of_eq x1 x2 Heq) as Hguard.
  assert (Hmap : forall x', linearMapDbg x' x1 x2 y1 y2
                            = {| den := x2 - x1; t := 0; y := y1 |}).
  { intro x'. unfold linearMapDbg. rewrite Hguard. reflexivity. }
  repeat split.
  - exact Hguard.
  - apply Hmap.
  - rewrite Hmap. simpl. lra.
  - intros d Hd. unfold applyCalibration. rewrite Hd. simpl.
    rewrite Hmap. simpl.
    assert (Hin : In {| truePH := y1; obsPH := x1 |} (enabledAnchors d))
      by (rewrite Hd; left; reflexivity).
    apply enabledAnchors_truePH in Hin. simpl in Hin.
    rewrite clampPH_inside by lra. reflexivity.
Qed.

Lemma C6_witness :
  6.5 == 6.5 /\ applyCalibration phEqualAnchors 3 = 4.
Proof.
  split; [reflexivity|].
  destruct (C6_equal_anchors_return_lower_true_value 3 6.5 6.5 4 7)
    as (_ & _ & _ & H); [reflexivity|].
  apply H. reflexivity.
Defined.

(** Whenever [linearMapDbg] does divide, the denominator is not zero. *)
Lemma linearMapDbg_divides_by_nonzero (x1 x2 : float64) :
  F64.ltb (F64.abs (x2 - x1)) 1e-9 = false -> ~ x2 - x1 == 0.
Proof. apply abs_large_nonzero. Qed.

(** C1, as stated, fails: with the anchors observed at 4, 7 and 9 the
    reading 14 lies above the middle anchor, the line through (7, 7) and
    (9, 10) gives 17.5 there, and the driver returns 14. *)
Lemma C1_counterexample :
  enabledAnchors phCompressed
    = [ {| truePH := 4; obsPH := 4 |}; {| truePH := 7; obsPH := 7 |};
        {| truePH := 10; obsPH := 9 |} ]
  /\ piecewiseSpec phCompressed 14 == 17.5
  /\ applyCalibration phCompressed 14 == 14
  /\ ~ applyCalibration phCompressed 14 == piecewiseSpec phCompressed 14.
Proof.
  repeat split; try reflexivity.
  intro H. vm_compute in H. discriminate H.
Qed.

(** C1, amended.  With the three anchors enabled and the middle anchor
    observed inside [-1, 15) (as every validated configuration has it),
    the segment is chosen by comparing the input [x] with the observed
    value of the middle anchor alone: at or below it the output comes from
    the map through (obs4, 4) and (obs7, 7), above it from the map through
    (obs7, 7) and (obs10, 10).  The map is evaluated at the input clamped
    to [-1, 15] and its value is clamped to [0, 14]; when neither pair of
    anchors is degenerate this is the specification's piecewise line,
    with the two clamps around it. *)
Theorem C1_segment_chosen_by_middle_anchor (d : Driver) (x : float64) :
  F64.neb (obs4 d) (-1) = true ->
  F64.neb (obs7 d) (-1) = true ->
  F64.neb (obs10 d) (-1) = true ->
  -1 <= obs7 d -> obs7 d < 15 ->
  applyCalibration d x
    = fst (clampPH
             (y (if F64.leb x (obs7 d)
                 then linearMapDbg (clampRaw x) (obs4 d) (obs7 d) truePH4 truePH7
                 else linearMapDbg (clampRaw x) (obs7 d) (obs10 d) truePH7 truePH10))
             0 14)
  /\ (F64.ltb (F64.abs (obs7 d - obs4 d)) 1e-9 = false ->
      F64.ltb (F64.abs (obs10 d - obs7 d)) 1e-9 = false ->
      applyCalibration d x
        = fst (clampPH (piecewiseSpec d (clampRaw x)) 0 14)).
Proof.
  intros H4 H7 H10 Hlo Hhi.
  assert (Hcal : applyCalibration d x
    = fst (clampPH
             (y (if F64.leb x (obs7 d)
                 then linearMapDbg (clampRaw x) (obs4 d) (obs7 d) truePH4 truePH7
                 else linearMapDbg (clampRaw x) (obs7 d) (obs10 d) truePH7 truePH10))
             0 14)).
  { unfold applyCalibration. rewrite enabledAnchors_cases, H4, H7, H10.
    simpl. rewrite (leb_clampRaw x (obs7 d) Hlo Hhi). reflexivity. }
  split; [exact Hcal|].
  intros Hd1 Hd2. rewrite Hcal. unfold piecewiseSpec.
  rewrite (leb_clampRaw x (obs7 d) Hlo Hhi).
  destruct (F64.leb x (obs7 d)); rewrite linearMapDbg_line by assumption;
    reflexivity.
Qed.

Lemma C1_witness :
  applyCalibration phCompressed 8
    = fst (clampPH (piecewiseSpec phCompressed (clampRaw 8)) 0 14).
Proof.
  apply (C1_segment_chosen_by_middle_anchor phCompressed 8);
    solve [reflexivity | discriminate].
Defined.

End RobotankPHClaims.


(** * Robo-Tank conductivity *)

Section ConductivityClaims.
Import Conductivity.




End ConductivityClaims.


(** * Temperature state and compensation *)

Section TemperatureClaims.

Lemma tempCompToRef_invalid (d : Conductivity.RoboTankConductivity)
  (now : Z) (us : float64) :
  Conductivity.tempValid d = false ->
  Conductivity.tempCompToRef d now us = (us, d).
Proof. intro H. unfold Conductivity.tempCompToRef. rewrite H. reflexivity. Qed.

Lemma tempCompToRef_stale (d : Conductivity.RoboTankConductivity)
  (now n : Z) (us : float64) :
  Conductivity.tempUpdatedAt d = Some n ->
  (Conductivity.tempStaleAfter < now - n)%Z ->
  let r := Conductivity.tempCompToRef d now us in
  fst r = us
  /\ Conductivity.tempValid (snd r) = false
  /\ (Conductivity.tempValid d = true ->
      Conductivity.tempC (snd r) = Conductivity.refTempC d).
Proof.
  intros Hn Hage. unfold Conductivity.tempCompToRef.
  destruct (Conductivity.tempValid d) eqn:Hv; simpl.
  - rewrite Hn. apply Z.ltb_lt in Hage. rewrite Hage. simpl.
    repeat split; reflexivity.
  - repeat split; [assumption | discriminate].
Qed.

(** What a normalisation request does to the state: nothing, or the
    downgrade. *)
Lemma tempCompToRef_state (d : Conductivity.RoboTankConductivity)
  (now : Z) (us : float64) :
  snd (Conductivity.tempCompToRef d now us) = d
  \/ snd (Conductivity.tempCompToRef d now us)
     = Conductivity.setTemp d (Conductivity.tempUpdatedAt d) false
         (Conductivity.refTempC d).
Proof.
  unfold Conductivity.tempCompToRef.
  destruct (Conductivity.tempValid d); simpl; [|left; reflexivity].
  destruct (Conductivity.tempUpdatedAt d) as [n|]; [|right; reflexivity].
  destruct (Conductivity.tempStaleAfter <? now - n)%Z;
    [right | left]; reflexivity.
Qed.

Lemma tempInv_after (d0 : Conductivity.RoboTankConductivity) (h : list tempOp) :
  Conductivity.tempValid d0 = false ->
  Conductivity.tempUpdatedAt d0 = None ->
  tempInv d0 (after d0 h) h.
Proof.
  intros Hv Hu. induction h as [|o h IH].
  - simpl. split; [reflexivity | split; assumption].
  - destruct IH as [Href IH]. destruct o as [now c | now us]; simpl.
    + unfold tempInv, Conductivity.SetTemperatureC. simpl.
      f64_case (F64.ltb c 0); simpl.
      * repeat split; try assumption; try reflexivity; discriminate.
      * repeat split; try assumption; try reflexivity; lra.
    + unfold tempInv. simpl.
      destruct (tempCompToRef_state (after d0 h) now us) as [E | E];
        rewrite E; [split; assumption|].
      simpl. split; [assumption|].
      destruct (lastInjection h) as [[n c]|].
      * destruct IH as (Hn & _ & _).
        repeat split; try assumption; try reflexivity; discriminate.
      * destruct IH as (_ & Hn). split; [reflexivity | assumption].
Qed.







(** C5, as stated, fails: the AliExpress pH driver has no validity flag.
    Injecting the sentinel -1 stores -1, not the reference temperature,
    and with compensation enabled the slope is then scaled with it. *)
Lemma C5_counterexample :
  let d := AliExpressPH.SetTemperatureC (phFactory true) 0 (-1) in
  AliExpressPH.tempC d == -1
  /\ ~ AliExpressPH.tempC d == AliExpressPH.refTempC d
  /\ snd (fst (AliExpressPH.slopeAtTemp d (AliExpressPH.slope25C d))) = true
  /\ ~ fst (fst (AliExpressPH.slopeAtTemp d (AliExpressPH.slope25C d)))
        == AliExpressPH.slope25C d.
Proof.
  repeat split; try reflexivity; intro H; vm_compute in H; discriminate H.
Qed.

(** C5, amended.  In the Robo-Tank conductivity driver, started with an
    invalid temperature that was never updated, after any sequence of
    injections and normalisation requests: the temperature is invalid if no
    injection occurred; it is invalid, and the stored temperature is the
    reference temperature, if the most recent injection passed a negative
    value; it is invalid if, at the time of the latest of these operations,
    the last injection was more than two minutes old (the normalisation
    request that finds it so returns its input unchanged and downgrades the
    state); an invalid temperature makes compensation a no-op; and a valid
    one is the value of the most recent injection, which was not
    negative. *)
Theorem C5_conductivity_temperature_state
  (d0 : Conductivity.RoboTankConductivity) (h : list tempOp) :
  Conductivity.tempValid d0 = false ->
  Conductivity.tempUpdatedAt d0 = None ->
  let d := after d0 h in
  (lastInjection h = None -> Conductivity.tempValid d = false)
  /\ (forall n c,
        lastInjection h = Some (n, c) -> c < 0 ->
        Conductivity.tempValid d = false
        /\ Conductivity.tempC d = Conductivity.refTempC d)
  /\ (forall now us h' n c,
        h = Normalise now us :: h' ->
        lastInjection h' = Some (n, c) ->
        (Conductivity.tempStaleAfter < now - n)%Z ->
        Conductivity.tempValid d = false
        /\ fst (Conductivity.tempCompToRef (after d0 h') now us) = us)
  /\ (forall o h' n c,
        h = o :: h' ->
        lastInjection h = Some (n, c) ->
        (Conductivity.tempStaleAfter < opTime o - n)%Z ->
        Conductivity.tempValid d = false)
  /\ (Conductivity.tempValid d = false ->
      forall now us, Conductivity.tempCompToRef d now us = (us, d))
  /\ (Conductivity.tempValid d = true ->
      exists n c,
        lastInjection h = Some (n, c) /\ 0 <= c
        /\ Conductivity.tempC d = c
        /\ Conductivity.tempUpdatedAt d = Some n).
Proof.
  intros Hv Hu d.
  destruct (tempInv_after d0 h Hv Hu) as [_ Hinv]. fold d in Hinv.
  assert (Hstale : forall now us h' n c,
             h = Normalise now us :: h' ->
             lastInjection h' = Some (n, c) ->
             (Conductivity.tempStaleAfter < now - n)%Z ->
             Conductivity.tempValid d = false
             /\ fst (Conductivity.tempCompToRef (after d0 h') now us) = us).
  { intros now us h' n c Hh Hl Hage. subst h d. simpl.
    destruct (tempInv_after d0 h' Hv Hu) as [_ Hinv'].
    rewrite Hl in Hinv'. destruct Hinv' as (Hn & _).
    destruct (tempCompToRef_stale (after d0 h') now n us Hn Hage)
      as (H1 & H2 & _).
    split; assumption. }
  split; [|split; [|split; [|split; [|split]]]].
  - intro Hl. rewrite Hl in Hinv. apply Hinv.
  - intros n c Hl Hc. rewrite Hl in Hinv. apply Hinv. exact Hc.
  - exact Hstale.
  - intros o h' n c Hh Hl Hage. destruct o as [now c' | now us].
    + subst h. simpl in Hl, Hage. injection Hl as <- <-.
      exfalso. unfold Conductivity.tempStaleAfter, Minute, Second in Hage. lia.
    + subst h. simpl in Hl, Hage.
      apply (Hstale now us h' n c eq_refl Hl Hage).
  - intros Hd now us. apply tempCompToRef_invalid. exact Hd.
  - intro Hd. destruct (lastInjection h) as [[n c]|].
    + destruct Hinv as (Hn & _ & Hc). destruct (Hc Hd) as [Ht Hc0].
      exists n, c. repeat split; assumption.
    + destruct Hinv as [Hf _]. congruence.
Qed.

Lemma C5_witness :
  Conductivity.tempValid
    (after condScenario [Normalise (3 * Minute) 53000; Inject 0 30]) = false.
Proof.
  destruct (C5_conductivity_temperature_state condScenario
              [Normalise (3 * Minute) 53000; Inject 0 30] eq_refl eq_refl)
    as (_ & _ & H & _).
  destruct (H (3 * Minute)%Z 53000 [Inject 0 30] 0%Z 30 eq_refl eq_refl)
    as [Hv _]; [reflexivity | exact Hv].
Defined.

End TemperatureClaims.


(** * The ADC sample decoder *)

Section DecoderClaims.
Import Adc.

(** Evaluates the powers of two with a literal exponent. *)
Ltac eval_pow2 :=
  repeat match goal with
         | |- context [(2 ^ Zpos ?n)%Z] =>
             let c := eval vm_compute in (2 ^ Zpos n)%Z in
             change (2 ^ Zpos n)%Z with c
         end.

Lemma byteZ_range (b : Byte.byte) : (0 <= byteZ b < 256)%Z.
Proof.
  unfold byteZ. pose proof (Byte.to_N_bounded b) as H.
  split; [apply N2Z.is_nonneg|]. lia.
Qed.

(** Bits that do not overlap add up. *)
Lemma lor_shifted (hi lo k : Z) :
  (0 <= k)%Z -> (0 <= lo < 2 ^ k)%Z ->
  Z.lor (hi * 2 ^ k) lo = (hi * 2 ^ k + lo)%Z.
Proof.
  intros Hk Hlo.
  rewrite <- (Z.add_lor_land (hi * 2 ^ k) lo).
  assert (E : Z.land (hi * 2 ^ k) lo = 0%Z).
  { apply Z.bits_inj'. intros n Hn.
    rewrite Z.land_spec, Z.bits_0, <- Z.shiftl_mul_pow2 by exact Hk.
    destruct (Z_lt_le_dec n k) as [Hlt | Hge].
    - rewrite Z.shiftl_spec_low by exact Hlt. reflexivity.
    - assert (Hb : Z.testbit lo n = false).
      { destruct (Z.eq_dec lo 0) as [E0 | Hne].
        - rewrite E0. apply Z.bits_0.
        - apply Z.bits_above_log2; [lia|].
          assert (Z.log2 lo < k)%Z by (apply Z.log2_lt_pow2; lia). lia. }
      rewrite Hb. apply andb_false_r. }
  rewrite E. ring.
Qed.

Lemma word_of_bytes (a b c : Z) :
  (0 <= a < 256)%Z -> (0 <= b < 256)%Z -> (0 <= c < 256)%Z ->
  Z.lor (Z.lor (Z.shiftl a 24) (Z.shiftl b 16)) (Z.shiftl c 8)
  = (a * 2 ^ 24 + b * 2 ^ 16 + c * 2 ^ 8)%Z.
Proof.
  intros Ha Hb Hc. rewrite !Z.shiftl_mul_pow2 by lia.
  rewrite (lor_shifted a (b * 2 ^ 16) 24) by lia.
  replace (a * 2 ^ 24 + b * 2 ^ 16)%Z with ((a * 2 ^ 8 + b) * 2 ^ 16)%Z by ring.
  rewrite (lor_shifted (a * 2 ^ 8 + b) (c * 2 ^ 8) 16) by lia.
  reflexivity.
Qed.

Lemma quarter_of_word (a b c : Z) :
  (0 <= a < 256)%Z -> (0 <= b < 256)%Z -> (0 <= c < 256)%Z ->
  (((a * 2 ^ 24 + b * 2 ^ 16 + c * 2 ^ 8) / 2 ^ 2) mod 2 ^ 30
   = a * 2 ^ 22 + b * 2 ^ 14 + c * 2 ^ 6)%Z.
Proof.
  intros Ha Hb Hc.
  replace (a * 2 ^ 24 + b * 2 ^ 16 + c * 2 ^ 8)%Z
    with ((a * 2 ^ 22 + b * 2 ^ 14 + c * 2 ^ 6) * 2 ^ 2)%Z by ring.
  rewrite Z.div_mul by (eval_pow2; lia).
  apply Z.mod_small. eval_pow2. lia.
Qed.

Lemma adcI2C24ToCode_value (b0 b1 b2 : Byte.byte) :
  adcI2C24ToCode [b0; b1; b2]
  = Some (byteZ b0 * 2 ^ 22 + byteZ b1 * 2 ^ 14 + byteZ b2 * 2 ^ 6)%Z.
Proof.
  pose proof (byteZ_range b0) as H0. pose proof (byteZ_range b1) as H1.
  pose proof (byteZ_range b2) as H2.
  unfold adcI2C24ToCode, uint32, int32. f_equal.
  rewrite !(Z.mod_small (byteZ _) (2 ^ 32)) by lia.
  rewrite !(Z.mod_small (Z.shiftl (byteZ _) _) (2 ^ 32))
    by (rewrite Z.shiftl_mul_pow2; lia).
  rewrite word_of_bytes by assumption.
  rewrite Z.shiftr_div_pow2 by lia.
  change 0x3FFFFFFF%Z with (Z.ones 30). rewrite Z.land_ones by lia.
  rewrite quarter_of_word by assumption.
  rewrite Z.mod_small by (eval_pow2; lia). ring.
Qed.



End DecoderClaims.

(** * Acquisition from the ADC module: cache and bus traffic *)

Section AcquisitionClaims.
Import Adc.




Lemma enforceMinGap_issued (d : Core) (g : Z) (w : World) :
  issued (enforceMinGap d g w) = issued w.
Proof.
  unfold enforceMinGap. destruct (lastXferAt d); [|reflexivity].
  destruct (_ <? _)%Z; reflexivity.
Qed.







(** C10.  The ORP driver's [SetTemperatureC] returns the driver as it
    was, so injecting a temperature changes no later reading, and a
    successful [Value] or [Snapshot] reports the observed millivolts plus
    the configured offset, the offset being the one configured before the
    acquisition. *)
Theorem C10_orp_ignores_temperature
  (d : AliExpressORP.AliExpressORP) (tempC : float64) (w : World) :
  AliExpressORP.SetTemperatureC d tempC = d
  /\ AliExpressORP.Value (AliExpressORP.SetTemperatureC d tempC) w
     = AliExpressORP.Value d w
  /\ AliExpressORP.Snapshot (AliExpressORP.SetTemperatureC d tempC) w
     = AliExpressORP.Snapshot d w
  /\ (forall o d' w',
        AliExpressORP.readObservedMV d w = (o, d', w') ->
        err o = None ->
        AliExpressORP.Value d w = (Ok (mv o + AliExpressORP.offset d), d', w')
        /\ AliExpressORP.Measure d w
           = (Ok (mv o + AliExpressORP.offset d), d', w')
        /\ exists s,
             AliExpressORP.Snapshot d w = (Ok s, d', w')
             /\ SnapValue s = mv o + AliExpressORP.offset d).
Proof.
  split; [reflexivity|]. split; [reflexivity|]. split; [reflexivity|].
  intros o d' w' Hread Hok.
  assert (Hoff : AliExpressORP.offset d' = AliExpressORP.offset d).
  { unfold AliExpressORP.readObservedMV in Hread.
    destruct (readObservedMV (AliExpressORP.core d) w) as [[o1 c1] w1].
    inversion Hread; subst. reflexivity. }
  unfold AliExpressORP.Measure, AliExpressORP.Value, AliExpressORP.Snapshot.
  rewrite Hread, Hok, Hoff.
  split; [reflexivity|]. split; [reflexivity|].
  eexists. split; reflexivity.
Qed.

Lemma C10_witness :
  let w0 := worldAt 0 (answering [x82; x00; x00]) in
  let r := AliExpressORP.readObservedMV orpSample w0 in
  err (fst (fst r)) = None
  /\ AliExpressORP.Value orpSample w0
     = (Ok (mv (fst (fst r)) + 12.5), snd (fst r), snd r).
Proof.
  intros w0 r. split; [reflexivity|].
  destruct (C10_orp_ignores_temperature orpSample 30 w0) as (_ & _ & _ & H).
  destruct (H (fst (fst r)) (snd (fst r)) (snd r)) as [Hv _];
    [reflexivity | reflexivity | exact Hv].
Defined.

(** The end-to-end scenario of the cache: a [Value] request and a
    [Snapshot] request 2.3 ms later on the AliExpress pH driver report
    from the same sample, and the bus has seen one transfer. *)
Lemma read_then_snapshot_one_transfer :
  let w0 := worldAt 0 (answering [x82; x00; x00]) in
  let '(r1, d1, w1) := AliExpressPH.Value (phFactory false) w0 in
  let '(r2, d2, w2) := AliExpressPH.Snapshot d1 w1 in
  issued w1 = [OpReadBytes 0x24 3]
  /\ issued w2 = [OpReadBytes 0x24 3]
  /\ d2 = d1
  /\ exists v s notes,
       r1 = Ok v /\ r2 = Ok (s, notes) /\ SnapValue s == v.
Proof.
  vm_compute. repeat split. do 3 eexists.
  split; [reflexivity|]. split; reflexivity.
Qed.

End AcquisitionClaims.

(** * The range of the reported pH *)

Section RangeClaims.


(** The AliExpress pH driver's [Snapshot] reports the pH without the
    clamp of [Value]: on the sample 00 00 00 (-2500 mV) the factory
    configuration reports more than 14 from [Snapshot] and 14 from
    [Value]. *)
Lemma aliexpress_Snapshot_not_clamped :
  let w0 := worldAt 0 (answering [x00; x00; x00]) in
  (exists s notes d' w',
      AliExpressPH.Snapshot (phFactory false) w0 = (Ok (s, notes), d', w')
      /\ 14 < SnapValue s)
  /\ fst (fst (AliExpressPH.Value (phFactory false) w0)) = Ok 14.
Proof.
  split; [|reflexivity].
  do 4 eexists. split; [vm_compute; reflexivity | reflexivity].
Qed.
















End RangeClaims.


(** * ADS1115: conversion-ready polling *)

Section PollingClaims.
Import Ads1115.

Lemma ReadFromReg2_spec (a r : Z) (w : World) res w1 :
  ReadFromReg2 a r w = (res, w1) ->
  issued w1 = issued w ++ [OpReadFromReg a r 2]
  /\ device w1 = device w
  /\ (now w <= now w1)%Z
  /\ match res with
     | Ok (c0, c1) =>
         exists data,
           outcome (device w (List.length (issued w)) (OpReadFromReg a r 2))
           = Ok data
           /\ c0 = nth 0 data x00 /\ c1 = nth 1 data x00
     | Fail e =>
         outcome (device w (List.length (issued w)) (OpReadFromReg a r 2))
         = Fail e
     end.
Proof.
  unfold ReadFromReg2, busCall. intro H.
  destruct (outcome _) as [data | e] eqn:Ho; inversion H; subst; clear H; simpl;
    (split; [reflexivity|]); (split; [reflexivity|]); (split; [lia|]).
  - exists data. repeat split; reflexivity.
  - reflexivity.
Qed.

(** Polling a device that never shows the OS bit: the loop only reads the
    configuration register, at least once, and ends past the deadline or
    on a bus failure, never with the bit seen set. *)
Lemma pollOS_never_ready (addr deadline polls : Z) (w : World) :
  neverReady addr w ->
  exists n,
    issued (snd (pollOS addr deadline polls w))
    = issued w ++ repeat (OpReadFromReg addr regConfig 2) (S n)
    /\ device (snd (pollOS addr deadline polls w)) = device w
    /\ match fst (pollOS addr deadline polls w) with
       | Ready _ _ => False
       | TimedOut cfg _ =>
           (deadline < now (snd (pollOS addr deadline polls w)))%Z
           /\ Z.land cfg configOsSingle = 0%Z
       | BusFailed e =>
           exists k,
             outcome (device w k (OpReadFromReg addr regConfig 2)) = Fail e
       end.
Proof.
  unfold neverReady.
  funelim (pollOS addr deadline polls w); intros Hnr;
    match goal with
    | E : ReadFromReg2 _ _ _ = _ |- _ =>
        destruct (ReadFromReg2_spec _ _ _ _ _ E) as (Hiss & Hdev & Htime & Hres)
    end.
  - exists O. simpl. repeat split; [exact Hiss | exact Hdev |].
    eexists. exact Hres.
  - exfalso. destruct Hres as (data & Ho & -> & ->).
    specialize (Hnr _ _ Ho).
    match goal with
    | E : negb _ = true |- _ =>
        pose proof E as E'; rewrite Hnr in E'; discriminate E'
    end.
  - exists O. simpl. destruct Hres as (data & Ho & -> & ->).
    repeat split; [exact Hiss | exact Hdev | | exact (Hnr _ _ Ho)].
    match goal with E : (_ <? _)%Z = true |- _ => apply Z.ltb_lt; exact E end.
  - match goal with
    | IH : _ -> exists _, _ |- _ => destruct IH as (n & Hn & Hdev' & Hm)
    end.
    + intros k data. simpl. rewrite Hdev. apply Hnr.
    + exists (S n). simpl in Hn, Hdev', Hm. rewrite Hn, Hiss, <- app_assoc.
      repeat split.
      * rewrite Hdev'. exact Hdev.
      * destruct (fst _); try exact Hm.
        destruct Hm as [k Hk]. rewrite Hdev in Hk. exists k. exact Hk.
Qed.

(** Waiting for a device that never shows the OS bit ends in an error,
    the timeout unless the bus failed, after reads of the configuration
    register only. *)
Lemma awaitAndRead_never_ready (c : tdsChannel) (w : World) :
  neverReady (address c) w ->
  exists e n w',
    awaitAndRead c w = (0%Z, Some e, w')
    /\ issued w' = issued w ++ repeat (OpReadFromReg (address c) regConfig 2) (S n)
    /\ ((exists cfg, e = timeoutErr cfg /\ Z.land cfg configOsSingle = 0%Z
                     /\ (now w + convTimeout < now w')%Z)
        \/ (exists e0 k,
              e = wrapErr "ads1115: read config: " e0
              /\ outcome (device w k (OpReadFromReg (address c) regConfig 2))
                 = Fail e0)).
Proof.
  intro Hnr. unfold awaitAndRead.
  destruct (pollOS_never_ready (address c) (now w + convTimeout) 0 w Hnr)
    as (n & Hn & _ & Hm).
  destruct (pollOS (address c) (now w + convTimeout) 0 w) as [[cfg p | cfg p | e] w'];
    simpl in *.
  - contradiction.
  - destruct Hm as [Ht Hc]. exists (timeoutErr cfg), n, w'.
    repeat split; [exact Hn|]. left. exists cfg. repeat split; assumption.
  - destruct Hm as [k Hk]. exists (wrapErr "ads1115: read config: " e), n, w'.
    repeat split; [exact Hn|]. right. exists e, k. split; [reflexivity | exact Hk].
Qed.

Lemma writeConfig_spec (c : tdsChannel) (w : World) r w1 :
  writeConfig c w = (r, w1) ->
  issued w1 = issued w ++ [OpWriteToReg (address c) regConfig
                             [byteOfZ (Z.shiftr (configWord c) 8);
                              byteOfZ (configWord c)]]
  /\ device w1 = device w
  /\ (now w <= now w1)%Z
  /\ (busNeverFails w -> r = None).
Proof.
  unfold writeConfig, WriteToReg, busCall. intro H.
  destruct (outcome _) as [data | e] eqn:Ho; inversion H; subst; clear H; simpl;
    (split; [reflexivity|]); (split; [reflexivity|]); (split; [lia|]).
  - reflexivity.
  - intro Hb. destruct (Hb (List.length (issued w))
                          (OpWriteToReg (address c) regConfig
                             [byteOfZ (Z.shiftr (configWord c) 8);
                              byteOfZ (configWord c)])) as [data Hd].
    congruence.
Qed.

Lemma neverReady_device (addr : Z) (w w1 : World) :
  device w1 = device w -> neverReady addr w -> neverReady addr w1.
Proof. unfold neverReady. intros E H k data. rewrite E. apply H. Qed.

Lemma polls_only_not_conversion (c : tdsChannel) (n : nat) :
  ~ In (OpReadFromReg (address c) regConversion 2) (startThenPoll c n).
Proof.
  unfold startThenPoll. intros [H | H]; [discriminate H|].
  apply repeat_spec in H. discriminate H.
Qed.

(** A conversion against a device that never shows the OS bit, with
    whatever pause the driver makes between the write and the polling. *)
Lemma conversion_never_ready (c : tdsChannel) (w : World) (pause : World -> World) :
  (forall v, issued (pause v) = issued v /\ device (pause v) = device v
             /\ (now v <= now (pause v))%Z) ->
  neverReady (address c) w ->
  let r := match writeConfig c w with
           | (Some e, w1) => (0%Z, Some (wrapErr "ads1115: write config: " e), w1)
           | (None, w1) => awaitAndRead c (pause w1)
           end in
  (exists e w' n,
      r = (0%Z, Some e, w') /\ issued w' = issued w ++ startThenPoll c n)
  /\ (busNeverFails w ->
      exists cfg w' n,
        r = (0%Z, Some (timeoutErr cfg), w')
        /\ Z.land cfg configOsSingle = 0%Z
        /\ issued w' = issued w ++ startThenPoll c (S n)
        /\ (now w + convTimeout < now w')%Z).
Proof.
  intros Hp Hnr r. subst r.
  destruct (writeConfig c w) as [we w1] eqn:Hw.
  destruct (writeConfig_spec c w we w1 Hw) as (Hi1 & Hd1 & Ht1 & Hok).
  destruct (Hp w1) as (Hi2 & Hd2 & Ht2).
  assert (Hnr2 : neverReady (address c) (pause w1)).
  { apply (neverReady_device _ w); [rewrite Hd2; exact Hd1 | exact Hnr]. }
  destruct (awaitAndRead_never_ready c (pause w1) Hnr2)
    as (e & n & w' & Hr & Hi3 & Hcase).
  assert (Hlog : issued w' = issued w ++ startThenPoll c (S n)).
  { rewrite Hi3, Hi2, Hi1, <- app_assoc. reflexivity. }
  split.
  - destruct we as [e0|].
    + exists (wrapErr "ads1115: write config: " e0), w1, O.
      split; [reflexivity | exact Hi1].
    + exists e, w', (S n). split; [exact Hr | exact Hlog].
  - intro Hb. rewrite (Hok Hb) in *.
    destruct Hcase as [(cfg & -> & Hc & Ht) | (e0 & k & _ & Hk)].
    + exists cfg, w', n. repeat split; try assumption. lia.
    + exfalso. destruct (Hb k (OpReadFromReg (address c) regConfig 2)) as [data Hd].
      rewrite Hd2, Hd1 in Hk. congruence.
Qed.

(** Against a device that never shows the OS bit at all, both variants of
    the conversion return 0 with an error and no reading, after the one
    write of the configuration register and reads of that same register
    only; unless the bus itself fails, the error is the conversion
    timeout, returned after more than the 50 ms have passed. *)
Lemma never_ready_device_times_out (c : tdsChannel) (w : World)
  (run : tdsChannel -> World -> Z * option error * World) :
  neverReady (address c) w ->
  run = performConversion \/ run = performConversionDebug ->
  (exists e w' n,
      run c w = (0%Z, Some e, w')
      /\ issued w' = issued w ++ startThenPoll c n
      /\ ~ In (OpReadFromReg (address c) regConversion 2) (startThenPoll c n))
  /\ (busNeverFails w ->
      exists cfg w' n,
        run c w = (0%Z, Some (timeoutErr cfg), w')
        /\ Z.land cfg configOsSingle = 0%Z
        /\ issued w' = issued w ++ startThenPoll c (S n)
        /\ (now w + convTimeout < now w')%Z).
Proof.
  intros Hnr Hrun.
  assert (H : (exists e w' n,
                  run c w = (0%Z, Some e, w')
                  /\ issued w' = issued w ++ startThenPoll c n)
              /\ (busNeverFails w ->
                  exists cfg w' n,
                    run c w = (0%Z, Some (timeoutErr cfg), w')
                    /\ Z.land cfg configOsSingle = 0%Z
                    /\ issued w' = issued w ++ startThenPoll c (S n)
                    /\ (now w + convTimeout < now w')%Z)).
  { destruct Hrun as [-> | ->].
    - apply (conversion_never_ready c w
               (fun v => if (0 <? delay c)%Z then Sleep (delay c) v else v));
        [|exact Hnr].
      intro v. destruct (0 <? delay c)%Z; simpl; repeat split; lia.
    - apply (conversion_never_ready c w (fun v => v)); [|exact Hnr].
      intro v. repeat split; lia. }
  destruct H as [(e & w' & n & Hr & Hi) Hb]. split; [|exact Hb].
  exists e, w', n. repeat split; [exact Hr | exact Hi |].
  apply polls_only_not_conversion.
Qed.

End PollingClaims.

(** * Robo-Tank pH: what the calibration does at and between the anchors *)

Section CalibrationShape.
Import RobotankPH.

Lemma tiny_pos : 0 < 1e-9.
Proof. reflexivity. Qed.

Lemma clampRaw_id (r : float64) : -1 <= r <= 15 -> clampRaw r = r.
Proof.
  intro H. unfold clampRaw.
  f64_case (F64.ltb r (-1)); [lra|].
  f64_case (F64.ltb 15 r); [lra|]. reflexivity.
Qed.

Lemma clampRaw_mono (r r' : float64) : r <= r' -> clampRaw r <= clampRaw r'.
Proof.
  intro H. unfold clampRaw.
  f64_case (F64.ltb r (-1)); f64_case (F64.ltb r' (-1));
    repeat match goal with
           | |- context [F64.ltb ?a ?b] => f64_case (F64.ltb a b)
           end; lra.
Qed.

Lemma clampPH_mono (v v' lo hi : float64) :
  lo <= hi -> v <= v' -> fst (clampPH v lo hi) <= fst (clampPH v' lo hi).
Proof.
  intros Hb H. unfold clampPH.
  repeat match goal with
         | |- context [F64.ltb ?a ?b] => f64_case (F64.ltb a b); simpl
         end; lra.
Qed.

Lemma clampPH_eq (v v' lo hi : float64) :
  v == v' -> lo <= v' <= hi -> fst (clampPH v lo hi) == v'.
Proof.
  intros E H. rewrite clampPH_inside by lra. exact E.
Qed.

Lemma guard_off_pos (x1 x2 : float64) :
  1e-9 <= x2 - x1 -> F64.ltb (F64.abs (x2 - x1)) 1e-9 = false.
Proof.
  intro H. apply ltb_false. unfold F64.abs.
  apply Qabs_case; intros; lra.
Qed.

Lemma guard_off_neg (x1 x2 : float64) :
  1e-9 <= x1 - x2 -> F64.ltb (F64.abs (x2 - x1)) 1e-9 = false.
Proof.
  intro H. apply ltb_false. unfold F64.abs.
  apply Qabs_case; intros; lra.
Qed.

Lemma linearMapDbg_at_x1 (x1 x2 y1 y2 : float64) :
  y (linearMapDbg x1 x1 x2 y1 y2) == y1.
Proof.
  unfold linearMapDbg. destruct (F64.ltb _ _); simpl; [reflexivity|].
  unfold Qdiv. ring.
Qed.

Lemma linearMapDbg_at_x2 (x1 x2 y1 y2 : float64) :
  F64.ltb (F64.abs (x2 - x1)) 1e-9 = false ->
  y (linearMapDbg x2 x1 x2 y1 y2) == y2.
Proof.
  intro H. unfold linearMapDbg. rewrite H. simpl.
  pose proof (abs_large_nonzero x1 x2 H) as Hne. field. exact Hne.
Qed.

Lemma linearMapDbg_mono (x x' x1 x2 y1 y2 : float64) :
  1e-9 <= x2 - x1 -> y1 <= y2 -> x <= x' ->
  y (linearMapDbg x x1 x2 y1 y2) <= y (linearMapDbg x' x1 x2 y1 y2).
Proof.
  intros Hd Hy Hx. unfold linearMapDbg. rewrite (guard_off_pos x1 x2 Hd). simpl.
  pose proof tiny_pos as Htiny.
  assert (Hi : 0 < / (x2 - x1)) by (apply Qinv_lt_0_compat; lra).
  assert (Ht : (x - x1) / (x2 - x1) <= (x' - x1) / (x2 - x1)).
  { unfold Qdiv. apply Qmult_le_compat_r; [lra | apply Qlt_le_weak; exact Hi]. }
  apply Qplus_le_r. apply Qmult_le_compat_r; [exact Ht | lra].
Qed.

Lemma linearMapDbg_anti (x x' x1 x2 y1 y2 : float64) :
  1e-9 <= x1 - x2 -> y1 <= y2 -> x <= x' ->
  y (linearMapDbg x' x1 x2 y1 y2) <= y (linearMapDbg x x1 x2 y1 y2).
Proof.
  intros Hd Hy Hx. unfold linearMapDbg. rewrite (guard_off_neg x1 x2 Hd). simpl.
  pose proof tiny_pos as Htiny.
  assert (Hi : 0 < / (x1 - x2)) by (apply Qinv_lt_0_compat; lra).
  assert (E : forall z, (z - x1) / (x2 - x1) == (x1 - z) / (x1 - x2)).
  { intro z. field. split; intro; lra. }
  rewrite (E x), (E x').
  assert (Ht : (x1 - x') / (x1 - x2) <= (x1 - x) / (x1 - x2)).
  { unfold Qdiv. apply Qmult_le_compat_r; [lra | apply Qlt_le_weak; exact Hi]. }
  apply Qplus_le_r. apply Qmult_le_compat_r; [exact Ht | lra].
Qed.

(** Two enabled anchors come with their true values in ascending order. *)
Lemma enabledAnchors_two (d : Driver) (a0 a1 : anchor) :
  enabledAnchors d = [a0; a1] ->
  4 <= truePH a0 /\ truePH a0 < truePH a1 /\ truePH a1 <= 10.
Proof.
  rewrite enabledAnchors_cases.
  destruct (F64.neb (obs4 d) (-1)), (F64.neb (obs7 d) (-1)),
    (F64.neb (obs10 d) (-1)); simpl; intro H; inversion H; subst; simpl;
    repeat split; try discriminate; reflexivity.
Qed.

(** X1.  One-point calibration is a pure offset: with a single anchor
    enabled, the reading observed in the buffer is reported as the buffer's
    true pH, and any reading is shifted by the same amount as long as the
    raw reading and the shifted value stay inside their clamps. *)
Theorem ph_one_point_offset (d : Driver) (a : anchor) :
  enabledAnchors d = [a] ->
  -1 <= obsPH a <= 15 ->
  applyCalibration d (obsPH a) == truePH a
  /\ (forall raw,
        -1 <= raw <= 15 ->
        0 <= raw + (truePH a - obsPH a) <= 14 ->
        applyCalibration d raw == raw + (truePH a - obsPH a)).
Proof.
  intros Hd Ho.
  assert (Hin : In a (enabledAnchors d)) by (rewrite Hd; left; reflexivity).
  apply enabledAnchors_truePH in Hin.
  assert (Hshift : forall raw,
             -1 <= raw <= 15 ->
             0 <= raw + (truePH a - obsPH a) <= 14 ->
             applyCalibration d raw == raw + (truePH a - obsPH a)).
  { intros raw Hr Hv. unfold applyCalibration. rewrite Hd.
    rewrite (clampRaw_id raw Hr). rewrite clampPH_inside by exact Hv.
    reflexivity. }
  split; [|exact Hshift].
  rewrite (Hshift (obsPH a) Ho) by lra. ring.
Qed.

Lemma ph_one_point_offset_witness :
  -1 <= 6.8 <= 15 /\ applyCalibration phOnePoint 6.8 == 7.
Proof.
  split; [split; discriminate|].
  apply (ph_one_point_offset phOnePoint {| truePH := 7; obsPH := 6.8 |});
    [reflexivity | split; discriminate].
Defined.

(** X2.  Two-point calibration passes through both anchors: with two
    anchors enabled whose observed values are at least 1e-9 apart and inside
    the raw clamp, each observed value is reported as its buffer's true
    pH. *)
Theorem ph_two_point_hits_anchors (d : Driver) (a0 a1 : anchor) :
  enabledAnchors d = [a0; a1] ->
  F64.ltb (F64.abs (obsPH a1 - obsPH a0)) 1e-9 = false ->
  -1 <= obsPH a0 <= 15 -> -1 <= obsPH a1 <= 15 ->
  applyCalibration d (obsPH a0) == truePH a0
  /\ applyCalibration d (obsPH a1) == truePH a1.
Proof.
  intros Hd Hg H0 H1.
  destruct (enabledAnchors_two d a0 a1 Hd) as (Ht0 & Ht & Ht1).
  unfold applyCalibration. rewrite Hd.
  rewrite (clampRaw_id _ H0), (clampRaw_id _ H1).
  split; apply clampPH_eq;
    [apply linearMapDbg_at_x1 | lra | apply linearMapDbg_at_x2; exact Hg | lra].
Qed.

Lemma ph_two_point_hits_anchors_witness :
  applyCalibration phTwoPoint 4.2 == 4 /\ applyCalibration phTwoPoint 7.1 == 7.
Proof.
  apply (ph_two_point_hits_anchors phTwoPoint
           {| truePH := 4; obsPH := 4.2 |} {| truePH := 7; obsPH := 7.1 |});
    solve [reflexivity | split; discriminate].
Defined.

(** X3.  Two-point calibration is monotonic: when the anchor with the
    higher true pH was also observed higher (by at least 1e-9), a higher
    reading never gives a lower calibrated pH; when it was observed lower,
    the order is reversed.  Clamping keeps the order. *)
Theorem ph_two_point_monotonic (d : Driver) (a0 a1 : anchor) (x x' : float64) :
  enabledAnchors d = [a0; a1] ->
  x <= x' ->
  (1e-9 <= obsPH a1 - obsPH a0 ->
   applyCalibration d x <= applyCalibration d x')
  /\ (1e-9 <= obsPH a0 - obsPH a1 ->
      applyCalibration d x' <= applyCalibration d x).
Proof.
  intros Hd Hx.
  destruct (enabledAnchors_two d a0 a1 Hd) as (Ht0 & Ht & Ht1).
  pose proof (clampRaw_mono x x' Hx) as Hc.
  unfold applyCalibration. rewrite Hd.
  split; intro Hobs; (apply clampPH_mono; [lra|]).
  - apply linearMapDbg_mono; [exact Hobs | lra | exact Hc].
  - apply linearMapDbg_anti; [exact Hobs | lra | exact Hc].
Qed.

Lemma ph_two_point_monotonic_witness :
  5 <= 6 /\ applyCalibration phTwoPoint 5 <= applyCalibration phTwoPoint 6.
Proof.
  split; [discriminate|].
  destruct (ph_two_point_monotonic phTwoPoint
              {| truePH := 4; obsPH := 4.2 |} {| truePH := 7; obsPH := 7.1 |}
              5 6 eq_refl) as [H _]; [discriminate|].
  apply H. discriminate.
Defined.

(** X4.  Three-point calibration with the anchors observed in ascending
    order (each at least 1e-9 above the one before, all inside the raw
    clamp) passes through the three anchors, so the two segments meet at
    the middle anchor, and it is monotonic over the whole range. *)
Theorem ph_three_point_shape (d : Driver) :
  F64.neb (obs4 d) (-1) = true ->
  F64.neb (obs7 d) (-1) = true ->
  F64.neb (obs10 d) (-1) = true ->
  -1 <= obs4 d -> 1e-9 <= obs7 d - obs4 d -> 1e-9 <= obs10 d - obs7 d ->
  obs10 d <= 15 ->
  applyCalibration d (obs4 d) == 4
  /\ applyCalibration d (obs7 d) == 7
  /\ applyCalibration d (obs10 d) == 10
  /\ (forall x x', x <= x' -> applyCalibration d x <= applyCalibration d x').
Proof.
  intros H4 H7 H10 Hlo H47 H710 Hhi.
  pose proof tiny_pos as Htiny.
  assert (Hcal : forall x,
             applyCalibration d x
             = fst (clampPH
                      (y (if F64.leb (clampRaw x) (obs7 d)
                          then linearMapDbg (clampRaw x) (obs4 d) (obs7 d) 4 7
                          else linearMapDbg (clampRaw x) (obs7 d) (obs10 d) 7 10))
                      0 14)).
  { intro x. unfold applyCalibration.
    rewrite enabledAnchors_cases, H4, H7, H10. reflexivity. }
  assert (Hleft : forall r, r <= obs7 d ->
                    y (linearMapDbg r (obs4 d) (obs7 d) 4 7) <= 7).
  { intros r Hr.
    rewrite <- (linearMapDbg_at_x2 (obs4 d) (obs7 d) 4 7 (guard_off_pos _ _ H47)) at 2.
    apply linearMapDbg_mono; [exact H47 | lra | exact Hr]. }
  assert (Hright : forall r, obs7 d <= r ->
                     7 <= y (linearMapDbg r (obs7 d) (obs10 d) 7 10)).
  { intros r Hr.
    rewrite <- (linearMapDbg_at_x1 (obs7 d) (obs10 d) 7 10) at 1.
    apply linearMapDbg_mono; [exact H710 | lra | exact Hr]. }
  split; [|split; [|split]].
  - rewrite Hcal, clampRaw_id by lra.
    f64_case (F64.leb (obs4 d) (obs7 d)); [|lra].
    apply clampPH_eq; [apply linearMapDbg_at_x1 | lra].
  - rewrite Hcal, clampRaw_id by lra.
    f64_case (F64.leb (obs7 d) (obs7 d)); [|lra].
    apply clampPH_eq; [apply linearMapDbg_at_x2, guard_off_pos, H47 | lra].
  - rewrite Hcal, clampRaw_id by lra.
    f64_case (F64.leb (obs10 d) (obs7 d)); [lra|].
    apply clampPH_eq; [apply linearMapDbg_at_x2, guard_off_pos, H710 | lra].
  - intros x x' Hx. rewrite !Hcal.
    pose proof (clampRaw_mono x x' Hx) as Hc.
    apply clampPH_mono; [lra|].
    f64_case (F64.leb (clampRaw x) (obs7 d));
      f64_case (F64.leb (clampRaw x') (obs7 d)).
    + apply linearMapDbg_mono; [exact H47 | lra | exact Hc].
    + apply Qle_trans with 7; [apply Hleft; lra | apply Hright; lra].
    + lra.
    + apply linearMapDbg_mono; [exact H710 | lra | exact Hc].
Qed.

Lemma ph_three_point_shape_witness :
  applyCalibration phThreePoint 4.2 == 4
  /\ applyCalibration phThreePoint 7.1 == 7
  /\ applyCalibration phThreePoint 9.8 == 10.
Proof.
  destruct (ph_three_point_shape phThreePoint) as (A & B & C & _);
    try solve [reflexivity | discriminate].
  repeat split; assumption.
Defined.

End CalibrationShape.

(** * Acquisition from the ADC module: pacing, retries and what is cached *)

Section AcquisitionPolicy.
Import Adc.

Lemma enforceMinGap_now (d : Core) (g : Z) (w : World) (t : Z) :
  lastXferAt d = Some t ->
  (t + g <= now (enforceMinGap d g w))%Z.
Proof.
  intro H. unfold enforceMinGap. rewrite H.
  destruct (now w - t <? g)%Z eqn:E.
  - apply Z.ltb_lt in E. simpl. lia.
  - apply Z.ltb_ge in E. lia.
Qed.

(** Every pass through the read loop stamps the transfer time, and the
    clock does not run backwards inside the loop. *)
Lemma readAttempts_xfer_gen (left : nat) :
  forall attempt lastErr d w o d' w',
    readAttempts left attempt lastErr d w = (o, d', w') ->
    left = O \/ exists t, lastXferAt d' = Some t /\ (now w <= t)%Z.
Proof.
  induction left as [|left IH]; intros attempt lastErr d w o d' w' H;
    [left; reflexivity | right].
  simpl in H. unfold ReadBytes, busCall in H. simpl in H.
  assert (Hrec : forall a le wz,
             (now w <= now wz)%Z ->
             readAttempts left a le (touch d (now w)) wz = (o, d', w') ->
             exists t, lastXferAt d' = Some t /\ (now w <= t)%Z).
  { intros a le wz Hz Hr.
    destruct (IH _ _ _ _ _ _ _ Hr) as [H0 | (t & Ht & Hle)].
    - subst left. simpl in Hr. inversion Hr; subst. simpl. eexists.
      split; [reflexivity | lia].
    - exists t. split; [exact Ht | lia]. }
  assert (Hstop : forall oz wz,
             (oz, touch d (now w), wz) = (o, d', w') ->
             exists t, lastXferAt d' = Some t /\ (now w <= t)%Z).
  { intros oz wz Hr. inversion Hr; subst. simpl. eexists.
    split; [reflexivity | lia]. }
  destruct (outcome _) as [payload | e].
  - destruct (negb _).
    { destruct (attempt =? 1)%Z; [eapply Hrec; [|exact H] | eapply Hstop; exact H].
      simpl. lia. }
    destruct (allFF3 payload).
    { destruct (attempt =? 1)%Z; [eapply Hrec; [|exact H] | eapply Hstop; exact H].
      simpl. lia. }
    destruct (adcI2C24ToCode payload); [|eapply Hstop; exact H].
    inversion H; subst. simpl. eexists. split; [reflexivity | lia].
  - destruct ((attempt =? 1)%Z && isTransientI2C e);
      [eapply Hrec; [|exact H] | eapply Hstop; exact H].
    simpl. lia.
Qed.

Lemma readAttempts_xfer (left : nat) :
  forall attempt lastErr d w o d' w',
    readAttempts (S left) attempt lastErr d w = (o, d', w') ->
    exists t, lastXferAt d' = Some t /\ (now w <= t)%Z.
Proof.
  intros attempt lastErr d w o d' w' H.
  destruct (readAttempts_xfer_gen _ _ _ _ _ _ _ _ H) as [H0 | H1];
    [discriminate H0 | exact H1].
Qed.

(** X5.  Rate pacing: an acquisition that goes to the bus enters its
    read loop no earlier than 35 ms after the start of the driver's
    previous transfer, and the time stamp it leaves for the next
    acquisition is the start of a transfer made from then on. *)
Theorem adc_transfers_are_paced (d : Core) (w : World) (t : Z)
  (o : observed) (d' : Core) (w' : World) :
  lastXferAt d = Some t ->
  cacheMiss d w ->
  readObservedMV d w = (o, d', w') ->
  (t + minI2CGap <= now (enforceMinGap d minI2CGap w))%Z
  /\ exists t', lastXferAt d' = Some t'
               /\ (now (enforceMinGap d minI2CGap w) <= t')%Z.
Proof.
  intros Ht Hmiss H. unfold readObservedMV, cacheMiss in *.
  assert (Hfresh : match lastSampleAt d with
                   | None => false
                   | Some at_ => (now w - at_ <? cacheMaxAge)%Z
                   end = false).
  { destruct (lastSampleAt d); [apply Z.ltb_ge; exact Hmiss | reflexivity]. }
  rewrite Hfresh in H.
  split; [apply enforceMinGap_now; exact Ht|].
  apply (readAttempts_xfer _ _ _ _ _ _ _ _ H).
Qed.

Lemma adc_transfers_are_paced_witness :
  let r := readObservedMV adcIdle (worldAt 0 (answering [x82; x00; x00])) in
  let w2 := Sleep (250 * Millisecond) (snd r) in
  let r2 := readObservedMV (snd (fst r)) w2 in
  (0 + minI2CGap <= now (enforceMinGap (snd (fst r)) minI2CGap w2))%Z
  /\ exists t', lastXferAt (snd (fst r2)) = Some t'
               /\ (now (enforceMinGap (snd (fst r)) minI2CGap w2) <= t')%Z.
Proof.
  intros r w2 r2.
  apply (adc_transfers_are_paced (snd (fst r)) w2
           0%Z (fst (fst r2)) (snd (fst r2)) (snd r2)).
  - reflexivity.
  - vm_compute. discriminate.
  - reflexivity.
Defined.

(** What one acquisition does to the bus and to the cache, whatever its
    outcome. *)
Lemma readAttempts_outcome (left : nat) :
  forall attempt lastErr d w o d' w',
    readAttempts left attempt lastErr d w = (o, d', w') ->
    (exists n, (n <= left)%nat
               /\ issued w' = issued w ++ repeat (OpReadBytes (addr d) 3) n)
    /\ vrefV d' = vrefV d
    /\ match err o with
       | Some _ =>
           lastSampleAt d' = lastSampleAt d /\ lastMV d' = lastMV d
           /\ lastRaw d' = lastRaw d /\ lastCode d' = lastCode d
           /\ mv o = 0 /\ adcCode o = 0%Z
       | None =>
           (left = O /\ lastErr = None)
           \/ (sampleOk (vrefV d) (mv o) (raw o) (adcCode o)
               /\ lastMV d' = mv o /\ lastRaw d' = raw o
               /\ lastCode d' = adcCode o
               /\ exists ts, lastSampleAt d' = Some ts)
       end.
Proof.
  induction left as [|left IH]; intros attempt lastErr d w o d' w' H.
  - simpl in H. inversion H; subst. simpl.
    split; [exists O; split; [lia | simpl; rewrite app_nil_r; reflexivity]|].
    split; [reflexivity|].
    destruct lastErr; [repeat split; reflexivity | left; split; reflexivity].
  - simpl in H. unfold ReadBytes, busCall in H. simpl in H.
    assert (Hrec : forall a e wz,
               issued wz = issued w ++ [OpReadBytes (addr d) 3] ->
               readAttempts left a (Some e) (touch d (now w)) wz = (o, d', w') ->
               (exists n, (n <= S left)%nat
                          /\ issued w' = issued w ++ repeat (OpReadBytes (addr d) 3) n)
               /\ vrefV d' = vrefV d
               /\ match err o with
                  | Some _ =>
                      lastSampleAt d' = lastSampleAt d /\ lastMV d' = lastMV d
                      /\ lastRaw d' = lastRaw d /\ lastCode d' = lastCode d
                      /\ mv o = 0 /\ adcCode o = 0%Z
                  | None =>
                      (S left = O /\ lastErr = None)
                      \/ (sampleOk (vrefV d) (mv o) (raw o) (adcCode o)
                          /\ lastMV d' = mv o /\ lastRaw d' = raw o
                          /\ lastCode d' = adcCode o
                          /\ exists ts, lastSampleAt d' = Some ts)
                  end).
    { intros a e wz Hz Hr.
      destruct (IH _ _ _ _ _ _ _ Hr) as ((n & Hn & Hi) & Hv & Hm).
      split; [exists (S n); split; [lia|];
              rewrite Hi, Hz; simpl; rewrite <- app_assoc; reflexivity|].
      split; [exact Hv|].
      destruct (err o); [exact Hm|].
      destruct Hm as [[_ Hm] | Hm]; [discriminate Hm | right; exact Hm]. }
    assert (Hfail : forall rw e wz,
               issued wz = issued w ++ [OpReadBytes (addr d) 3] ->
               (failed rw e, touch d (now w), wz) = (o, d', w') ->
               (exists n, (n <= S left)%nat
                          /\ issued w' = issued w ++ repeat (OpReadBytes (addr d) 3) n)
               /\ vrefV d' = vrefV d
               /\ match err o with
                  | Some _ =>
                      lastSampleAt d' = lastSampleAt d /\ lastMV d' = lastMV d
                      /\ lastRaw d' = lastRaw d /\ lastCode d' = lastCode d
                      /\ mv o = 0 /\ adcCode o = 0%Z
                  | None =>
                      (S left = O /\ lastErr = None)
                      \/ (sampleOk (vrefV d) (mv o) (raw o) (adcCode o)
                          /\ lastMV d' = mv o /\ lastRaw d' = raw o
                          /\ lastCode d' = adcCode o
                          /\ exists ts, lastSampleAt d' = Some ts)
                  end).
    { intros rw e wz Hz Hr. inversion Hr; subst. simpl.
      split; [exists 1%nat; split; [lia | exact Hz]|].
      repeat split; reflexivity. }
    destruct (outcome _) as [payload | e].
    + destruct (negb (List.length payload =? 3)%nat) eqn:Hlen.
      { destruct (attempt =? 1)%Z;
          [eapply Hrec | eapply Hfail]; try exact H; reflexivity. }
      destruct (allFF3 payload) eqn:Hff.
      { destruct (attempt =? 1)%Z;
          [eapply Hrec | eapply Hfail]; try exact H; reflexivity. }
      destruct (adcI2C24ToCode payload) as [code|] eqn:Hcode;
        [|eapply Hfail; try exact H; reflexivity].
      inversion H; subst. simpl.
      split; [exists 1%nat; split; [lia | reflexivity]|].
      split; [reflexivity|]. right.
      apply negb_false_iff, Nat.eqb_eq in Hlen.
      repeat split; try assumption; try reflexivity. eexists. reflexivity.
    + destruct ((attempt =? 1)%Z && isTransientI2C e);
        [eapply Hrec | eapply Hfail]; try exact H; reflexivity.
Qed.

(** X6.  Bounded retries: whatever the device answers, one acquisition
    adds at most two operations to the bus log, all of them
    [ReadBytes(addr, 3)]. *)
Theorem adc_at_most_two_transfers (d : Core) (w : World) :
  exists n,
    (n <= 2)%nat
    /\ issued (snd (readObservedMV d w))
       = issued w ++ repeat (OpReadBytes (addr d) 3) n.
Proof.
  unfold readObservedMV.
  destruct (match lastSampleAt d with
            | None => false
            | Some at_ => (now w - at_ <? cacheMaxAge)%Z
            end).
  - exists O. split; [lia | simpl; rewrite app_nil_r; reflexivity].
  - destruct (readAttempts 2 1 None d (enforceMinGap d minI2CGap w))
      as [[o d'] w'] eqn:Hr.
    destruct (readAttempts_outcome _ _ _ _ _ _ _ _ Hr) as ((n & Hn & Hi) & _).
    rewrite enforceMinGap_issued in Hi. exists n. split; assumption.
Qed.

(** X7.  A failed acquisition reports 0 mV and code 0 and leaves the
    cached sample (value, bytes, code and time) exactly as it was. *)
Theorem adc_failure_keeps_cache (d : Core) (w : World)
  (o : observed) (d' : Core) (w' : World) (e : error) :
  readObservedMV d w = (o, d', w') ->
  err o = Some e ->
  mv o = 0 /\ adcCode o = 0%Z
  /\ lastSampleAt d' = lastSampleAt d /\ lastMV d' = lastMV d
  /\ lastRaw d' = lastRaw d /\ lastCode d' = lastCode d.
Proof.
  unfold readObservedMV. intros H He.
  destruct (match lastSampleAt d with
            | None => false
            | Some at_ => (now w - at_ <? cacheMaxAge)%Z
            end).
  - inversion H; subst. discriminate He.
  - destruct (readAttempts_outcome _ _ _ _ _ _ _ _ H) as (_ & _ & Hm).
    rewrite He in Hm. tauto.
Qed.

Lemma adc_failure_keeps_cache_witness :
  let r := readObservedMV adcIdle (worldAt 0 (answering [xff; xff; xff])) in
  err (fst (fst r)) = Some (Err "invalid payload: all 0xFF")
  /\ mv (fst (fst r)) = 0
  /\ lastSampleAt (snd (fst r)) = None.
Proof.
  intro r. split; [reflexivity|].
  destruct (adc_failure_keeps_cache adcIdle
              (worldAt 0 (answering [xff; xff; xff]))
              (fst (fst r)) (snd (fst r)) (snd r)
              (Err "invalid payload: all 0xFF") eq_refl eq_refl)
    as (H1 & _ & H2 & _).
  split; assumption.
Defined.

(** X8.  A bus error that is not of the transient kind is not retried:
    the acquisition ends after that one transfer and returns the error. *)
Theorem adc_permanent_error_not_retried (d : Core) (w : World) (e : error) :
  cacheMiss d w ->
  outcome (device w (List.length (issued w)) (OpReadBytes (addr d) 3)) = Fail e ->
  isTransientI2C e = false ->
  err (fst (fst (readObservedMV d w))) = Some e
  /\ issued (snd (readObservedMV d w)) = issued w ++ [OpReadBytes (addr d) 3].
Proof.
  intros Hmiss Hout Htr. unfold readObservedMV, cacheMiss in *.
  assert (Hfresh : match lastSampleAt d with
                   | None => false
                   | Some at_ => (now w - at_ <? cacheMaxAge)%Z
                   end = false).
  { destruct (lastSampleAt d); [apply Z.ltb_ge; exact Hmiss | reflexivity]. }
  rewrite Hfresh. simpl. unfold ReadBytes, busCall. simpl.
  assert (Hi : issued (enforceMinGap d minI2CGap w) = issued w)
    by apply enforceMinGap_issued.
  assert (Hd : device (enforceMinGap d minI2CGap w) = device w).
  { unfold enforceMinGap. destruct (lastXferAt d); [|reflexivity].
    destruct (_ <? _)%Z; reflexivity. }
  rewrite Hi, Hd, Hout, Htr. simpl. split; reflexivity.
Qed.

Lemma adc_permanent_error_not_retried_witness :
  let w := worldAt 0 (failingOnce "no such device" [x82; x00; x00]) in
  err (fst (fst (readObservedMV adcIdle w))) = Some (Err "no such device")
  /\ issued (snd (readObservedMV adcIdle w)) = [OpReadBytes 0x24 3].
Proof.
  intro w.
  apply (adc_permanent_error_not_retried adcIdle w (Err "no such device"));
    [exact I | reflexivity | reflexivity].
Defined.

End AcquisitionPolicy.

(** * What the ADC cache holds *)

Section AdcSamples.
Import Adc.

Lemma adcI2C24ToCode_range (payload : list Byte.byte) (code : Z) :
  List.length payload = 3%nat ->
  adcI2C24ToCode payload = Some code ->
  (0 <= code < 2 ^ 30)%Z.
Proof.
  intros Hlen H.
  destruct payload as [|b0 [|b1 [|b2 [|b3 rest]]]]; try discriminate Hlen.
  rewrite adcI2C24ToCode_value in H. inversion H; subst.
  pose proof (byteZ_range b0). pose proof (byteZ_range b1).
  pose proof (byteZ_range b2).
  change (2 ^ 30)%Z with 1073741824%Z. change (2 ^ 22)%Z with 4194304%Z.
  change (2 ^ 14)%Z with 16384%Z. change (2 ^ 6)%Z with 64%Z. lia.
Qed.

Lemma adcCodeToVolts_range (code : Z) (vref : float64) :
  (0 <= code < 2 ^ 30)%Z -> 0 < vref ->
  - vref <= adcCodeToVolts code vref /\ adcCodeToVolts code vref < vref.
Proof.
  intros [Hlo Hhi] Hv. unfold adcCodeToVolts, F64.ofZ, adcOffsetBinaryMid, adcScale.
  change (2 ^ 30)%Z with 1073741824%Z in Hhi.
  assert (H1 : inject_Z (-536870912) <= inject_Z (code - 536870912))
    by (rewrite <- Zle_Qle; lia).
  assert (H2 : inject_Z (code - 536870912) < inject_Z 536870912)
    by (rewrite <- Zlt_Qlt; lia).
  set (x := inject_Z (code - 536870912)) in *.
  change (inject_Z (-536870912)) with (- (536870912)) in H1.
  change (inject_Z 536870912) with 536870912 in H2.
  assert (Hs1 : -1 <= x / 536870912)
    by (apply Qle_shift_div_l; [reflexivity | lra]).
  assert (Hs2 : x / 536870912 < 1)
    by (apply Qlt_shift_div_r; [reflexivity | lra]).
  set (s := x / 536870912) in *. clearbody s. split.
  - assert (H : (-1) * vref <= s * vref)
      by (apply Qmult_le_compat_r; [exact Hs1 | apply Qlt_le_weak; exact Hv]).
    lra.
  - assert (H : s * vref < 1 * vref)
      by (apply Qmult_lt_compat_r; [exact Hv | exact Hs2]).
    lra.
Qed.

Lemma sampleOk_range (vref mv : float64) (raw : list Byte.byte) (code : Z) :
  0 < vref -> sampleOk vref mv raw code ->
  - (1000 * vref) <= mv /\ mv < 1000 * vref.
Proof.
  intros Hv (Hlen & _ & Hcode & Hmv). subst mv.
  destruct (adcCodeToVolts_range code vref
              (adcI2C24ToCode_range _ _ Hlen Hcode) Hv) as [H1 H2].
  split; lra.
Qed.

(** X9.  A driver whose cache is empty or holds a decoded sample stays
    so over every acquisition, and every reading reported without error
    lies in [-1000*Vref, 1000*Vref) millivolts, decoded from three bytes
    that are not all 0xFF. *)
Theorem adc_reading_is_a_decoded_sample (d : Core) (w : World)
  (o : observed) (d' : Core) (w' : World) :
  0 < vrefV d ->
  cacheOk d ->
  readObservedMV d w = (o, d', w') ->
  cacheOk d'
  /\ (err o = None ->
      sampleOk (vrefV d) (mv o) (raw o) (adcCode o)
      /\ - (1000 * vrefV d) <= mv o /\ mv o < 1000 * vrefV d).
Proof.
  intros Hv Hc H. unfold readObservedMV in H.
  destruct (match lastSampleAt d with
            | None => false
            | Some at_ => (now w - at_ <? cacheMaxAge)%Z
            end) eqn:Hfresh.
  - inversion H; subst. simpl. split; [exact Hc|]. intros _.
    destruct Hc as [Hn | Hs]; [rewrite Hn in Hfresh; discriminate Hfresh|].
    split; [exact Hs | apply (sampleOk_range _ _ _ _ Hv Hs)].
  - destruct (readAttempts_outcome _ _ _ _ _ _ _ _ H) as (_ & Hvr & Hm).
    destruct (err o) as [e|].
    + destruct Hm as (Hs & Hmv & Hraw & Hcode & _). split; [|discriminate].
      unfold cacheOk in *. rewrite Hs, Hmv, Hraw, Hcode, Hvr. exact Hc.
    + destruct Hm as [[H0 _] | (Hs & Hmv & Hraw & Hcode & _)];
        [discriminate H0|].
      split.
      * right. rewrite Hvr, Hmv, Hraw, Hcode. exact Hs.
      * intros _. split; [exact Hs | apply (sampleOk_range _ _ _ _ Hv Hs)].
Qed.

Lemma adc_reading_is_a_decoded_sample_witness :
  let r := readObservedMV adcIdle (worldAt 0 (answering [x82; x00; x00])) in
  cacheOk (snd (fst r))
  /\ (err (fst (fst r)) = None ->
      sampleOk 2.5 (mv (fst (fst r))) (raw (fst (fst r))) (adcCode (fst (fst r)))
      /\ - (1000 * 2.5) <= mv (fst (fst r)) /\ mv (fst (fst r)) < 1000 * 2.5).
Proof.
  intro r.
  apply (adc_reading_is_a_decoded_sample adcIdle
           (worldAt 0 (answering [x82; x00; x00]))
           (fst (fst r)) (snd (fst r)) (snd r)).
  - reflexivity.
  - left. reflexivity.
  - reflexivity.
Defined.

End AdcSamples.

(** * Calibration of the AliExpress ORP driver *)

Section OrpCalibration.
Import AliExpressORP.



(** X11.  The ORP offset is set by the last calibration point alone:
    whatever points come before it, a calibration that ends with a point
    carrying its observation leaves [offset = Expected - Observed] of that
    point. *)
Theorem orp_calibrate_last_point_wins (ms : list Measurement) (m : Measurement) :
  forall (d : AliExpressORP) (w : World) (d' : AliExpressORP) (w' : World),
    given m ->
    Calibrate d (ms ++ [m]) w = (None, d', w') ->
    offset d' = Expected m - Observed m.
Proof.
  induction ms as [|m0 ms IH]; intros d w d' w' Hm H; simpl in H.
  - apply eqb_false in Hm. rewrite Hm in H. inversion H; subst. reflexivity.
  - destruct (F64.eqb (Observed m0) 0).
    + destruct (readObservedMV d w) as [[o d1] w1].
      destruct (Adc.err o); [discriminate H|].
      apply (IH _ _ _ _ Hm H).
    + apply (IH _ _ _ _ Hm H).
Qed.

Lemma orp_calibrate_last_point_wins_witness :
  offset (snd (fst (Calibrate orpSample
                      [ {| Expected := 220; Observed := 0 |};
                        {| Expected := 470; Observed := 455 |} ]
                      (worldAt 0 (answering [x82; x00; x00])))))
  = 470 - 455.
Proof.
  apply (orp_calibrate_last_point_wins
           [{| Expected := 220; Observed := 0 |}]
           {| Expected := 470; Observed := 455 |}
           orpSample (worldAt 0 (answering [x82; x00; x00]))
           _ (snd (Calibrate orpSample
                      [ {| Expected := 220; Observed := 0 |};
                        {| Expected := 470; Observed := 455 |} ]
                      (worldAt 0 (answering [x82; x00; x00]))))).
  - unfold given. simpl. intro Hq. discriminate Hq.
  - reflexivity.
Defined.

End OrpCalibration.

(** * Calibration of the AliExpress pH driver *)

Section PhCalibration.
Import AliExpressPH.

Lemma setAnchor_supported (fmt3 : float64 -> string) (d : AliExpressPH) (exp obs : float64) :
  (exists d', setAnchor fmt3 d exp obs = Ok d')
  <-> supported {| Expected := exp; Observed := obs |} = true.
Proof.
  unfold setAnchor, supported. simpl.
  destruct (F64.eqb exp 7), (F64.eqb exp 4), (F64.eqb exp 10); simpl;
    split; intro H; try reflexivity; try (eexists; reflexivity);
    try discriminate H; destruct H as [d' H]; discriminate H.
Qed.

(** X12.  A calibration whose points all carry their observation never
    uses the bus, and it succeeds exactly when every expected value is one
    of the buffers 7, 4 and 10. *)
Theorem ph_calibrate_offline (fmt3 : float64 -> string)
  (ms : list Measurement) :
  forall (d : AliExpressPH) (w : World),
    Forall given ms ->
    snd (Calibrate fmt3 d ms w) = w
    /\ (fst (fst (Calibrate fmt3 d ms w)) = None
        <-> forallb supported ms = true).
Proof.
  induction ms as [|m ms IH]; intros d w Hg; simpl.
  - split; [reflexivity | tauto].
  - inversion Hg as [|m' ms' Hm Hrest]; subst.
    apply eqb_false in Hm. rewrite Hm.
    pose proof (setAnchor_supported fmt3 d (Expected m) (Observed m)) as Hs.
    destruct m as [ex ob]; simpl in *.
    destruct (setAnchor fmt3 d ex ob) as [d2 | e].
    + assert (Hsup : supported {| Expected := ex; Observed := ob |} = true)
        by (apply Hs; eexists; reflexivity).
      rewrite Hsup. simpl. apply IH. exact Hrest.
    + simpl. split; [reflexivity|].
      destruct (supported {| Expected := ex; Observed := ob |});
        [|split; intro H; discriminate H].
      destruct Hs as [_ Hs]. destruct (Hs eq_refl) as [d' Hd]. discriminate Hd.
Qed.

Lemma ph_calibrate_offline_witness :
  let ms := [ {| Expected := 7; Observed := 3 |};
              {| Expected := 4; Observed := 171 |} ] in
  snd (Calibrate fmt3Sample (phFactory false) ms (worldAt 0 (answering []))) 
  = worldAt 0 (answering [])
  /\ (fst (fst (Calibrate fmt3Sample (phFactory false) ms
                  (worldAt 0 (answering [])))) = None
      <-> forallb supported ms = true).
Proof.
  intro ms.
  apply (ph_calibrate_offline fmt3Sample ms (phFactory false) (worldAt 0 (answering []))).
  repeat constructor; unfold given; simpl; intro Hq; discriminate Hq.
Defined.

(** A calibration that accepted its points goes on with the points that
    follow from the driver and the world it reached. *)
Lemma ph_calibrate_app (fmt3 : float64 -> string) (ms1 rest : list Measurement) :
  forall (d : AliExpressPH) (w : World) (d1 : AliExpressPH) (w1 : World),
    Calibrate fmt3 d ms1 w = (None, d1, w1) ->
    Calibrate fmt3 d (ms1 ++ rest) w = Calibrate fmt3 d1 rest w1.
Proof.
  induction ms1 as [|m ms1 IH]; intros d w d1 w1 H; simpl in H |- *.
  - inversion H; subst. reflexivity.
  - destruct (F64.eqb (Observed m) 0).
    + destruct (readObservedMV d w) as [[o d0] w0].
      destruct (Adc.err o); [discriminate H|].
      destruct (setAnchor fmt3 d0 (Expected m) (Adc.mv o)); [|discriminate H].
      apply IH, H.
    + destruct (setAnchor fmt3 d (Expected m) (Observed m)); [|discriminate H].
      apply IH, H.
Qed.

(** A live read leaves the anchors and the slope settings alone. *)
Lemma readObservedMV_anchors (d : AliExpressPH) (w : World) :
  let d' := snd (fst (readObservedMV d w)) in
  ph7mV d' = ph7mV d /\ ph4mV d' = ph4mV d /\ ph10mV d' = ph10mV d
  /\ forall mv, mvToPH d' mv = mvToPH d mv.
Proof.
  unfold readObservedMV.
  destruct (Adc.readObservedMV (core d) w) as [[o c] w']. simpl.
  repeat split.
Qed.

(** X13.  Calibration is not all-or-nothing: when the point after a
    prefix of accepted points has an expected value other than 7, 4 and
    10, the call returns an error and the driver keeps the three anchors
    as the prefix has set them, whatever follows.  The points may carry
    their observation or ask for a live read; when the refused point
    carries its observation, driver and world are those the prefix
    reached, and when it asks for a live read, they are those after that
    read. *)
Theorem ph_calibrate_keeps_accepted_prefix (fmt3 : float64 -> string)
  (ms1 : list Measurement) (m : Measurement) (ms2 : list Measurement)
  (d : AliExpressPH) (w : World) (d1 : AliExpressPH) (w1 : World) :
  Calibrate fmt3 d ms1 w = (None, d1, w1) ->
  supported m = false ->
  exists e d' w',
    Calibrate fmt3 d (ms1 ++ m :: ms2) w = (Some e, d', w')
    /\ ph7mV d' = ph7mV d1 /\ ph4mV d' = ph4mV d1 /\ ph10mV d' = ph10mV d1
    /\ (given m -> d' = d1 /\ w' = w1)
    /\ (~ given m ->
        d' = snd (fst (readObservedMV d1 w1)) /\ w' = snd (readObservedMV d1 w1)).
Proof.
  intros H1 Hu. rewrite (ph_calibrate_app fmt3 ms1 (m :: ms2) d w d1 w1 H1).
  simpl.
  assert (Hset : forall d0 obs, exists e, setAnchor fmt3 d0 (Expected m) obs = Fail e).
  { intros d0 obs.
    pose proof (setAnchor_supported fmt3 d0 (Expected m) obs) as Hx.
    unfold supported in Hx, Hu. simpl in Hx.
    destruct (setAnchor fmt3 d0 (Expected m) obs) as [d2 | e].
    - rewrite Hu in Hx. destruct Hx as [Hx _].
      assert (Hf : false = true) by (apply Hx; eexists; reflexivity).
      discriminate Hf.
    - exists e. reflexivity. }
  f64_case (F64.eqb (Observed m) 0).
  - pose proof (readObservedMV_anchors d1 w1) as Ha.
    destruct (readObservedMV d1 w1) as [[o d0] w0]. simpl in Ha.
    destruct Ha as (H7 & H4 & H10 & _).
    assert (Hng : given m -> d0 = d1 /\ w0 = w1)
      by (intro Hg; exfalso; apply Hg; exact E).
    destruct (Adc.err o) as [e|].
    + exists e, d0, w0.
      split; [reflexivity|]. split; [exact H7|]. split; [exact H4|].
      split; [exact H10|]. split; [exact Hng|]. intros _. split; reflexivity.
    + destruct (Hset d0 (Adc.mv o)) as [e He]. rewrite He.
      exists e, d0, w0.
      split; [reflexivity|]. split; [exact H7|]. split; [exact H4|].
      split; [exact H10|]. split; [exact Hng|]. intros _. split; reflexivity.
  - destruct (Hset d1 (Observed m)) as [e He]. rewrite He.
    exists e, d1, w1.
    split; [reflexivity|]. split; [reflexivity|]. split; [reflexivity|].
    split; [reflexivity|]. split; [intros _; split; reflexivity|].
    intro Hn. exfalso. apply Hn. exact E.
Qed.

Lemma ph_calibrate_keeps_accepted_prefix_witness :
  let w0 := worldAt 0 (answering [x82; x00; x00]) in
  let ms1 := [{| Expected := 7; Observed := 0 |}] in
  let r1 := Calibrate fmt3Sample (phFactory false) ms1 w0 in
  exists e d' w',
    Calibrate fmt3Sample (phFactory false)
      (ms1 ++ {| Expected := 5; Observed := 0 |}
           :: [{| Expected := 4; Observed := 171 |}]) w0
    = (Some e, d', w')
    /\ ph7mV d' = ph7mV (snd (fst r1))
    /\ ph4mV d' = ph4mV (snd (fst r1))
    /\ ph10mV d' = ph10mV (snd (fst r1))
    /\ (given {| Expected := 5; Observed := 0 |} ->
        d' = snd (fst r1) /\ w' = snd r1)
    /\ (~ given {| Expected := 5; Observed := 0 |} ->
        d' = snd (fst (readObservedMV (snd (fst r1)) (snd r1)))
        /\ w' = snd (readObservedMV (snd (fst r1)) (snd r1))).
Proof.
  intros w0 ms1 r1.
  apply (ph_calibrate_keeps_accepted_prefix fmt3Sample ms1
           {| Expected := 5; Observed := 0 |}
           [{| Expected := 4; Observed := 171 |}]
           (phFactory false) w0 (snd (fst r1)) (snd r1)).
  - reflexivity.
  - reflexivity.
Defined.

Lemma slopeAtTemp_off (d : AliExpressPH) (s : float64) :
  doTempComp d = false -> fst (fst (slopeAtTemp d s)) = s.
Proof. intro H. unfold slopeAtTemp. rewrite H. reflexivity. Qed.

(** X14.  Round trip of the two-buffer calibration: after the pH 7 and
    pH 4 buffers have been calibrated at distinct non-zero millivolts (no
    slope override, no temperature compensation), the conversion maps the
    pH 7 millivolts to 7 and the pH 4 millivolts to 4. *)
Theorem ph_calibrate_round_trip (fmt3 : float64 -> string)
  (d : AliExpressPH) (w : World)
  (o7 o4 : float64) :
  plainSlope d ->
  ~ o7 == 0 -> ~ o4 == 0 -> ~ o4 == o7 ->
  exists d',
    Calibrate fmt3 d [ {| Expected := 7; Observed := o7 |};
                       {| Expected := 4; Observed := o4 |} ] w
    = (None, d', w)
    /\ fst (mvToPH d' o7) == 7
    /\ fst (mvToPH d' o4) == 4.
Proof.
  intros [Hov Htc] H7 H4 Hne. simpl.
  apply eqb_false in H7. apply eqb_false in H4. rewrite H7, H4.
  unfold setAnchor. simpl.
  eexists. split; [reflexivity|].
  unfold mvToPH, slope25C. simpl.
  apply neb_false in Hov. rewrite Hov.
  apply eqb_false in H4. apply neb_true in H4. rewrite H4.
  unfold slopeAtTemp. simpl. rewrite Htc. simpl.
  assert (Hs : ~ (o4 - o7) / (4 - 7) == 0).
  { intro Hz. apply Hne.
    assert (Hm : (o4 - o7) / (4 - 7) * (4 - 7) == o4 - o7)
      by (field; discriminate).
    rewrite Hz in Hm. lra. }
  apply eqb_false in Hs. rewrite Hs.
  split; field; lra.
Qed.

Lemma ph_calibrate_round_trip_witness :
  exists d',
    Calibrate fmt3Sample (phFactory false)
      [ {| Expected := 7; Observed := 3 |};
        {| Expected := 4; Observed := 171 |} ]
      (worldAt 0 (answering []))
    = (None, d', worldAt 0 (answering []))
    /\ fst (mvToPH d' 3) == 7
    /\ fst (mvToPH d' 171) == 4.
Proof.
  apply (ph_calibrate_round_trip fmt3Sample (phFactory false)
           (worldAt 0 (answering [])) 3 171).
  - split; reflexivity.
  - intro Hq; discriminate Hq.
  - intro Hq; discriminate Hq.
  - intro Hq; discriminate Hq.
Defined.

(** X15.  The pH 10 anchor is dead while a pH 4 anchor is set: after any
    calibration that left a non-zero pH 4 anchor, one more point for the
    pH 10 buffer, with its observation or with a live read, accepted or
    failed, changes no conversion.  So a three-buffer calibration
    converts as the two-buffer one. *)
Theorem ph_ten_anchor_ignored (fmt3 : float64 -> string)
  (ms : list Measurement) (m : Measurement)
  (d : AliExpressPH) (w : World) (d2 : AliExpressPH) (w2 : World) :
  Calibrate fmt3 d ms w = (None, d2, w2) ->
  ~ ph4mV d2 == 0 ->
  Expected m == 10 ->
  forall mv,
    mvToPH (snd (fst (Calibrate fmt3 d (ms ++ [m]) w))) mv = mvToPH d2 mv.
Proof.
  intros H H4 He mv.
  rewrite (ph_calibrate_app fmt3 ms [m] d w d2 w2 H). simpl.
  assert (Hset : forall d0 obs,
             ph4mV d0 = ph4mV d2 ->
             (forall x, mvToPH d0 x = mvToPH d2 x) ->
             exists d3, setAnchor fmt3 d0 (Expected m) obs = Ok d3
                        /\ mvToPH d3 mv = mvToPH d2 mv).
  { intros d0 obs Hp Hsame. unfold setAnchor.
    f64_case (F64.eqb (Expected m) 7); [lra|].
    f64_case (F64.eqb (Expected m) 4); [lra|].
    f64_case (F64.eqb (Expected m) 10); [|lra].
    eexists. split; [reflexivity|].
    rewrite <- Hsame.
    unfold mvToPH, slope25C, slopeAtTemp. simpl.
    assert (Hn : F64.neb (ph4mV d0) 0 = true)
      by (apply neb_true; rewrite Hp; exact H4).
    rewrite Hn. reflexivity. }
  destruct (F64.eqb (Observed m) 0).
  - pose proof (readObservedMV_anchors d2 w2) as Ha.
    destruct (readObservedMV d2 w2) as [[o d0] w0]. simpl in Ha.
    destruct Ha as (_ & H4' & _ & Hsame).
    destruct (Adc.err o) as [e|]; [simpl; apply Hsame|].
    destruct (Hset d0 (Adc.mv o) H4' Hsame) as (d3 & -> & Hd3). exact Hd3.
  - destruct (Hset d2 (Observed m) eq_refl (fun x => eq_refl)) as (d3 & -> & Hd3).
    exact Hd3.
Qed.

Lemma ph_ten_anchor_ignored_witness :
  let two := [ {| Expected := 7; Observed := 3 |};
               {| Expected := 4; Observed := 171 |} ] in
  let w0 := worldAt 0 (answering [x82; x00; x00]) in
  mvToPH (snd (fst (Calibrate fmt3Sample (phFactory false)
                      (two ++ [{| Expected := 10; Observed := 0 |}]) w0))) 50
  = mvToPH (snd (fst (Calibrate fmt3Sample (phFactory false) two w0))) 50.
Proof.
  intros two w0.
  apply (ph_ten_anchor_ignored fmt3Sample two
           {| Expected := 10; Observed := 0 |}
           (phFactory false) w0
           (snd (fst (Calibrate fmt3Sample (phFactory false) two w0))) w0).
  - reflexivity.
  - intro Hq; discriminate Hq.
  - reflexivity.
Defined.

End PhCalibration.

(** * ADS1115: the traffic of a conversion and the voltage it yields *)

Section Ads1115Conversion.
Import Ads1115.

(** The polling loop on any device: it reads the configuration register
    and nothing else, at least once and at most once more than the 200
    microsecond pauses that fit before the deadline; it ends on the answer
    to its last read. *)
Lemma pollOS_shape (addr deadline polls : Z) (w : World) :
  exists n,
    (Z.of_nat n <= Z.max 0 ((deadline - now w) / convPollWait + 1))%Z
    /\ issued (snd (pollOS addr deadline polls w))
       = issued w ++ repeat (OpReadFromReg addr regConfig 2) (S n)
    /\ device (snd (pollOS addr deadline polls w)) = device w
    /\ match fst (pollOS addr deadline polls w) with
       | Ready cfg p =>
           p = (polls + Z.of_nat (S n))%Z
           /\ Z.land cfg configOsSingle <> 0%Z
           /\ exists k data,
                outcome (device w k (OpReadFromReg addr regConfig 2)) = Ok data
                /\ cfg = be16 (nth 0 data x00) (nth 1 data x00)
       | TimedOut cfg p =>
           p = (polls + Z.of_nat (S n))%Z
           /\ Z.land cfg configOsSingle = 0%Z
           /\ (deadline < now (snd (pollOS addr deadline polls w)))%Z
       | BusFailed e =>
           exists k,
             outcome (device w k (OpReadFromReg addr regConfig 2)) = Fail e
       end.
Proof.
  funelim (pollOS addr deadline polls w);
    match goal with
    | E : ReadFromReg2 _ _ _ = _ |- _ =>
        destruct (ReadFromReg2_spec _ _ _ _ _ E) as (Hiss & Hdev & Htime & Hres)
    end.
  - exists O. simpl. split; [lia|]. split; [exact Hiss|]. split; [exact Hdev|].
    eexists. exact Hres.
  - exists O. simpl. destruct Hres as (data & Ho & -> & ->).
    split; [lia|]. split; [exact Hiss|]. split; [exact Hdev|].
    split; [lia|]. split.
    + match goal with
      | E : negb _ = true |- _ =>
          pose proof E as E'; apply negb_true_iff, Z.eqb_neq in E'; exact E'
      end.
    + exists (List.length (issued w)), data. split; [exact Ho | reflexivity].
  - exists O. simpl. destruct Hres as (data & Ho & -> & ->).
    split; [lia|]. split; [exact Hiss|]. split; [exact Hdev|].
    split; [lia|]. split.
    + match goal with
      | E : negb _ = false |- _ =>
          pose proof E as E'; apply negb_false_iff, Z.eqb_eq in E'; exact E'
      end.
    + match goal with E : (_ <? _)%Z = true |- _ => apply Z.ltb_lt; exact E end.
  - match goal with
    | IH : exists _, _ |- _ => destruct IH as (n & Hb & Hn & Hdev' & Hm)
    end.
    exists (S n). simpl in Hb, Hn, Hdev', Hm.
    assert (Hd' : (now w1 <= deadline)%Z).
    { match goal with E : (_ <? _)%Z = false |- _ => apply Z.ltb_ge; exact E end. }
    assert (Hpos : (0 < convPollWait)%Z) by reflexivity.
    change (Z.max 0 convPollWait) with convPollWait in Hb.
    assert (Hstep : ((deadline - (now w1 + convPollWait)) / convPollWait
                     <= (deadline - now w) / convPollWait - 1)%Z).
    { replace (deadline - now w)%Z
        with ((deadline - now w - convPollWait) + 1 * convPollWait)%Z by ring.
      rewrite Z.div_add by lia.
      replace ((deadline - now w - convPollWait) / convPollWait + 1 - 1)%Z
        with ((deadline - now w - convPollWait) / convPollWait)%Z by ring.
      apply Z.div_le_mono; lia. }
    assert (Hnn : (0 <= (deadline - now w) / convPollWait)%Z)
      by (apply Z.div_pos; lia).
    split; [lia|].
    split; [rewrite Hn, Hiss, <- app_assoc; reflexivity|].
    split; [rewrite Hdev'; exact Hdev|].
    destruct (fst _) as [cfg p | cfg p | e1].
    + destruct Hm as (Hp & Hc & k & data & Hk & Hcfg).
      split; [lia|]. split; [exact Hc|]. exists k, data.
      rewrite Hdev in Hk. split; assumption.
    + destruct Hm as (Hp & Hc & Ht).
      split; [lia|]. split; [exact Hc | exact Ht].
    + destruct Hm as [k Hk]. rewrite Hdev in Hk. exists k. exact Hk.
Qed.

Lemma int16_range (z : Z) : (-32768 <= int16 z < 32768)%Z.
Proof.
  unfold int16. change (2 ^ 15)%Z with 32768%Z. change (2 ^ 16)%Z with 65536%Z.
  pose proof (Z.mod_pos_bound (z + 32768) 65536 eq_refl). lia.
Qed.

(** What the wait for a conversion puts on the bus. *)
Lemma awaitAndRead_shape (c : tdsChannel) (w : World) :
  exists n,
    (n <= 251)%nat
    /\ match awaitAndRead c w with
       | (raw, None, w') =>
           issued w' = issued w
                       ++ repeat (OpReadFromReg (address c) regConfig 2) (S n)
                       ++ [OpReadFromReg (address c) regConversion 2]
           /\ (-32768 <= raw < 32768)%Z
           /\ exists k data,
                outcome (device w k (OpReadFromReg (address c) regConfig 2))
                = Ok data
                /\ Z.land (be16 (nth 0 data x00) (nth 1 data x00)) configOsSingle
                   <> 0%Z
       | (raw, Some _, w') =>
           raw = 0%Z
           /\ (issued w' = issued w
                           ++ repeat (OpReadFromReg (address c) regConfig 2) (S n)
               \/ issued w' = issued w
                              ++ repeat (OpReadFromReg (address c) regConfig 2) (S n)
                              ++ [OpReadFromReg (address c) regConversion 2])
       end.
Proof.
  unfold awaitAndRead.
  destruct (pollOS_shape (address c) (now w + convTimeout) 0 w)
    as (n & Hb & Hn & _ & Hm).
  replace (now w + convTimeout - now w)%Z with convTimeout in Hb by ring.
  change (Z.max 0 (convTimeout / convPollWait + 1)) with 251%Z in Hb.
  exists n. split; [lia|].
  destruct (pollOS (address c) (now w + convTimeout) 0 w)
    as [[cfg p | cfg p | e] w1]; simpl in *.
  - destruct (ReadFromReg2 (address c) regConversion w1) as [[[b0 b1] | e] w2] eqn:Hr;
      destruct (ReadFromReg2_spec _ _ _ _ _ Hr) as (Hiss & _).
    + split; [rewrite Hiss, Hn, <- app_assoc; reflexivity|].
      split; [apply int16_range|].
      destruct Hm as (_ & Hc & k & data & Hk & Hcfg). exists k, data.
      split; [exact Hk | rewrite <- Hcfg; exact Hc].
    + split; [reflexivity|]. right. rewrite Hiss, Hn, <- app_assoc. reflexivity.
  - split; [reflexivity | left; exact Hn].
  - split; [reflexivity | left; exact Hn].
Qed.

(** X16.  The bus traffic of a conversion, in both variants of the
    driver and against any device: one write of the configuration
    register, then at most 252 reads of it, then at most one read of the
    conversion register.  A conversion that succeeds has read the
    conversion register last, after a poll that showed the OS bit, and its
    reading is a signed 16-bit value; one that fails returns 0. *)
Theorem conversion_bus_traffic (c : tdsChannel) (w : World)
  (run : tdsChannel -> World -> Z * option error * World) :
  run = performConversion \/ run = performConversionDebug ->
  exists n,
    (n <= 252)%nat
    /\ match run c w with
       | (raw, None, w') =>
           issued w' = issued w ++ startThenPoll c n
                       ++ [OpReadFromReg (address c) regConversion 2]
           /\ (-32768 <= raw < 32768)%Z
           /\ exists k data,
                outcome (device w k (OpReadFromReg (address c) regConfig 2))
                = Ok data
                /\ Z.land (be16 (nth 0 data x00) (nth 1 data x00)) configOsSingle
                   <> 0%Z
       | (raw, Some _, w') =>
           raw = 0%Z
           /\ (issued w' = issued w ++ startThenPoll c n
               \/ issued w' = issued w ++ startThenPoll c n
                              ++ [OpReadFromReg (address c) regConversion 2])
       end.
Proof.
  intro Hrun.
  assert (H : forall pause : World -> World,
             (forall v, issued (pause v) = issued v /\ device (pause v) = device v) ->
             exists n,
               (n <= 252)%nat
               /\ match (match writeConfig c w with
                         | (Some e, w1) =>
                             (0%Z, Some (wrapErr "ads1115: write config: " e), w1)
                         | (None, w1) => awaitAndRead c (pause w1)
                         end) with
                  | (raw, None, w') =>
                      issued w' = issued w ++ startThenPoll c n
                                  ++ [OpReadFromReg (address c) regConversion 2]
                      /\ (-32768 <= raw < 32768)%Z
                      /\ exists k data,
                           outcome (device w k (OpReadFromReg (address c) regConfig 2))
                           = Ok data
                           /\ Z.land (be16 (nth 0 data x00) (nth 1 data x00))
                                     configOsSingle <> 0%Z
                  | (raw, Some _, w') =>
                      raw = 0%Z
                      /\ (issued w' = issued w ++ startThenPoll c n
                          \/ issued w' = issued w ++ startThenPoll c n
                                         ++ [OpReadFromReg (address c) regConversion 2])
                  end).
  { intros pause Hp.
    destruct (writeConfig c w) as [we w1] eqn:Hw.
    destruct (writeConfig_spec c w we w1 Hw) as (Hi1 & Hd1 & _ & _).
    destruct we as [e0|].
    - exists O. split; [lia|]. split; [reflexivity|]. left. exact Hi1.
    - destruct (Hp w1) as (Hi2 & Hd2).
      destruct (awaitAndRead_shape c (pause w1)) as (n & Hn & Hm).
      exists (S n). split; [lia|].
      destruct (awaitAndRead c (pause w1)) as [[raw [e|]] w'].
      + destruct Hm as (Hz & [Hi | Hi]); (split; [exact Hz|]); [left | right];
          rewrite Hi, Hi2, Hi1, <- app_assoc; reflexivity.
      + destruct Hm as (Hi & Hr & k & data & Hk & Hc).
        split; [rewrite Hi, Hi2, Hi1, <- app_assoc; reflexivity|].
        split; [exact Hr|]. exists k, data. rewrite Hd2, Hd1 in Hk.
        split; assumption. }
  destruct Hrun as [-> | ->].
  - unfold performConversion.
    destruct (H (fun v => if (0 <? delay c)%Z then Sleep (delay c) v else v))
      as (n & Hn & Hm).
    { intro v. destruct (0 <? delay c)%Z; split; reflexivity. }
    exists n. split; [exact Hn|].
    destruct (writeConfig c w) as [[e|] w1]; exact Hm.
  - unfold performConversionDebug.
    destruct (H (fun v => v)) as (n & Hn & Hm).
    { intro v. split; reflexivity. }
    exists n. split; [exact Hn|].
    destruct (writeConfig c w) as [[e|] w1]; exact Hm.
Qed.

Lemma conversion_bus_traffic_witness :
  exists n,
    (n <= 252)%nat
    /\ match performConversionDebug tdsSample (worldAt 0 readyLate) with
       | (raw, None, w') =>
           issued w' = issued (worldAt 0 readyLate) ++ startThenPoll tdsSample n
                       ++ [OpReadFromReg (address tdsSample) regConversion 2]
           /\ (-32768 <= raw < 32768)%Z
           /\ exists k data,
                outcome (device (worldAt 0 readyLate) k
                           (OpReadFromReg (address tdsSample) regConfig 2))
                = Ok data
                /\ Z.land (be16 (nth 0 data x00) (nth 1 data x00)) configOsSingle
                   <> 0%Z
       | (raw, Some _, w') =>
           raw = 0%Z
           /\ (issued w' = issued (worldAt 0 readyLate) ++ startThenPoll tdsSample n
               \/ issued w' = issued (worldAt 0 readyLate)
                              ++ startThenPoll tdsSample n
                              ++ [OpReadFromReg (address tdsSample) regConversion 2])
       end.
Proof.
  apply (conversion_bus_traffic tdsSample (worldAt 0 readyLate)
           performConversionDebug).
  right. reflexivity.
Defined.

Lemma fsVoltsForGain_pos (g : Z) (fs : float64) :
  fsVoltsForGain g = (fs, true) -> 0 < fs.
Proof.
  unfold fsVoltsForGain. intro H.
  repeat match type of H with
         | (if ?b then _ else _) = _ =>
             destruct b; [inversion H; subst; reflexivity|]
         end.
  discriminate H.
Qed.

(** X17.  The voltage of a reading: an unknown gain is an error; with a
    known gain and a clamp that is not negative the voltage lies in
    [0, clampV], it is 0 for every reading that is not positive, and it is
    [raw / 32768 * fs] whenever that lies inside the clamp. *)
Theorem rawToVoltsDebug_range (c : tdsChannel) (raw : Z) :
  0 <= clampV c ->
  match fsVoltsForGain (gainConfig c) with
  | (fs, true) =>
      exists v,
        rawToVoltsDebug c raw = Ok v
        /\ 0 <= v <= clampV c
        /\ ((raw <= 0)%Z -> v == 0)
        /\ (0 <= F64.ofZ raw / 32768 * fs <= clampV c ->
            v == F64.ofZ raw / 32768 * fs)
  | (_, false) => exists e, rawToVoltsDebug c raw = Fail e
  end.
Proof.
  intro Hc. unfold rawToVoltsDebug.
  destruct (fsVoltsForGain (gainConfig c)) as [fs [|]] eqn:Hg; simpl;
    [|eexists; reflexivity].
  pose proof (fsVoltsForGain_pos _ _ Hg) as Hfs.
  eexists. split; [reflexivity|].
  set (x := F64.ofZ raw / 32768 * fs).
  assert (Hneg : (raw <= 0)%Z -> x <= 0).
  { intro Hr. unfold x, F64.ofZ.
    assert (Hq : inject_Z raw <= 0)
      by (change 0 with (inject_Z 0); rewrite <- Zle_Qle; exact Hr).
    assert (Hd : inject_Z raw / 32768 <= 0)
      by (apply Qle_shift_div_r; [reflexivity | lra]).
    assert (Hm : inject_Z raw / 32768 * fs <= 0 * fs)
      by (apply Qmult_le_compat_r; [exact Hd | apply Qlt_le_weak; exact Hfs]).
    lra. }
  clearbody x.
  f64_case (F64.ltb (clampV c) x);
    match goal with
    | |- context [F64.ltb ?a 0] => f64_case (F64.ltb a 0)
    end;
    repeat split; try lra; intros Hr; try specialize (Hneg Hr); lra.
Qed.

Lemma rawToVoltsDebug_range_witness :
  exists v,
    rawToVoltsDebug tdsSample 16384 = Ok v
    /\ 0 <= v <= 3.3
    /\ ((16384 <= 0)%Z -> v == 0)
    /\ (0 <= F64.ofZ 16384 / 32768 * 4.096 <= 3.3 ->
        v == F64.ofZ 16384 / 32768 * 4.096).
Proof.
  apply (rawToVoltsDebug_range tdsSample 16384).
  discriminate.
Defined.

End Ads1115Conversion.

(** * ADS1115: what the polls saw decides the outcome *)

Section PollingOutcome.
Import Ads1115.

(** The polling loop, poll by poll: every poll but the last was answered
    with the OS bit clear and was followed by a pause of 200
    microseconds; the answer to the last poll decides how the loop
    ends. *)
Lemma pollOS_trace (addr deadline polls : Z) (w : World) :
  exists n,
    (Z.of_nat n <= Z.max 0 ((deadline - now w) / convPollWait + 1))%Z
    /\ issued (snd (pollOS addr deadline polls w))
       = issued w ++ repeat (OpReadFromReg addr regConfig 2) (S n)
    /\ device (snd (pollOS addr deadline polls w)) = device w
    /\ (now w + Z.of_nat n * convPollWait
        <= now (snd (pollOS addr deadline polls w)))%Z
    /\ (forall k data,
          (k < n)%nat ->
          outcome (device w (List.length (issued w) + k)
                     (OpReadFromReg addr regConfig 2)) = Ok data ->
          Z.land (be16 (nth 0 data x00) (nth 1 data x00)) configOsSingle = 0%Z)
    /\ match fst (pollOS addr deadline polls w) with
       | Ready cfg _ =>
           exists data,
             outcome (device w (List.length (issued w) + n)
                        (OpReadFromReg addr regConfig 2)) = Ok data
             /\ Z.land (be16 (nth 0 data x00) (nth 1 data x00)) configOsSingle
                <> 0%Z
       | TimedOut cfg _ =>
           Z.land cfg configOsSingle = 0%Z
           /\ (deadline < now (snd (pollOS addr deadline polls w)))%Z
           /\ exists data,
                outcome (device w (List.length (issued w) + n)
                           (OpReadFromReg addr regConfig 2)) = Ok data
                /\ cfg = be16 (nth 0 data x00) (nth 1 data x00)
       | BusFailed e =>
           outcome (device w (List.length (issued w) + n)
                      (OpReadFromReg addr regConfig 2)) = Fail e
       end.
Proof.
  funelim (pollOS addr deadline polls w);
    match goal with
    | E : ReadFromReg2 _ _ _ = _ |- _ =>
        destruct (ReadFromReg2_spec _ _ _ _ _ E) as (Hiss & Hdev & Htime & Hres)
    end.
  - exists O. simpl. rewrite Nat.add_0_r.
    split; [lia|]. split; [exact Hiss|]. split; [exact Hdev|].
    split; [lia|]. split; [intros k data Hk; lia | exact Hres].
  - exists O. simpl. rewrite Nat.add_0_r.
    destruct Hres as (data & Ho & -> & ->).
    split; [lia|]. split; [exact Hiss|]. split; [exact Hdev|].
    split; [lia|]. split; [intros k data0 Hk; lia|].
    exists data. split; [exact Ho|].
    match goal with
    | E : negb _ = true |- _ =>
        pose proof E as E'; apply negb_true_iff, Z.eqb_neq in E'; exact E'
    end.
  - exists O. simpl. rewrite Nat.add_0_r.
    destruct Hres as (data & Ho & -> & ->).
    split; [lia|]. split; [exact Hiss|]. split; [exact Hdev|].
    split; [lia|]. split; [intros k data0 Hk; lia|].
    split.
    + match goal with
      | E : negb _ = false |- _ =>
          pose proof E as E'; apply negb_false_iff, Z.eqb_eq in E'; exact E'
      end.
    + split.
      * match goal with E : (_ <? _)%Z = true |- _ => apply Z.ltb_lt; exact E end.
      * exists data. split; [exact Ho | reflexivity].
  - match goal with
    | IH : exists _, _ |- _ =>
        destruct IH as (n & Hb & Hn & Hdev' & Htm & Hclear & Hm)
    end.
    exists (S n). simpl in Hb, Hn, Hdev', Htm, Hclear, Hm.
    assert (Hd' : (now w1 <= deadline)%Z).
    { match goal with E : (_ <? _)%Z = false |- _ => apply Z.ltb_ge; exact E end. }
    assert (Hpos : (0 < convPollWait)%Z) by reflexivity.
    change (Z.max 0 convPollWait) with convPollWait in Hb, Htm.
    assert (Hstep : ((deadline - (now w1 + convPollWait)) / convPollWait
                     <= (deadline - now w) / convPollWait - 1)%Z).
    { replace (deadline - now w)%Z
        with ((deadline - now w - convPollWait) + 1 * convPollWait)%Z by ring.
      rewrite Z.div_add by lia.
      replace ((deadline - now w - convPollWait) / convPollWait + 1 - 1)%Z
        with ((deadline - now w - convPollWait) / convPollWait)%Z by ring.
      apply Z.div_le_mono; lia. }
    assert (Hnn : (0 <= (deadline - now w) / convPollWait)%Z)
      by (apply Z.div_pos; lia).
    assert (Hlen : List.length (issued w1) = S (List.length (issued w))).
    { rewrite Hiss, length_app. simpl. lia. }
    assert (Hidx : forall j, (List.length (issued w1) + j
                              = List.length (issued w) + S j)%nat)
      by (intro j; lia).
    destruct Hres as (data0 & Ho0 & -> & ->).
    split; [lia|].
    split; [rewrite Hn, Hiss, <- app_assoc; reflexivity|].
    split; [rewrite Hdev'; exact Hdev|].
    split; [lia|].
    split.
    + intros k data Hk Ho. destruct k as [|k].
      * rewrite Nat.add_0_r in Ho. rewrite Ho0 in Ho. injection Ho as <-.
        match goal with
        | E : negb _ = false |- _ =>
            pose proof E as E'; apply negb_false_iff, Z.eqb_eq in E'; exact E'
        end.
      * apply (Hclear k data); [lia|]. rewrite Hdev, Hidx. exact Ho.
    + rewrite Hdev, Hidx in Hm. exact Hm.
Qed.

Lemma nth_error_poll (l : list BusOp) (a op : BusOp) (n : nat) (rest : list BusOp) :
  nth_error (l ++ a :: repeat op (S n) ++ rest) (List.length l + S n) = Some op.
Proof.
  rewrite nth_error_app2 by lia.
  replace (List.length l + S n - List.length l)%nat with (S n) by lia.
  change (nth_error (a :: repeat op (S n) ++ rest) (S n))
    with (nth_error (repeat op (S n) ++ rest) n).
  rewrite nth_error_app1 by (rewrite repeat_length; lia).
  apply nth_error_repeat. lia.
Qed.

Lemma nth_error_polls_only (l : list BusOp) (a op : BusOp) (m : nat) (rest : list BusOp)
  (k : nat) :
  (List.length l <= k)%nat ->
  a <> op ->
  (forall x, In x rest -> x <> op) ->
  nth_error (l ++ a :: repeat op m ++ rest) k = Some op ->
  exists j, (j < m)%nat /\ k = (List.length l + S j)%nat.
Proof.
  intros Hk Ha Hrest H. rewrite nth_error_app2 in H by exact Hk.
  destruct (k - List.length l)%nat as [|j] eqn:Ej.
  - simpl in H. injection H as H. contradiction.
  - simpl in H. destruct (Nat.lt_ge_cases j m) as [Hlt | Hge].
    + exists j. split; [exact Hlt | lia].
    + rewrite nth_error_app2 in H by (rewrite repeat_length; exact Hge).
      apply nth_error_In in H. exfalso. exact (Hrest _ H eq_refl).
Qed.

Lemma timeout_is_not_a_read_error (cfg : Z) (e : error) :
  timeoutErr cfg <> wrapErr "ads1115: read conversion: " e.
Proof. destruct e as [msg]. unfold timeoutErr, wrapErr. simpl. discriminate. Qed.

(** The wait for a conversion, decided by what the polls saw. *)
Lemma awaitAndRead_outcome (c : tdsChannel) (w : World) :
  exists n,
    (n <= 251)%nat
    /\ (now w + Z.of_nat n * convPollWait <= now (snd (awaitAndRead c w)))%Z
    /\ (forall k data,
          (k < n)%nat ->
          outcome (device w (List.length (issued w) + k)
                     (OpReadFromReg (address c) regConfig 2)) = Ok data ->
          Z.land (be16 (nth 0 data x00) (nth 1 data x00)) configOsSingle = 0%Z)
    /\ ((exists data,
           outcome (device w (List.length (issued w) + n)
                      (OpReadFromReg (address c) regConfig 2)) = Ok data
           /\ Z.land (be16 (nth 0 data x00) (nth 1 data x00)) configOsSingle
              <> 0%Z
           /\ issued (snd (awaitAndRead c w))
              = issued w ++ repeat (OpReadFromReg (address c) regConfig 2) (S n)
                ++ [OpReadFromReg (address c) regConversion 2]
           /\ forall cfg, snd (fst (awaitAndRead c w)) <> Some (timeoutErr cfg))
        \/ (exists e,
              awaitAndRead c w = (0%Z, Some e, snd (awaitAndRead c w))
              /\ issued (snd (awaitAndRead c w))
                 = issued w ++ repeat (OpReadFromReg (address c) regConfig 2) (S n)
              /\ (forall data,
                    outcome (device w (List.length (issued w) + n)
                               (OpReadFromReg (address c) regConfig 2)) = Ok data ->
                    Z.land (be16 (nth 0 data x00) (nth 1 data x00)) configOsSingle
                    = 0%Z)
              /\ ((exists cfg, e = timeoutErr cfg
                               /\ Z.land cfg configOsSingle = 0%Z
                               /\ (now w + convTimeout
                                   < now (snd (awaitAndRead c w)))%Z)
                  \/ exists e0 k,
                       e = wrapErr "ads1115: read config: " e0
                       /\ outcome (device w k (OpReadFromReg (address c) regConfig 2))
                          = Fail e0))).
Proof.
  unfold awaitAndRead.
  destruct (pollOS_trace (address c) (now w + convTimeout) 0 w)
    as (n & Hb & Hn & _ & Htm & Hclear & Hm).
  replace (now w + convTimeout - now w)%Z with convTimeout in Hb by ring.
  change (Z.max 0 (convTimeout / convPollWait + 1)) with 251%Z in Hb.
  exists n. split; [lia|].
  destruct (pollOS (address c) (now w + convTimeout) 0 w)
    as [[cfg p | cfg p | e] w1]; simpl in *.
  - destruct (ReadFromReg2 (address c) regConversion w1) as [[[b0 b1] | e] w2] eqn:Hr;
      destruct (ReadFromReg2_spec _ _ _ _ _ Hr) as (Hiss & _ & Ht2 & _);
      simpl; (split; [lia|]); (split; [exact Hclear|]); left;
      destruct Hm as (data & Ho & Hset); exists data;
      (split; [exact Ho|]); (split; [exact Hset|]);
      (split; [rewrite Hiss, Hn, <- app_assoc; reflexivity|]); intros cfg0 H.
    + discriminate H.
    + injection H as H. symmetry in H.
      exact (timeout_is_not_a_read_error _ _ H).
  - split; [exact Htm|]. split; [exact Hclear|]. right.
    destruct Hm as (Hc & Ht & data & Ho & ->).
    exists (timeoutErr (be16 (nth 0 data x00) (nth 1 data x00))).
    split; [reflexivity|]. split; [exact Hn|]. split.
    + intros data0 Ho0. rewrite Ho in Ho0. injection Ho0 as <-. exact Hc.
    + left. eexists. split; [reflexivity|]. split; [exact Hc | exact Ht].
  - split; [exact Htm|]. split; [exact Hclear|]. right.
    exists (wrapErr "ads1115: read config: " e).
    split; [reflexivity|]. split; [exact Hn|]. split.
    + intros data0 Ho0. rewrite Hm in Ho0. discriminate Ho0.
    + right. exists e. eexists. split; [reflexivity | exact Hm].
Qed.

(** A conversion, with whatever pause the driver makes between the write
    and the polling: it fails without a read of the conversion register
    exactly when no poll saw the OS bit. *)
Lemma conversion_outcome (c : tdsChannel) (w : World) (pause : World -> World) :
  (forall v, issued (pause v) = issued v /\ device (pause v) = device v
             /\ (now v <= now (pause v))%Z) ->
  let r := match writeConfig c w with
           | (Some e, w1) => (0%Z, Some (wrapErr "ads1115: write config: " e), w1)
           | (None, w1) => awaitAndRead c (pause w1)
           end in
  (~ sawReady c w (snd r) ->
   exists e n,
     r = (0%Z, Some e, snd r)
     /\ (n <= 252)%nat
     /\ issued (snd r) = issued w ++ startThenPoll c n
     /\ (now w + Z.of_nat (n - 1) * convPollWait <= now (snd r))%Z
     /\ (busNeverFails w ->
         exists cfg,
           e = timeoutErr cfg /\ Z.land cfg configOsSingle = 0%Z
           /\ (1 <= n)%nat
           /\ (now w + convTimeout < now (snd r))%Z))
  /\ (sawReady c w (snd r) ->
      In (OpReadFromReg (address c) regConversion 2) (issued (snd r))
      /\ forall cfg, snd (fst r) <> Some (timeoutErr cfg)).
Proof.
  intros Hp r. subst r.
  destruct (writeConfig c w) as [we w1] eqn:Hw.
  destruct (writeConfig_spec c w we w1 Hw) as (Hi1 & Hd1 & Ht1 & Hok).
  assert (Hwr : forall a r0 n0,
             OpWriteToReg a r0 [byteOfZ (Z.shiftr (configWord c) 8);
                                byteOfZ (configWord c)]
             <> OpReadFromReg (address c) regConfig n0)
    by (intros; discriminate).
  destruct we as [e0|].
  - simpl. split.
    + intros _. exists (wrapErr "ads1115: write config: " e0), O.
      split; [reflexivity|]. split; [lia|]. split; [exact Hi1|].
      split; [simpl; lia|].
      intro Hbus. specialize (Hok Hbus). discriminate Hok.
    + intros (k & data & Hk & Hnth & _). exfalso.
      rewrite Hi1 in Hnth. rewrite nth_error_app2 in Hnth by exact Hk.
      destruct (k - List.length (issued w))%nat; simpl in Hnth.
      * injection Hnth as Hnth. discriminate Hnth.
      * destruct n; discriminate Hnth.
  - destruct (Hp w1) as (Hi2 & Hd2 & Ht2).
    destruct (awaitAndRead_outcome c (pause w1))
      as (n & Hn & Htm & Hclear & Hcase).
    assert (Hlen : List.length (issued (pause w1)) = S (List.length (issued w))).
    { rewrite Hi2, Hi1, length_app. simpl. lia. }
    rewrite Hlen, Hd2, Hd1 in Hclear, Hcase.
    destruct Hcase as [(data & Ho & Hset & Hlog & Hnt) | (e & Hr & Hlog & Hlast & He)].
    + assert (Hlog' : issued (snd (awaitAndRead c (pause w1)))
                      = issued w
                        ++ OpWriteToReg (address c) regConfig
                             [byteOfZ (Z.shiftr (configWord c) 8);
                              byteOfZ (configWord c)]
                           :: repeat (OpReadFromReg (address c) regConfig 2) (S n)
                              ++ [OpReadFromReg (address c) regConversion 2]).
      { rewrite Hlog, Hi2, Hi1, <- app_assoc. reflexivity. }
      assert (Hsaw : sawReady c w (snd (awaitAndRead c (pause w1)))).
      { exists (List.length (issued w) + S n)%nat, data.
        split; [lia|]. split; [rewrite Hlog'; apply nth_error_poll|].
        replace (List.length (issued w) + S n)%nat
          with (S (List.length (issued w)) + n)%nat by lia.
        split; [exact Ho | exact Hset]. }
      split; [intro Hno; contradiction|].
      intros _. split; [|exact Hnt].
      rewrite Hlog'. apply in_or_app. right. right. apply in_or_app. right.
      left. reflexivity.
    + assert (Hlog' : issued (snd (awaitAndRead c (pause w1)))
                      = issued w ++ startThenPoll c (S n)).
      { rewrite Hlog, Hi2, Hi1, <- app_assoc. reflexivity. }
      split.
      * intros _. exists e, (S n). split; [exact Hr|]. split; [lia|].
        split; [exact Hlog'|].
        split; [replace (S n - 1)%nat with n by lia; lia|].
        intro Hbus. destruct He as [(cfg & -> & Hc & Ht) | (e1 & k & _ & Hk)].
        -- exists cfg. split; [reflexivity|]. split; [exact Hc|].
           split; [lia | lia].
        -- exfalso.
           destruct (Hbus k (OpReadFromReg (address c) regConfig 2)) as [d0 Hd0].
           congruence.
      * intros (k & data & Hk & Hnth & Ho & Hset). exfalso.
        rewrite Hlog' in Hnth. unfold startThenPoll in Hnth.
        rewrite <- (app_nil_r (repeat _ (S n))) in Hnth.
        destruct (nth_error_polls_only _ _ _ _ _ _ Hk (Hwr _ _ _)
                    (fun x (Hx : In x []) => match Hx with end) Hnth)
          as (j & Hj & ->).
        replace (List.length (issued w) + S j)%nat
          with (S (List.length (issued w)) + j)%nat in Ho by lia.
        destruct (Nat.eq_dec j n) as [-> | Hne].
        -- exact (Hset (Hlast data Ho)).
        -- apply Hset. apply (Hclear j data); [lia | exact Ho].
Qed.

(** C7, as stated, fails.  The deadline is looked at only after a poll
    that found the OS bit clear.  With transfers of 30 ms the polling
    starts at 30 ms and its deadline is at 80 ms; the first poll ends at
    60 ms and shows the bit clear; the second ends after the deadline, at
    90.2 ms, and shows it set: the bit was not seen before the timeout
    elapsed, yet no timeout is reported, the conversion register is read
    and its reading returned. *)
Lemma C7_counterexample :
  let w0 := worldAt 0 readyLate in
  let w1 := snd (writeConfig tdsSample w0) in
  let deadline := (now w1 + convTimeout)%Z in
  let poll1 := ReadFromReg2 (address tdsSample) regConfig w1 in
  let poll2 := ReadFromReg2 (address tdsSample) regConfig
                 (Sleep convPollWait (snd poll1)) in
  let r := performConversionDebug tdsSample w0 in
  (fst poll1 = Ok (x03, xe3)
   /\ Z.land (be16 x03 xe3) configOsSingle = 0%Z
   /\ (now (snd poll1) <= deadline)%Z)
  /\ (fst poll2 = Ok (x83, xe3)
      /\ Z.land (be16 x83 xe3) configOsSingle <> 0%Z
      /\ (deadline < now (snd poll2))%Z)
  /\ fst r = ((-31773)%Z, None)
  /\ issued (snd r)
     = startThenPoll tdsSample 2
       ++ [OpReadFromReg (address tdsSample) regConversion 2].
Proof.
  repeat split; try (vm_compute; reflexivity); vm_compute; discriminate.
Qed.

(** C7, amended.  Both variants of the conversion write the
    configuration register once and then read it over and over, pausing
    200 microseconds after every poll that found the OS bit clear.  If no
    poll the driver makes sees the bit set, which includes the first poll
    that ends after the 50 ms deadline, the result is 0 with an error and
    no reading: the log holds the one write and at most 252 reads of the
    configuration register, the conversion register is not read and the
    conversion is not started again.  Unless the bus itself fails, the
    error is the conversion timeout, returned after more than the 50 ms.
    If a poll does see the bit set, be it after the deadline, the
    conversion register is read and no timeout is reported. *)
Theorem C7_no_poll_sees_ready_times_out (c : tdsChannel) (w : World)
  (run : tdsChannel -> World -> Z * option error * World) :
  run = performConversion \/ run = performConversionDebug ->
  (~ sawReady c w (snd (run c w)) ->
   exists e n,
     run c w = (0%Z, Some e, snd (run c w))
     /\ (n <= 252)%nat
     /\ issued (snd (run c w)) = issued w ++ startThenPoll c n
     /\ ~ In (OpReadFromReg (address c) regConversion 2) (startThenPoll c n)
     /\ (now w + Z.of_nat (n - 1) * convPollWait <= now (snd (run c w)))%Z
     /\ (busNeverFails w ->
         exists cfg,
           e = timeoutErr cfg /\ Z.land cfg configOsSingle = 0%Z
           /\ (1 <= n)%nat
           /\ (now w + convTimeout < now (snd (run c w)))%Z))
  /\ (sawReady c w (snd (run c w)) ->
      In (OpReadFromReg (address c) regConversion 2) (issued (snd (run c w)))
      /\ forall cfg, snd (fst (run c w)) <> Some (timeoutErr cfg)).
Proof.
  intro Hrun.
  assert (H : forall pause : World -> World,
             (forall v, issued (pause v) = issued v /\ device (pause v) = device v
                        /\ (now v <= now (pause v))%Z) ->
             run c w = match writeConfig c w with
                       | (Some e, w1) =>
                           (0%Z, Some (wrapErr "ads1115: write config: " e), w1)
                       | (None, w1) => awaitAndRead c (pause w1)
                       end ->
             (~ sawReady c w (snd (run c w)) ->
              exists e n,
                run c w = (0%Z, Some e, snd (run c w))
                /\ (n <= 252)%nat
                /\ issued (snd (run c w)) = issued w ++ startThenPoll c n
                /\ ~ In (OpReadFromReg (address c) regConversion 2)
                        (startThenPoll c n)
                /\ (now w + Z.of_nat (n - 1) * convPollWait
                    <= now (snd (run c w)))%Z
                /\ (busNeverFails w ->
                    exists cfg,
                      e = timeoutErr cfg /\ Z.land cfg configOsSingle = 0%Z
                      /\ (1 <= n)%nat
                      /\ (now w + convTimeout < now (snd (run c w)))%Z))
             /\ (sawReady c w (snd (run c w)) ->
                 In (OpReadFromReg (address c) regConversion 2)
                    (issued (snd (run c w)))
                 /\ forall cfg, snd (fst (run c w)) <> Some (timeoutErr cfg))).
  { intros pause Hp Heq. rewrite Heq.
    destruct (conversion_outcome c w pause Hp) as [Hno Hyes].
    split; [|exact Hyes].
    intro Hn. destruct (Hno Hn) as (e & n & Hr & Hle & Hi & Ht & Hb).
    exists e, n. split; [exact Hr|]. split; [exact Hle|]. split; [exact Hi|].
    split; [apply polls_only_not_conversion|]. split; [exact Ht | exact Hb]. }
  destruct Hrun as [-> | ->].
  - apply (H (fun v => if (0 <? delay c)%Z then Sleep (delay c) v else v)).
    + intro v. destruct (0 <? delay c)%Z; simpl; repeat split; lia.
    + unfold performConversion. destruct (writeConfig c w) as [[e|] w1]; reflexivity.
  - apply (H (fun v => v)).
    + intro v. repeat split; lia.
    + unfold performConversionDebug.
      destruct (writeConfig c w) as [[e|] w1]; reflexivity.
Qed.

Lemma C7_witness :
  let w0 := worldAt 0 (answering [x03; xe3]) in
  exists cfg n,
    performConversionDebug tdsSample w0
    = (0%Z, Some (timeoutErr cfg), snd (performConversionDebug tdsSample w0))
    /\ (1 <= n <= 252)%nat
    /\ issued (snd (performConversionDebug tdsSample w0)) = startThenPoll tdsSample n.
Proof.
  intro w0.
  destruct (C7_no_poll_sees_ready_times_out tdsSample w0 performConversionDebug)
    as [H _]; [right; reflexivity|].
  destruct H as (e & n & Hr & Hle & Hi & _ & _ & Hb).
  - intros (k & data & _ & _ & Ho & Hset). apply Hset.
    injection Ho as <-. reflexivity.
  - destruct Hb as (cfg & -> & _ & Hn & _).
    + intros k op. eexists. reflexivity.
    + exists cfg, n. split; [exact Hr|]. split; [lia | exact Hi].
Defined.

End PollingOutcome.

(** * ADS1115: the configuration word *)

Section Ads1115Config.
Import Ads1115.

Lemma byteZ_byteOfZ (z : Z) : byteZ (byteOfZ z) = (z mod 256)%Z.
Proof.
  unfold byteZ, byteOfZ.
  pose proof (Z.mod_pos_bound z 256 eq_refl) as Hb.
  destruct (Byte.of_N (Z.to_N (z mod 256))) as [b|] eqn:E.
  - apply Byte.to_of_N in E. rewrite E. apply Z2N.id. lia.
  - apply Byte.of_N_None_iff in E. lia.
Qed.

Lemma be16_of_bytes (z : Z) :
  (0 <= z < 2 ^ 16)%Z ->
  be16 (byteOfZ (Z.shiftr z 8)) (byteOfZ z) = z.
Proof.
  intros Hz. unfold be16, uint16. rewrite !byteZ_byteOfZ.
  rewrite Z.shiftr_div_pow2, Z.shiftl_mul_pow2 by lia.
  change (2 ^ 16)%Z with 65536%Z in *. change (2 ^ 8)%Z with 256%Z.
  assert (Hq : (0 <= z / 256 < 256)%Z).
  { split; [apply Z.div_pos; lia | apply Z.div_lt_upper_bound; lia]. }
  rewrite (Z.mod_small (z / 256) 256) by exact Hq.
  rewrite (Z.mod_small (z / 256 * 256) 65536) by lia.
  change 256%Z with (2 ^ 8)%Z at 2.
  rewrite lor_shifted;
    [| lia | change (2 ^ 8)%Z with 256%Z; apply Z.mod_pos_bound; lia].
  change (2 ^ 8)%Z with 256%Z.
  pose proof (Z.div_mod z 256). lia.
Qed.

Lemma muxForChannel_values (ch m : Z) :
  muxForChannel ch = (m, true) ->
  m = configMuxSingle0 \/ m = configMuxSingle1
  \/ m = configMuxSingle2 \/ m = configMuxSingle3.
Proof.
  unfold muxForChannel. intro H.
  repeat match type of H with
         | (if ?b then _ else _) = _ =>
             destruct b; [inversion H; subst; tauto|]
         end.
  discriminate H.
Qed.

Lemma fsVoltsForGain_values (g : Z) (fs : float64) :
  fsVoltsForGain g = (fs, true) ->
  g = configGainTwoThirds \/ g = configGainOne \/ g = configGainTwo
  \/ g = configGainFour \/ g = configGainEight \/ g = configGainSixteen.
Proof.
  unfold fsVoltsForGain. intro H.
  repeat match type of H with
         | (if ?b then _ else _) = _ =>
             let E := fresh "E" in
             destruct b eqn:E; [apply Z.eqb_eq in E; tauto|]
         end.
  discriminate H.
Qed.

(** The multiplexer and gain settings sit in bit fields of their own. *)
Lemma configWord_fields (c : tdsChannel) (ch : Z) (fs : float64) :
  muxForChannel ch = (mux c, true) ->
  fsVoltsForGain (gainConfig c) = (fs, true) ->
  Z.land (configWord c) 0x7000 = mux c
  /\ Z.land (configWord c) 0x0E00 = gainConfig c
  /\ Z.land (configWord c) configOsSingle = configOsSingle.
Proof.
  intros Hm Hg. apply muxForChannel_values in Hm.
  apply fsVoltsForGain_values in Hg. unfold configWord.
  destruct Hm as [-> | [-> | [-> | ->]]];
    destruct Hg as [-> | [-> | [-> | [-> | [-> | ->]]]]];
    repeat split; reflexivity.
Qed.

(** X18.  The configuration word of a channel built from a valid channel
    number and gain: the two bytes written to the chip are the word in
    big-endian order, the word has the OS bit set (it starts a
    conversion), and it determines the multiplexer and gain settings, so
    two channels write the same word only if they agree on both. *)
Theorem configWord_round_trip (c c' : tdsChannel) (ch ch' : Z) (fs fs' : float64) :
  muxForChannel ch = (mux c, true) ->
  fsVoltsForGain (gainConfig c) = (fs, true) ->
  muxForChannel ch' = (mux c', true) ->
  fsVoltsForGain (gainConfig c') = (fs', true) ->
  be16 (byteOfZ (Z.shiftr (configWord c) 8)) (byteOfZ (configWord c))
  = configWord c
  /\ Z.land (configWord c) configOsSingle <> 0%Z
  /\ (configWord c = configWord c' ->
      mux c = mux c' /\ gainConfig c = gainConfig c' /\ ch = ch').
Proof.
  intros Hm Hg Hm' Hg'.
  destruct (configWord_fields c ch fs Hm Hg) as (F1 & F2 & F3).
  destruct (configWord_fields c' ch' fs' Hm' Hg') as (F1' & F2' & _).
  split; [|split].
  - apply be16_of_bytes. unfold configWord, uint16. apply Z.mod_pos_bound.
    reflexivity.
  - rewrite F3. discriminate.
  - intro E. rewrite E in F1, F2.
    assert (Emux : mux c = mux c') by congruence.
    split; [exact Emux|]. split; [congruence|].
    rewrite <- Emux in Hm'. unfold muxForChannel in Hm, Hm'.
    destruct (ch =? 0)%Z eqn:E0; destruct (ch' =? 0)%Z eqn:E0';
      destruct (ch =? 1)%Z eqn:E1; destruct (ch' =? 1)%Z eqn:E1';
      destruct (ch =? 2)%Z eqn:E2; destruct (ch' =? 2)%Z eqn:E2';
      destruct (ch =? 3)%Z eqn:E3; destruct (ch' =? 3)%Z eqn:E3';
      try discriminate Hm; try discriminate Hm';
      try (rewrite <- Hm in Hm'; discriminate Hm'); lia.
Qed.

Lemma configWord_round_trip_witness :
  be16 (byteOfZ (Z.shiftr (configWord tdsSample) 8)) (byteOfZ (configWord tdsSample))
  = configWord tdsSample
  /\ Z.land (configWord tdsSample) configOsSingle <> 0%Z
  /\ (configWord tdsSample = configWord tdsSample ->
      mux tdsSample = mux tdsSample
      /\ gainConfig tdsSample = gainConfig tdsSample /\ 0%Z = 0%Z).
Proof.
  apply (configWord_round_trip tdsSample tdsSample 0 0 4.096 4.096);
    reflexivity.
Defined.

End Ads1115Config.

(** * Conductivity: the range of the readings and the direction of the
    temperature compensation *)

Section ConductivityRange.
Import Conductivity.







End ConductivityRange.

(** * The frames of the Robo-Tank boards *)

Section Frames.

Lemma cutAtNUL_no_nul (b : list Byte.byte) : ~ In x00 (cutAtNUL b).
Proof.
  induction b as [|v b IH]; simpl; [tauto|].
  destruct (Byte.eqb v x00) eqn:E; simpl; [tauto|].
  apply Byte.eqb_false in E. intros [H | H]; [congruence | contradiction].
Qed.

Lemma cutAtNUL_text (text pad : list Byte.byte) :
  ~ In x00 text ->
  cutAtNUL (text ++ pad) = text ++ cutAtNUL pad.
Proof.
  induction text as [|v text IH]; simpl; intro H; [reflexivity|].
  destruct (Byte.eqb v x00) eqn:E.
  - apply Byte.byte_dec_bl in E. exfalso. apply H. left. exact E.
  - rewrite IH; [reflexivity|]. intro Hin. apply H. right. exact Hin.
Qed.

Lemma cutAtNUL_ffs (n : nat) : cutAtNUL (repeat xff n) = repeat xff n.
Proof. induction n as [|n IH]; simpl; [reflexivity | rewrite IH; reflexivity]. Qed.

Lemma trimFF_ffs (n : nat) : trimFF (repeat xff n) = [].
Proof. induction n as [|n IH]; simpl; [reflexivity | rewrite IH; reflexivity]. Qed.

Lemma trimFF_app (a b : list Byte.byte) :
  trimFF b = [] -> trimFF (a ++ b) = trimFF a.
Proof.
  intro Hb. induction a as [|v a IH]; simpl; [exact Hb|].
  rewrite IH. reflexivity.
Qed.

Lemma trimFF_text (text : list Byte.byte) :
  last text x00 <> xff -> trimFF text = text.
Proof.
  induction text as [|v text IH]; simpl; intro H; [reflexivity|].
  destruct text as [|v' text'].
  - simpl. destruct (Byte.eqb v xff) eqn:E; [|reflexivity].
    apply Byte.byte_dec_bl in E. contradiction.
  - rewrite (IH H). reflexivity.
Qed.

Lemma trimFF_last (b : list Byte.byte) : last (trimFF b) x00 <> xff.
Proof.
  induction b as [|v b IH]; simpl; [discriminate|].
  destruct (trimFF b) as [|t ts] eqn:Et.
  - destruct (Byte.eqb v xff) eqn:E; simpl; [discriminate|].
    apply Byte.eqb_false in E. exact E.
  - exact IH.
Qed.

Lemma trimFF_incl (b : list Byte.byte) (x : Byte.byte) :
  In x (trimFF b) -> In x b.
Proof.
  induction b as [|v b IH]; simpl; [tauto|].
  destruct (trimFF b) as [|t ts] eqn:Et.
  - destruct (Byte.eqb v xff); simpl; tauto.
  - intros [H | H]; [left; exact H | right; apply IH; exact H].
Qed.

(** The text of a frame comes back, and nothing but such a text does. *)
Lemma frame_text (text pad : list Byte.byte) :
  frameText text -> framePad pad ->
  trimFF (cutAtNUL (text ++ pad)) = text.
Proof.
  intros [Hn Hl] Hp. rewrite (cutAtNUL_text _ _ Hn).
  destruct Hp as [[rest ->] | [n ->]].
  - simpl. rewrite app_nil_r. apply trimFF_text. exact Hl.
  - rewrite cutAtNUL_ffs, (trimFF_app _ _ (trimFF_ffs n)).
    apply trimFF_text. exact Hl.
Qed.

Lemma decoded_is_text (b : list Byte.byte) : frameText (trimFF (cutAtNUL b)).
Proof.
  split; [|apply trimFF_last].
  intro H. apply trimFF_incl in H. exact (cutAtNUL_no_nul _ H).
Qed.

(** X21.  Round trip of a frame: when the board answers the status byte
    1, a text without NUL that does not end in 0xFF, and then either a
    NUL followed by anything or 0xFF bytes only, [read] of the conductivity
    driver and [readASCII] of the pH driver both return that text (handed
    to [strings.TrimSpace]) after this one transfer.  Conversely, whatever
    the board answers, the text [read] returns was free of NUL and did not
    end in 0xFF before it was trimmed. *)
Theorem frame_round_trip (lib : GoLib) (p : Port) (w : World)
  (text pad : list Byte.byte) :
  frameText text ->
  framePad pad ->
  outcome (device w (List.length (issued w)) (OpReadBytes (portAddr p) 32))
  = Ok (x01 :: text ++ pad) ->
  (fst (ConductivityIO.read lib p w)
   = Ok (TrimSpace lib (string_of_list_byte text))
   /\ issued (snd (ConductivityIO.read lib p w))
      = issued w ++ [OpReadBytes (portAddr p) 32])
  /\ (fst (RobotankPHIO.readASCII lib p w)
      = Ok (TrimSpace lib (string_of_list_byte text))
      /\ issued (snd (RobotankPHIO.readASCII lib p w))
         = issued w ++ [OpReadBytes (portAddr p) 32])
  /\ (forall w0 s,
        fst (ConductivityIO.read lib p w0) = Ok s ->
        exists t, frameText t /\ s = TrimSpace lib (string_of_list_byte t)).
Proof.
  intros Ht Hp Ho. split; [|split].
  - unfold ConductivityIO.read, ReadBytes, busCall. rewrite Ho. simpl.
    rewrite (frame_text _ _ Ht Hp). split; reflexivity.
  - unfold RobotankPHIO.readASCII, ReadBytes, busCall. rewrite Ho. simpl.
    rewrite (frame_text _ _ Ht Hp). split; reflexivity.
  - intros w0 s. unfold ConductivityIO.read, ReadBytes, busCall.
    destruct (outcome (device w0 _ _)) as [payload | e]; simpl; intro H;
      [|discriminate H].
    unfold ConductivityIO.decode in H.
    destruct payload as [|st b]; simpl in H; [discriminate H|].
    destruct (negb (Byte.eqb st x01)); simpl in H; [discriminate H|].
    inversion H; subst. eexists. split; [apply decoded_is_text|].
    reflexivity.
Qed.

Lemma frame_round_trip_witness :
  fst (ConductivityIO.read libSample portSample (worldAt 0 (answering frameSample)))
  = Ok "U=14,322"%string
  /\ fst (RobotankPHIO.readASCII libSample portSample
            (worldAt 0 (answering frameSample)))
     = Ok "U=14,322"%string.
Proof.
  destruct (frame_round_trip libSample portSample
              (worldAt 0 (answering frameSample))
              (list_byte_of_string "U=14,322") (x00 :: repeat xff 22))
    as ((H1 & _) & (H2 & _) & _).
  - split; [|discriminate].
    simpl. intros H. repeat (destruct H as [H | H]; [discriminate H|]). exact H.
  - left. eexists. reflexivity.
  - reflexivity.
  - split; [exact H1 | exact H2].
Defined.

End Frames.

(** * The first number of a response *)

Section FirstNumber.
Import ConductivityIO.
Open Scope string_scope.

Lemma sign_not_digit (c : ascii) : isSign c = true -> isDigit c = false.
Proof.
  unfold isSign. intro H. apply orb_true_iff in H.
  destruct H as [H | H]; apply Ascii.eqb_eq in H; subst; reflexivity.
Qed.

Lemma sep_not_digit (c : ascii) : isSep c = true -> isDigit c = false.
Proof.
  unfold isSep. intro H. apply orb_true_iff in H.
  destruct H as [H | H]; apply Ascii.eqb_eq in H; subst; reflexivity.
Qed.

Lemma digit_not_comma (c : ascii) : isDigit c = true -> Ascii.eqb c "," = false.
Proof.
  intro H. destruct (Ascii.eqb c ",") eqn:E; [|reflexivity].
  apply Ascii.eqb_eq in E. subst. discriminate H.
Qed.

Lemma digits_spec (s : string) :
  s = fst (digits s) ++ snd (digits s)
  /\ allDigits (fst (digits s)) = true
  /\ startsWithDigit (snd (digits s)) = false.
Proof.
  induction s as [|c s IH]; simpl; [repeat split|].
  destruct (isDigit c) eqn:E.
  - destruct (digits s) as [ds r]. simpl in *. destruct IH as (H1 & H2 & H3).
    rewrite E, H2. repeat split; [f_equal; exact H1 | exact H3].
  - simpl. rewrite E. repeat split.
Qed.

Lemma digits_app (ds r : string) :
  allDigits ds = true -> startsWithDigit r = false ->
  digits (ds ++ r) = (ds, r).
Proof.
  induction ds as [|c ds IH]; simpl; intros Ha Hr.
  - destruct r as [|c r]; simpl in *; [reflexivity | rewrite Hr; reflexivity].
  - apply andb_true_iff in Ha. destruct Ha as [Hc Ha].
    rewrite Hc, (IH Ha Hr). reflexivity.
Qed.

Lemma commasToDots_digits (ds : string) :
  allDigits ds = true -> commasToDots ds = ds.
Proof.
  induction ds as [|c ds IH]; simpl; intro H; [reflexivity|].
  apply andb_true_iff in H. destruct H as [Hc Ha].
  rewrite (digit_not_comma c Hc), (IH Ha). reflexivity.
Qed.

Lemma commasToDots_app (a b : string) :
  commasToDots (a ++ b) = commasToDots a ++ commasToDots b.
Proof. induction a as [|c a IH]; simpl; [reflexivity | rewrite IH; reflexivity]. Qed.

Lemma app_nonempty (a b : string) : a <> "" -> a ++ b <> "".
Proof. destruct a; simpl; [congruence | discriminate]. Qed.

(** What [fraction] returns: nothing, or a separator and a run of
    digits. *)
Lemma fraction_spec (s : string) :
  fraction s = ""
  \/ exists c ds, isSep c = true /\ digitRun ds = true /\ fraction s = String c ds.
Proof.
  destruct s as [|c s]; simpl; [left; reflexivity|].
  destruct (isSep c) eqn:Ec; [|left; reflexivity].
  pose proof (digits_spec s) as (_ & Hd & _).
  destruct (digits s) as [[|d ds] r]; simpl in *; [left; reflexivity|].
  right. exists c, (String d ds). repeat split; assumption.
Qed.

Lemma unsigned_literal (ds fr : string) :
  digitRun ds = true ->
  fr = "" \/ (exists c ds2, isSep c = true /\ digitRun ds2 = true
                            /\ fr = String c ds2) ->
  unsignedLiteral (commasToDots (ds ++ fr)) = true.
Proof.
  intros Hds Hfr.
  assert (Ha : allDigits ds = true) by (destruct ds; [discriminate Hds | exact Hds]).
  rewrite commasToDots_app, (commasToDots_digits ds Ha).
  unfold unsignedLiteral.
  destruct Hfr as [-> | (c & ds2 & Hc & Hd2 & ->)].
  - simpl. rewrite (digits_app ds "" Ha eq_refl).
    destruct ds; [discriminate Hds | reflexivity].
  - assert (Ha2 : allDigits ds2 = true)
      by (destruct ds2; [discriminate Hd2 | exact Hd2]).
    assert (Hdot : commasToDots (String c ds2) = String "." ds2).
    { simpl. rewrite (commasToDots_digits ds2 Ha2).
      unfold isSep in Hc. apply orb_true_iff in Hc.
      destruct Hc as [Hc | Hc]; apply Ascii.eqb_eq in Hc; subst; reflexivity. }
    rewrite Hdot. rewrite (digits_app ds (String "." ds2) Ha eq_refl).
    destruct ds; [discriminate Hds|]. simpl. exact Hd2.
Qed.

(** A match is never empty, and with its comma turned into a dot it is a
    plain decimal literal. *)
Lemma matchHere_literal (s m : string) :
  matchHere s = Some m ->
  m <> "" /\ decimalLiteral (commasToDots m) = true.
Proof.
  unfold matchHere.
  assert (Hbody : forall s1 sgn,
             (sgn = "" \/ exists c, isSign c = true /\ sgn = String c "") ->
             match digits s1 with
             | ("", _) => None
             | (ds, r) => Some (sgn ++ ds ++ fraction r)
             end = Some m ->
             m <> "" /\ decimalLiteral (commasToDots m) = true).
  { intros s1 sgn Hsgn H.
    pose proof (digits_spec s1) as (_ & Hd & _).
    destruct (digits s1) as [[|d ds] r]; [discriminate H|].
    inversion H; subst m; clear H. simpl in Hd.
    assert (Hrun : digitRun (String d ds) = true) by exact Hd.
    pose proof (unsigned_literal (String d ds) (fraction r) Hrun (fraction_spec r))
      as Hu.
    destruct Hsgn as [-> | (c & Hc & ->)].
    - split; [discriminate|]. simpl in *.
      apply andb_true_iff in Hd. destruct Hd as [Hdd _].
      rewrite (digit_not_comma d Hdd) in *.
      destruct (isSign d) eqn:Es; [|exact Hu].
      apply sign_not_digit in Es. congruence.
    - split; [discriminate|].
      change (String c "" ++ String d ds ++ fraction r)
        with (String c (String d ds ++ fraction r)).
      assert (Hcc : Ascii.eqb c "," = false).
      { destruct (Ascii.eqb c ",") eqn:E; [|reflexivity].
        apply Ascii.eqb_eq in E. subst. discriminate Hc. }
      simpl commasToDots at 1. rewrite Hcc.
      unfold decimalLiteral. rewrite Hc. exact Hu. }
  destruct s as [|c s]; [apply Hbody; left; reflexivity|].
  destruct (isSign c) eqn:Ec.
  - apply Hbody. right. exists c. split; [exact Ec | reflexivity].
  - apply Hbody. left. reflexivity.
Qed.

Lemma matchHere_digit (c : ascii) (s : string) :
  isDigit c = true -> matchHere (String c s) <> None.
Proof.
  intro H. unfold matchHere.
  assert (Hs : isSign c = false).
  { destruct (isSign c) eqn:E; [|reflexivity].
    apply sign_not_digit in E. congruence. }
  rewrite Hs. simpl. rewrite H. destruct (digits s). discriminate.
Qed.

Lemma digits_nondigit (s : string) :
  startsWithDigit s = false -> fst (digits s) = "".
Proof.
  destruct s as [|c s]; simpl; [reflexivity|]. intro H. rewrite H. reflexivity.
Qed.

Lemma noDigit_start (s : string) : noDigit s = true -> startsWithDigit s = false.
Proof.
  destruct s as [|c s]; simpl; [reflexivity|]. intro H.
  apply andb_true_iff in H. destruct H as [H _]. apply negb_true_iff in H. exact H.
Qed.

Lemma matchHere_none (s : string) :
  startsWithDigit s = false ->
  (forall c s', s = String c s' -> isSign c = true -> startsWithDigit s' = false) ->
  matchHere s = None.
Proof.
  intros Hs Hsign. unfold matchHere.
  destruct s as [|c s'].
  - reflexivity.
  - destruct (isSign c) eqn:Ec.
    + pose proof (digits_nondigit s' (Hsign c s' eq_refl Ec)) as Hd.
      destruct (digits s') as [ds r]. simpl in Hd. subst ds. reflexivity.
    + pose proof (digits_nondigit (String c s') Hs) as Hd.
      destruct (digits (String c s')) as [ds r]. simpl in Hd. subst ds.
      reflexivity.
Qed.

Lemma FindString_noDigit (s : string) : noDigit s = true -> FindString s = "".
Proof.
  induction s as [|c s IH]; intro H.
  - reflexivity.
  - assert (Hm : matchHere (String c s) = None).
    { apply matchHere_none; [apply noDigit_start; exact H|].
      intros c0 s0 E _. inversion E; subst. simpl in H.
      apply andb_true_iff in H. destruct H as [_ H].
      apply noDigit_start. exact H. }
    simpl FindString. rewrite Hm. apply IH. simpl in H.
    apply andb_true_iff in H. tauto.
Qed.

Lemma FindString_literal (s : string) :
  noDigit s = false ->
  FindString s <> "" /\ decimalLiteral (commasToDots (FindString s)) = true.
Proof.
  induction s as [|c s IH]; intro H; [discriminate H|].
  simpl FindString. destruct (matchHere (String c s)) as [m|] eqn:Hm.
  - apply (matchHere_literal _ _ Hm).
  - apply IH. simpl in H. destruct (isDigit c) eqn:Ec.
    + exfalso. exact (matchHere_digit c s Ec Hm).
    + simpl in H. exact H.
Qed.

(** X22.  [parseFirstFloat] on any response: without an ASCII digit it
    returns the error "no float found"; with one, the text it hands to
    [strconv.ParseFloat] is a plain decimal literal (optional sign,
    digits, optionally a dot and digits), and its result is what
    [ParseFloat] makes of that literal. *)
Theorem parseFirstFloat_cases (lib : GoLib) (resp : string) :
  (noDigit resp = true ->
   parseFirstFloat lib resp
   = Fail (Err ("no float found in resp=" ++ Quote lib resp)))
  /\ (noDigit resp = false ->
      exists tok,
        decimalLiteral tok = true
        /\ parseFirstFloat lib resp
           = match ParseFloat lib tok with
             | Ok v => Ok v
             | Fail e =>
                 Fail (Err ("bad float " ++ Quote lib tok ++ " in resp="
                            ++ Quote lib resp ++ ": " ++ showErr (Some e)))
             end).
Proof.
  split; intro H; unfold parseFirstFloat.
  - rewrite (FindString_noDigit resp H). reflexivity.
  - destruct (FindString_literal resp H) as [Hne Hlit].
    exists (commasToDots (FindString resp)). split; [exact Hlit|].
    destruct (FindString resp) as [|c m]; [congruence|].
    destruct (ParseFloat lib _); reflexivity.
Qed.

Lemma parseFirstFloat_cases_witness :
  parseFirstFloat libSample "ERR" = Fail (Err "no float found in resp=ERR")
  /\ exists tok,
       decimalLiteral tok = true
       /\ parseFirstFloat libSample "U=14,322"
          = match ParseFloat libSample tok with
            | Ok v => Ok v
            | Fail e =>
                Fail (Err ("bad float " ++ Quote libSample tok ++ " in resp="
                           ++ Quote libSample "U=14,322" ++ ": "
                           ++ showErr (Some e)))
            end.
Proof.
  split.
  - apply (parseFirstFloat_cases libSample "ERR"). reflexivity.
  - apply (parseFirstFloat_cases libSample "U=14,322"). reflexivity.
Defined.

Lemma matchHere_nosign (d : ascii) (s : string) :
  isSign d = false ->
  matchHere (String d s)
  = match digits (String d s) with
    | ("", _) => None
    | (ds, r) => Some ("" ++ ds ++ fraction r)
    end.
Proof. intro H. unfold matchHere. rewrite H. reflexivity. Qed.

Lemma matchHere_sign (c : ascii) (s : string) :
  isSign c = true ->
  matchHere (String c s)
  = match digits s with
    | ("", _) => None
    | (ds, r) => Some (String c "" ++ ds ++ fraction r)
    end.
Proof. intro H. unfold matchHere. rewrite H. reflexivity. Qed.

Lemma FindString_skip (pre s : string) :
  noDigit pre = true ->
  (endsWithSign pre = true -> startsWithDigit s = false) ->
  FindString (pre ++ s) = FindString s.
Proof.
  induction pre as [|c pre IH]; intros Hn He; [reflexivity|].
  simpl in Hn. apply andb_true_iff in Hn. destruct Hn as [Hc Hn].
  apply negb_true_iff in Hc.
  assert (Hm : matchHere (String c pre ++ s) = None).
  { apply matchHere_none; [exact Hc|].
    intros c0 s0 E Hs. inversion E; subst c0 s0.
    destruct pre as [|c1 pre1].
    - simpl in *. apply He. exact Hs.
    - simpl in *. apply andb_true_iff in Hn. destruct Hn as [Hn _].
      apply negb_true_iff in Hn. exact Hn. }
  change (String c pre ++ s) with (String c (pre ++ s)) in *.
  simpl FindString. rewrite Hm. apply IH; [exact Hn|].
  intro Hp. apply He. destruct pre; [discriminate Hp | exact Hp].
Qed.

Lemma fraction_app (fr rest : string) :
  startsWithDigit rest = false ->
  (fr = "" /\ startsWithFraction rest = false)
  \/ (exists c ds2, isSep c = true /\ digitRun ds2 = true /\ fr = String c ds2) ->
  fraction (fr ++ rest) = fr.
Proof.
  intros Hr [[-> Hf] | (c & ds2 & Hc & Hd & ->)].
  - destruct rest as [|c r]; simpl in *; [reflexivity|].
    destruct (isSep c); [|reflexivity]. simpl in Hf.
    pose proof (digits_nondigit r Hf) as Hd.
    destruct (digits r) as [ds r']. simpl in Hd. subst. reflexivity.
  - simpl. rewrite Hc.
    assert (Ha : allDigits ds2 = true) by (destruct ds2; [discriminate Hd | exact Hd]).
    rewrite (digits_app ds2 rest Ha Hr).
    destruct ds2; [discriminate Hd | reflexivity].
Qed.

(** X23.  Which number [parseFirstFloat] takes: the response may start
    with any text free of digits, then comes the token (an optional sign,
    digits, optionally a dot or comma and digits), then the rest, which
    must not go on with a digit (nor, after a token without a fraction,
    with a separator and a digit).  The expression finds exactly the
    token; a sign just before the digits belongs to it.  [parseFirstFloat]
    then returns what [ParseFloat] reads in the token with its comma
    turned into a dot. *)
Theorem parseFirstFloat_takes_first_token (lib : GoLib)
  (pre sgn ds fr rest : string) (v : float64) :
  noDigit pre = true ->
  (sgn = "" /\ endsWithSign pre = false)
  \/ (exists c, isSign c = true /\ sgn = String c "") ->
  digitRun ds = true ->
  (fr = "" /\ startsWithFraction rest = false)
  \/ (exists c ds2, isSep c = true /\ digitRun ds2 = true /\ fr = String c ds2) ->
  startsWithDigit rest = false ->
  ParseFloat lib (commasToDots (sgn ++ ds ++ fr)) = Ok v ->
  FindString (pre ++ sgn ++ ds ++ fr ++ rest) = sgn ++ ds ++ fr
  /\ parseFirstFloat lib (pre ++ sgn ++ ds ++ fr ++ rest) = Ok v.
Proof.
  intros Hpre Hsgn Hds Hfr Hrest Hpf.
  assert (Ha : allDigits ds = true) by (destruct ds; [discriminate Hds | exact Hds]).
  assert (Hfs : startsWithDigit (fr ++ rest) = false).
  { destruct Hfr as [[-> _] | (c & ds2 & Hc & _ & ->)]; [exact Hrest|].
    simpl. apply sep_not_digit. exact Hc. }
  assert (Hhere : matchHere (sgn ++ ds ++ fr ++ rest) = Some (sgn ++ ds ++ fr)).
  { destruct Hsgn as [[-> _] | (c & Hc & ->)].
    - destruct ds as [|d ds']; [discriminate Hds|]. simpl in Ha.
      pose proof Ha as Ha'. apply andb_true_iff in Ha'. destruct Ha' as [Hd _].
      assert (Hs : isSign d = false).
      { destruct (isSign d) eqn:E; [|reflexivity].
        apply sign_not_digit in E. congruence. }
      change ("" ++ String d ds' ++ fr ++ rest)
        with (String d (ds' ++ fr ++ rest)).
      rewrite (matchHere_nosign d _ Hs).
      change (String d (ds' ++ fr ++ rest)) with (String d ds' ++ fr ++ rest).
      rewrite (digits_app (String d ds') (fr ++ rest) Ha Hfs).
      rewrite (fraction_app fr rest Hrest Hfr). reflexivity.
    - change (String c "" ++ ds ++ fr ++ rest) with (String c (ds ++ fr ++ rest)).
      rewrite (matchHere_sign c _ Hc).
      rewrite (digits_app ds (fr ++ rest) Ha Hfs).
      rewrite (fraction_app fr rest Hrest Hfr).
      destruct ds; [discriminate Hds | reflexivity]. }
  assert (Hfind : FindString (pre ++ sgn ++ ds ++ fr ++ rest) = sgn ++ ds ++ fr).
  { rewrite FindString_skip; [| exact Hpre |].
    - destruct (sgn ++ ds ++ fr ++ rest) as [|c s] eqn:E;
        [discriminate Hhere|].
      simpl FindString. rewrite Hhere. reflexivity.
    - intro He. destruct Hsgn as [[_ Hn] | (c & Hc & ->)]; [congruence|].
      simpl. apply sign_not_digit. exact Hc. }
  split; [exact Hfind|].
  unfold parseFirstFloat. rewrite Hfind.
  assert (Hne : sgn ++ ds ++ fr <> "").
  { destruct sgn; simpl; [|discriminate].
    destruct ds; [discriminate Hds | discriminate]. }
  destruct (sgn ++ ds ++ fr) as [|c m]; [congruence|].
  rewrite Hpf. reflexivity.
Qed.

Lemma parseFirstFloat_takes_first_token_witness :
  FindString ("U=" ++ "-" ++ "14" ++ ",322" ++ ",OK") = "-" ++ "14" ++ ",322"
  /\ parseFirstFloat libSample ("U=" ++ "-" ++ "14" ++ ",322" ++ ",OK")
     = Ok (- (inject_Z 14 + (322 # 1000))).
Proof.
  apply (parseFirstFloat_takes_first_token libSample "U=" "-" "14" ",322" ",OK").
  - reflexivity.
  - right. exists "-"%char. split; reflexivity.
  - reflexivity.
  - right. exists ","%char, "322". repeat split; reflexivity.
  - reflexivity.
  - reflexivity.
Defined.

End FirstNumber.

(** * The traffic of a command and its answer *)

Section SerialTraffic.

Lemma ReadBytes_spec (a n : Z) (w : World) :
  issued (snd (ReadBytes a n w)) = issued w ++ [OpReadBytes a n]
  /\ device (snd (ReadBytes a n w)) = device w
  /\ (now w <= now (snd (ReadBytes a n w)))%Z
  /\ fst (ReadBytes a n w)
     = outcome (device w (List.length (issued w)) (OpReadBytes a n)).
Proof.
  unfold ReadBytes, busCall. simpl. repeat split.
  pose proof (N2Z.is_nonneg (took (device w (List.length (issued w))
                                     (OpReadBytes a n)))). lia.
Qed.

Lemma WriteBytes_spec (a : Z) (data : list Byte.byte) (w : World) :
  issued (snd (WriteBytes a data w)) = issued w ++ [OpWriteBytes a data]
  /\ device (snd (WriteBytes a data w)) = device w
  /\ (now w <= now (snd (WriteBytes a data w)))%Z
  /\ fst (WriteBytes a data w)
     = match outcome (device w (List.length (issued w)) (OpWriteBytes a data)) with
       | Ok _ => None
       | Fail e => Some e
       end.
Proof.
  unfold WriteBytes, busCall.
  pose proof (N2Z.is_nonneg (took (device w (List.length (issued w))
                                     (OpWriteBytes a data)))).
  destruct (outcome _); simpl; repeat split; lia.
Qed.

Lemma conductivity_read_spec (lib : GoLib) (p : Port) (w : World) :
  issued (snd (ConductivityIO.read lib p w))
  = issued w ++ [OpReadBytes (portAddr p) 32]
  /\ device (snd (ConductivityIO.read lib p w)) = device w
  /\ (now w <= now (snd (ConductivityIO.read lib p w)))%Z.
Proof.
  unfold ConductivityIO.read.
  destruct (ReadBytes_spec (portAddr p) 32 w) as (Hi & Hd & Ht & _).
  destruct (ReadBytes (portAddr p) 32 w) as [[payload | e] w1]; simpl in *;
    repeat split; assumption.
Qed.

Lemma readLoop_S (lib : GoLib) (p : Port) (cmd : string) (left : nat)
  (lastErr : option error) (w : World) :
  ConductivityIO.readLoop lib p cmd (S left) lastErr w
  = match ConductivityIO.read lib p w with
    | (Fail e, w) =>
        ConductivityIO.readLoop lib p cmd left (Some e) (Sleep (50 * Millisecond) w)
    | (Ok resp, w) =>
        match ConductivityIO.parseFirstFloat lib resp with
        | Ok v => (Ok v, w)
        | Fail e =>
            ConductivityIO.readLoop lib p cmd left (Some e)
              (Sleep (50 * Millisecond) w)
        end
    end.
Proof. reflexivity. Qed.

(** The read loop of [readFloat]: it reads and does nothing else; it
    stops at the first answer that parses, and gives up after its last
    turn, having slept 50 ms after every failed one. *)
Lemma readLoop_shape (lib : GoLib) (p : Port) (cmd : string) (left : nat) :
  forall (lastErr : option error) (w : World),
    exists n,
      (n <= left)%nat
      /\ issued (snd (ConductivityIO.readLoop lib p cmd left lastErr w))
         = issued w ++ repeat (OpReadBytes (portAddr p) 32) n
      /\ device (snd (ConductivityIO.readLoop lib p cmd left lastErr w)) = device w
      /\ match fst (ConductivityIO.readLoop lib p cmd left lastErr w) with
         | Ok _ => (1 <= n)%nat
         | Fail _ =>
             n = left
             /\ (now w + Z.of_nat left * (50 * Millisecond)
                 <= now (snd (ConductivityIO.readLoop lib p cmd left lastErr w)))%Z
         end.
Proof.
  induction left as [|left IH]; intros lastErr w.
  - exists O. simpl. rewrite app_nil_r. repeat split; lia.
  - rewrite readLoop_S.
    destruct (conductivity_read_spec lib p w) as (Hi & Hd & Ht).
    destruct (ConductivityIO.read lib p w) as [[resp | e] w1]; simpl in Hi, Hd, Ht.
    + destruct (ConductivityIO.parseFirstFloat lib resp) as [v | e].
      * exists 1%nat. simpl. repeat split; [lia | exact Hi | exact Hd | lia].
      * destruct (IH (Some e) (Sleep (50 * Millisecond) w1))
          as (n & Hn & Hi' & Hd' & Hm).
        exists (S n). split; [lia|].
        split; [rewrite Hi'; simpl; rewrite Hi, <- app_assoc; reflexivity|].
        split; [rewrite Hd'; exact Hd|].
        destruct (fst _); [lia|]. destruct Hm as [-> Hm].
        split; [reflexivity|].
        change (50 * Millisecond)%Z with 50000000%Z in *. simpl in Hm. lia.
    + destruct (IH (Some e) (Sleep (50 * Millisecond) w1))
        as (n & Hn & Hi' & Hd' & Hm).
      exists (S n). split; [lia|].
      split; [rewrite Hi'; simpl; rewrite Hi, <- app_assoc; reflexivity|].
      split; [rewrite Hd'; exact Hd|].
      destruct (fst _); [lia|]. destruct Hm as [-> Hm].
      split; [reflexivity|].
        change (50 * Millisecond)%Z with 50000000%Z in *. simpl in Hm. lia.
Qed.

(** X24.  The traffic of [readFloat] of the conductivity driver, against
    any board: one read that drains the board (its answer and its error
    are dropped), the write of the command and a NUL, then at most six
    reads.  If the write fails, its error is returned and nothing is
    read back.  Otherwise a value comes from at least one read, and a
    failure comes after exactly six reads and no sooner than the command
    delay and six pauses of 50 ms after the call. *)
Theorem conductivity_readFloat_traffic (lib : GoLib) (p : Port) (cmd : string)
  (w : World) :
  exists n,
    (n <= 6)%nat
    /\ issued (snd (ConductivityIO.readFloat lib p cmd w))
       = issued w
         ++ [OpReadBytes (portAddr p) 32;
             OpWriteBytes (portAddr p) (commandBytes cmd)]
         ++ repeat (OpReadBytes (portAddr p) 32) n
    /\ match outcome (device w (S (List.length (issued w)))
                        (OpWriteBytes (portAddr p) (commandBytes cmd))) with
       | Fail e => fst (ConductivityIO.readFloat lib p cmd w) = Fail e /\ n = O
       | Ok _ =>
           match fst (ConductivityIO.readFloat lib p cmd w) with
           | Ok _ => (1 <= n)%nat
           | Fail _ =>
               n = 6%nat
               /\ (now w + Z.max 0 (portDelay p) + 6 * (50 * Millisecond)
                   <= now (snd (ConductivityIO.readFloat lib p cmd w)))%Z
           end
       end.
Proof.
  unfold ConductivityIO.readFloat, ConductivityIO.command, ConductivityIO.drain.
  destruct (ReadBytes_spec (portAddr p) 32 w) as (Hi0 & Hd0 & Ht0 & _).
  set (w0 := snd (ReadBytes (portAddr p) 32 w)) in *.
  destruct (WriteBytes_spec (portAddr p) (commandBytes cmd) w0)
    as (Hi1 & Hd1 & Ht1 & Hr1).
  assert (Hlen : List.length (issued w0) = S (List.length (issued w))).
  { rewrite Hi0, length_app. simpl. lia. }
  rewrite Hd0, Hlen in Hr1.
  destruct (WriteBytes (portAddr p) (commandBytes cmd) w0) as [we w1].
  simpl in Hi1, Hd1, Ht1, Hr1.
  destruct (outcome (device w (S (List.length (issued w)))
                       (OpWriteBytes (portAddr p) (commandBytes cmd))))
    as [data | e]; subst we.
  - destruct (readLoop_shape lib p cmd 6 None (Sleep (portDelay p) w1))
      as (n & Hn & Hi & _ & Hm).
    set (r := ConductivityIO.readLoop lib p cmd 6 None (Sleep (portDelay p) w1))
      in *.
    clearbody r. simpl in Hi, Hm.
    exists n. split; [exact Hn|].
    split; [rewrite Hi, Hi1, <- !app_assoc; reflexivity|].
    destruct (fst r); [exact Hm|]. destruct Hm as [-> Hm].
    split; [reflexivity|].
    pose proof (N2Z.is_nonneg (took (device w (List.length (issued w))
                                       (OpReadBytes (portAddr p) 32)))).
    change (50 * Millisecond)%Z with 50000000%Z in *. lia.
  - exists O. simpl. split; [lia|].
    split; [rewrite Hi1, <- app_assoc; reflexivity|].
    split; reflexivity.
Qed.

(** The bus log of one [readFloat]. *)
Lemma readFloat_log (lib : GoLib) (p : Port) (cmd : string) (w : World) :
  exists n,
    (n <= 6)%nat
    /\ issued (snd (ConductivityIO.readFloat lib p cmd w))
       = issued w
         ++ [OpReadBytes (portAddr p) 32;
             OpWriteBytes (portAddr p) (commandBytes cmd)]
         ++ repeat (OpReadBytes (portAddr p) 32) n.
Proof.
  unfold ConductivityIO.readFloat, ConductivityIO.command, ConductivityIO.drain.
  destruct (ReadBytes_spec (portAddr p) 32 w) as (Hi0 & _).
  set (w0 := snd (ReadBytes (portAddr p) 32 w)) in *.
  destruct (WriteBytes_spec (portAddr p) (commandBytes cmd) w0) as (Hi1 & _).
  destruct (WriteBytes (portAddr p) (commandBytes cmd) w0) as [[e|] w1];
    simpl in Hi1.
  - exists O. split; [lia|]. simpl. rewrite Hi1, <- app_assoc. reflexivity.
  - destruct (readLoop_shape lib p cmd 6 None (Sleep (portDelay p) w1))
      as (n & Hn & Hi & _).
    set (r := ConductivityIO.readLoop lib p cmd 6 None (Sleep (portDelay p) w1))
      in *.
    clearbody r. simpl in Hi. exists n. split; [exact Hn|].
    rewrite Hi, Hi1, <- !app_assoc. reflexivity.
Qed.

(** X25.  The order of the two test readings: [absDiff] asks for "U" and
    then for "V", each with its own drain, write and reads, and it never
    asks for "V" when the reading of "U" failed. *)
Theorem absDiff_asks_U_then_V (lib : GoLib) (p : Port) (w : World) :
  let '(ad, u, v, e, w') := ConductivityIO.absDiff lib p w in
  exists n m,
    (n <= 6)%nat /\ (m <= 6)%nat
    /\ match fst (ConductivityIO.TestHigh lib p w) with
       | Fail eU =>
           e = Some eU
           /\ issued w'
              = issued w
                ++ [OpReadBytes (portAddr p) 32;
                    OpWriteBytes (portAddr p) (commandBytes "U")]
                ++ repeat (OpReadBytes (portAddr p) 32) n
           /\ ~ In (OpWriteBytes (portAddr p) (commandBytes "V"))
                   ([OpReadBytes (portAddr p) 32;
                     OpWriteBytes (portAddr p) (commandBytes "U")]
                    ++ repeat (OpReadBytes (portAddr p) 32) n)
       | Ok _ =>
           issued w'
           = issued w
             ++ ([OpReadBytes (portAddr p) 32;
                  OpWriteBytes (portAddr p) (commandBytes "U")]
                 ++ repeat (OpReadBytes (portAddr p) 32) n)
             ++ ([OpReadBytes (portAddr p) 32;
                  OpWriteBytes (portAddr p) (commandBytes "V")]
                 ++ repeat (OpReadBytes (portAddr p) 32) m)
           /\ (e = None -> ad == F64.abs (u - v) /\ 0 <= ad)
       end.
Proof.
  unfold ConductivityIO.absDiff, ConductivityIO.TestHigh, ConductivityIO.TestLow.
  destruct (readFloat_log lib p "U" w) as (n & Hn & Hi).
  destruct (ConductivityIO.readFloat lib p "U" w) as [[u | eU] w1];
    cbn [fst snd] in *.
  - destruct (readFloat_log lib p "V" w1) as (m & Hm & Hi2).
    destruct (ConductivityIO.readFloat lib p "V" w1) as [[v | eV] w2];
      cbn [fst snd] in *;
      exists n, m; (split; [exact Hn|]); (split; [exact Hm|]);
      (split; [rewrite Hi2, Hi, <- !app_assoc; reflexivity|]).
    + intros _. split; [reflexivity|]. unfold F64.abs. apply Qabs_nonneg.
    + intro H. discriminate H.
  - exists n, O. split; [exact Hn|]. split; [lia|].
    split; [reflexivity|]. split; [exact Hi|].
    intros [H | [H | H]]; [discriminate H | discriminate H|].
    apply repeat_spec in H. discriminate H.
Qed.

Lemma ph_decode_status (lib : GoLib) (payload : list Byte.byte) (s : string) :
  RobotankPHIO.decode lib payload = Ok s ->
  exists rest, payload = x01 :: rest.
Proof.
  unfold RobotankPHIO.decode. destruct payload as [|st b]; [discriminate|].
  destruct (Byte.eqb st x01) eqn:E; simpl; [|discriminate].
  apply Byte.byte_dec_bl in E. subst. intros _. eexists. reflexivity.
Qed.

(** [readASCII]: one read, or two when the first answer is all 0xFF. *)
Lemma readASCII_shape (lib : GoLib) (p : Port) (w : World) :
  exists n,
    issued (snd (RobotankPHIO.readASCII lib p w))
    = issued w ++ repeat (OpReadBytes (portAddr p) 32) n
    /\ n = match outcome (device w (List.length (issued w))
                            (OpReadBytes (portAddr p) 32)) with
           | Ok payload => if RobotankPHIO.allFF payload then 2%nat else 1%nat
           | Fail _ => 1%nat
           end
    /\ (forall s, fst (RobotankPHIO.readASCII lib p w) = Ok s ->
                  exists k rest,
                    outcome (device w k (OpReadBytes (portAddr p) 32))
                    = Ok (x01 :: rest)).
Proof.
  unfold RobotankPHIO.readASCII.
  destruct (ReadBytes_spec (portAddr p) 32 w) as (Hi & Hd & _ & Hr).
  destruct (ReadBytes (portAddr p) 32 w) as [r1 w1]. simpl in Hi, Hd, Hr.
  rewrite <- Hr. destruct r1 as [[|st b] | e].
  - exists 1%nat. simpl. split; [exact Hi|]. split; [reflexivity|].
    intros s H. discriminate H.
  - destruct (Byte.eqb st xff) eqn:Est.
    + apply Byte.byte_dec_bl in Est. subst st.
      change (RobotankPHIO.allFF (xff :: b)) with (RobotankPHIO.allFFLoop b).
      simpl andb. destruct (RobotankPHIO.allFFLoop b) eqn:Eff.
      * destruct (ReadBytes_spec (portAddr p) 32 (Sleep (50 * Millisecond) w1))
          as (Hi2 & Hd2 & _ & Hr2).
        destruct (ReadBytes (portAddr p) 32 (Sleep (50 * Millisecond) w1))
          as [r2 w2]. simpl in Hi2, Hd2, Hr2.
        exists 2%nat.
        assert (Hlog : issued w2 = issued w ++ repeat (OpReadBytes (portAddr p) 32) 2).
        { rewrite Hi2, Hi, <- app_assoc. reflexivity. }
        destruct r2 as [[|st2 b2] | e2]; cbn [fst snd];
          (split; [exact Hlog|]); (split; [reflexivity|]); intros s H;
          try discriminate H.
        destruct (ph_decode_status lib _ s H) as [rest Hp].
        rewrite Hd in Hr2. exists (List.length (issued w1)), rest.
        rewrite <- Hr2, Hp. reflexivity.
      * exists 1%nat. simpl. split; [exact Hi|]. split; [reflexivity|].
        intros s H. discriminate H.
    + assert (Hff : RobotankPHIO.allFF (st :: b) = false).
      { simpl. rewrite Est. reflexivity. }
      rewrite Hff. simpl andb. exists 1%nat. cbn [fst snd repeat].
      split; [exact Hi|]. split; [reflexivity|].
      intros s H. destruct (ph_decode_status lib _ s H) as [rest Hp].
      exists (List.length (issued w)), rest. rewrite <- Hr, Hp. reflexivity.
  - exists 1%nat. simpl. split; [exact Hi|]. split; [reflexivity|].
    intros s H. discriminate H.
Qed.

(** X26.  The traffic of [readFloat] of the pH driver, against any
    board: the write of the command and a NUL, then one read, or two when
    the first answer consists of 0xFF bytes only; never a third.  If the
    write fails, its error is returned and nothing is read.  A value is
    only ever returned after a frame with status byte 1. *)
Theorem ph_readFloat_traffic (lib : GoLib) (p : Port) (cmd : string) (w : World) :
  exists n,
    issued (snd (RobotankPHIO.readFloat lib p cmd w))
    = issued w
      ++ [OpWriteBytes (portAddr p) (commandBytes cmd)]
      ++ repeat (OpReadBytes (portAddr p) 32) n
    /\ match outcome (device w (List.length (issued w))
                        (OpWriteBytes (portAddr p) (commandBytes cmd))) with
       | Fail e => fst (RobotankPHIO.readFloat lib p cmd w) = Fail e /\ n = O
       | Ok _ =>
           n = match outcome (device w (S (List.length (issued w)))
                                (OpReadBytes (portAddr p) 32)) with
               | Ok payload => if RobotankPHIO.allFF payload then 2%nat else 1%nat
               | Fail _ => 1%nat
               end
           /\ (forall v, fst (RobotankPHIO.readFloat lib p cmd w) = Ok v ->
                         exists k rest,
                           outcome (device w k (OpReadBytes (portAddr p) 32))
                           = Ok (x01 :: rest))
       end.
Proof.
  unfold RobotankPHIO.readFloat, RobotankPHIO.command.
  destruct (WriteBytes_spec (portAddr p) (commandBytes cmd) w)
    as (Hi1 & Hd1 & _ & Hr1).
  destruct (WriteBytes (portAddr p) (commandBytes cmd) w) as [we w1].
  simpl in Hi1, Hd1, Hr1.
  destruct (outcome (device w (List.length (issued w))
                       (OpWriteBytes (portAddr p) (commandBytes cmd))))
    as [data | e]; subst we.
  - destruct (readASCII_shape lib p (Sleep (portDelay p) w1)) as (n & Hi & Hn & Hs).
    simpl in Hi, Hn, Hs. rewrite Hd1 in Hn, Hs.
    assert (Hlen : List.length (issued w1) = S (List.length (issued w))).
    { rewrite Hi1, length_app. simpl. lia. }
    rewrite Hlen in Hn.
    exists n.
    destruct (RobotankPHIO.readASCII lib p (Sleep (portDelay p) w1))
      as [[resp | e] w2]; simpl in *.
    + destruct (ParseFloatAny lib resp) as [v | e]; simpl;
        (split; [rewrite Hi, Hi1, <- app_assoc; reflexivity|]);
        (split; [exact Hn|]); intros v0 H; [|discriminate H].
      apply (Hs resp). reflexivity.
    + split; [rewrite Hi, Hi1, <- app_assoc; reflexivity|].
      split; [exact Hn|]. intros v0 H. discriminate H.
  - exists O. simpl. split; [rewrite Hi1; reflexivity|]. split; reflexivity.
Qed.

End SerialTraffic.

(** * Calibration of the conductivity driver *)

Section ConductivityCalibration.
Import Conductivity.

Lemma Value_of_readings (d : RoboTankConductivity) (ch now : Z) (u v : float64) :
  Value d ch now (Ok u) (Ok v)
  = match usFromAbsD d (F64.abs (u - v)) with
    | Fail e => (Fail e, d)
    | Ok us =>
        (if (ch =? 0)%Z then Ok (fst (tempCompToRef d now us))
         else Ok (pptFromUS (snd (tempCompToRef d now us))
                            (fst (tempCompToRef d now us))),
         snd (tempCompToRef d now us))
    end.
Proof.
  unfold Value, compute, absDiff.
  destruct (usFromAbsD d (F64.abs (u - v))) as [us | e]; [|reflexivity].
  destruct (tempCompToRef d now us) as [usR d1]. simpl.
  destruct (ch =? 0)%Z; reflexivity.
Qed.

(** X27.  Round trip of the two-point conductivity calibration on
    channel 0 with both observations given (reference 53000 uS, no valid
    temperature): the call succeeds without touching the bus; afterwards
    a reading at the fresh-water observation is 0 uS/cm, and a reading at
    the standard observation is 53000 uS/cm and 35 ppt.  The expected
    value of the standard plays no part: any positive one sets the
    53000 uS anchor. *)
Theorem conductivity_calibrate_round_trip (lib : GoLib)
  (fmt3 : float64 -> string) (p : Port) (d : RoboTankConductivity) (w : World)
  (f s e : float64) :
  refUS d = fixedRefUS ->
  tempValid d = false ->
  0 < f -> 0 < s -> ~ f == s -> 0 < e ->
  exists d',
    ConductivityIO.Calibrate lib fmt3 p 0 d
      [ {| Expected := 0; Observed := f |};
        {| Expected := e; Observed := s |} ] w
    = (None, d', w)
    /\ forall now u v,
         (F64.abs (u - v) == f ->
          exists x, fst (Value d' 0 now (Ok u) (Ok v)) = Ok x /\ x == 0)
         /\ (F64.abs (u - v) == s ->
             exists x y,
               fst (Value d' 0 now (Ok u) (Ok v)) = Ok x /\ x == 53000
               /\ fst (Value d' 1 now (Ok u) (Ok v)) = Ok y /\ y == 35).
Proof.
  intros Href Htv Hf Hs Hne He.
  assert (Hcal : ConductivityIO.Calibrate lib fmt3 p 0 d
                   [ {| Expected := 0; Observed := f |};
                     {| Expected := e; Observed := s |} ] w
                 = (None,
                    ConductivityIO.withAnchors
                      (ConductivityIO.withAnchors d f (absDStd d)) f s, w)).
  { unfold ConductivityIO.Calibrate. simpl.
    assert (Ef : F64.eqb f 0 = false) by (apply eqb_false; lra).
    assert (Es : F64.eqb s 0 = false) by (apply eqb_false; lra).
    assert (Ee : F64.eqb e 0 = false) by (apply eqb_false; lra).
    assert (Ep : F64.ltb 0 e = true) by (apply ltb_true; exact He).
    rewrite Ef, Es, Ee, Ep. change (F64.eqb 0 0) with true. reflexivity. }
  eexists. split; [exact Hcal|]. clear Hcal.
  intros now u v. rewrite !Value_of_readings.
  set (ad := F64.abs (u - v)). clearbody ad.
  unfold usFromAbsD, tempCompToRef, pptFromUS. simpl.
  rewrite Htv, Href. simpl. unfold fixedRefUS.
  assert (E1 : F64.leb f 0 = false) by (apply leb_false; exact Hf).
  assert (E2 : F64.leb s 0 = false) by (apply leb_false; exact Hs).
  assert (E3 : F64.eqb f s = false) by (apply eqb_false; exact Hne).
  rewrite E1, E2, E3. simpl.
  assert (Hden : ~ f - s == 0) by lra.
  split; intro Ha.
  - assert (Hx : (f - ad) / (f - s) == 0).
    { assert (Hn : f - ad == 0) by lra. rewrite Hn. field. exact Hden. }
    set (x := (f - ad) / (f - s)) in *. clearbody x.
    f64_case (F64.ltb x 0); [lra|].
    f64_case (F64.ltb 1.2 x); [lra|].
    simpl. eexists. split; [reflexivity|]. rewrite Hx. ring.
  - assert (Hx : (f - ad) / (f - s) == 1).
    { assert (Hn : f - ad == f - s) by lra. rewrite Hn. field. exact Hden. }
    set (x := (f - ad) / (f - s)) in *. clearbody x.
    f64_case (F64.ltb x 0); [lra|].
    f64_case (F64.ltb 1.2 x); [lra|].
    simpl. eexists. eexists. split; [reflexivity|].
    split; [rewrite Hx; ring|]. split; [reflexivity|].
    rewrite Href. unfold fixedRefUS. rewrite Hx. reflexivity.
Qed.

Lemma conductivity_calibrate_round_trip_witness :
  exists d',
    ConductivityIO.Calibrate libSample fmt3Sample portSample 0 condScenario
      [ {| Expected := 0; Observed := 950 |};
        {| Expected := 1413; Observed := 25 |} ] (worldAt 0 (answering []))
    = (None, d', worldAt 0 (answering []))
    /\ forall now u v,
         (F64.abs (u - v) == 950 ->
          exists x, fst (Value d' 0 now (Ok u) (Ok v)) = Ok x /\ x == 0)
         /\ (F64.abs (u - v) == 25 ->
             exists x y,
               fst (Value d' 0 now (Ok u) (Ok v)) = Ok x /\ x == 53000
               /\ fst (Value d' 1 now (Ok u) (Ok v)) = Ok y /\ y == 35).
Proof.
  apply (conductivity_calibrate_round_trip libSample fmt3Sample portSample
           condScenario (worldAt 0 (answering [])) 950 25 1413).
  - reflexivity.
  - reflexivity.
  - reflexivity.
  - reflexivity.
  - intro Hq. discriminate Hq.
  - reflexivity.
Defined.

End ConductivityCalibration.

(** * The conversion from millivolts to pH *)

Section PhConversion.
Import AliExpressPH.




End PhConversion.

(** * Which bus errors are retried *)

Section TransientErrors.
Import Adc.
Open Scope string_scope.

Lemma ToLower_app (a b : string) : ToLower (a ++ b) = ToLower a ++ ToLower b.
Proof. induction a as [|c a IH]; simpl; [reflexivity | rewrite IH; reflexivity]. Qed.

Lemma prefix_app (sub s post : string) :
  String.prefix sub s = true -> String.prefix sub (s ++ post) = true.
Proof.
  revert s. induction sub as [|c sub IH]; intros s H;
    [destruct (s ++ post); reflexivity|].
  destruct s as [|c' s]; simpl in *; [discriminate H|].
  destruct (ascii_dec c c'); [apply IH; exact H | discriminate H].
Qed.

Lemma Contains_app_r (s sub post : string) :
  Contains s sub = true -> Contains (s ++ post) sub = true.
Proof.
  induction s as [|c s IH]; intro H.
  - simpl in H. rewrite orb_false_r in H.
    destruct sub; [|discriminate H].
    destruct post; reflexivity.
  - change (String c s ++ post) with (String c (s ++ post)).
    simpl Contains in *. apply orb_true_iff in H. apply orb_true_iff.
    destruct H as [H | H].
    + left. apply (prefix_app sub (String c s) post H).
    + right. apply IH. exact H.
Qed.

Lemma Contains_app_l (pre s sub : string) :
  Contains s sub = true -> Contains (pre ++ s) sub = true.
Proof.
  intro H. induction pre as [|c pre IH]; [exact H|].
  change (String c pre ++ s) with (String c (pre ++ s)).
  simpl Contains. rewrite IH. apply orb_true_r.
Qed.

Lemma Contains_self (m : string) : Contains m m = true.
Proof.
  assert (Hp : forall s, String.prefix s s = true).
  { induction s as [|c s IH]; simpl; [reflexivity|].
    destruct (ascii_dec c c); [exact IH | congruence]. }
  destruct m; simpl; [reflexivity|]. rewrite Hp.
  destruct (ascii_dec a a); [reflexivity | congruence].
Qed.

(** X29.  Which errors count as transient, for messages in ASCII: a
    message that holds one of the four markers in any mix of upper and
    lower case is transient wherever the marker stands in it, so an error
    stays transient when context is put around it.  The statement stops
    at ASCII because [ToLower] follows [strings.ToLower] there and not on
    other text. *)
Theorem transient_errors (pre msg post : string) :
  isASCII (pre ++ msg ++ post) = true ->
  (In (ToLower msg) transientMarkers ->
   isTransientI2C (Err (pre ++ msg ++ post)) = true)
  /\ (isTransientI2C (Err msg) = true ->
      isTransientI2C (Err (pre ++ msg ++ post)) = true).
Proof.
  intros _.
  assert (Hwrap : forall m,
             Contains (ToLower msg) m = true ->
             Contains (ToLower (pre ++ msg ++ post)) m = true).
  { intros m H. rewrite !ToLower_app.
    apply Contains_app_l, Contains_app_r. exact H. }
  assert (Hfind : forall s,
             (exists m, In m transientMarkers /\ Contains (ToLower s) m = true)
             <-> isTransientI2C (Err s) = true).
  { intro s. unfold isTransientI2C, transientMarkers. rewrite !orb_true_iff.
    split.
    - intros (m & Hin & Hc). simpl in Hin.
      destruct Hin as [<- | [<- | [<- | [<- | []]]]]; tauto.
    - intros [[[H | H] | H] | H]; eexists; (split; [|exact H]); simpl; tauto. }
  split.
  - intro Hin. apply Hfind. exists (ToLower msg). split; [exact Hin|].
    apply Hwrap. apply Contains_self.
  - intro H. apply Hfind in H. destruct H as (m & Hin & Hc).
    apply Hfind. exists m. split; [exact Hin | apply Hwrap; exact Hc].
Qed.

Lemma transient_errors_witness :
  isTransientI2C (Err ("read /dev/i2c-1: " ++ "Remote I/O Error" ++ " (addr 0x24)"))
  = true.
Proof.
  destruct (transient_errors "read /dev/i2c-1: " "Remote I/O Error" " (addr 0x24)")
    as (H & _); [reflexivity|].
  apply H. left. reflexivity.
Defined.

End TransientErrors.
